(** * Verification of the glossary-extraction pipeline of SyncMate_Functions

    Shallow embedding of [src/lib/glossaryExtractor.ts] (the column type
    detector, column statistics, text truncation, the file-processing
    orchestrator, the term deduplicator and the retrying model client) and of
    the in-flight guard of [src/lib/backgroundGlossaryProcessor.ts].

    Modelling conventions.
    - JavaScript strings are Stdlib [string]s; characters are Latin-1
      [ascii] codes.  [\s] and [String.prototype.trim] use the same
      whitespace set, restricted to Latin-1: codes 9..13, 32 and 160.
    - JavaScript numbers used as counts are [nat]; fractional numbers
      (confidences, parsed column values) are rationals [Q], extended with
      the two infinities where [Number(...)] may produce them.
    - Comparisons of an integer count with [n * 0.6] or [n * 0.8] are done on
      rationals.  At the sizes the code uses (sample sizes 1..50, text limit
      100000) the double products equal the exact products whenever those are
      integers, and are otherwise at distance at least 1/5 from any integer,
      so the comparison with an integer gives the same answer.
    - Library calls that are not code of this repository ([Date.parse],
      [Number], csv-parse, JSON parsing, XLSX, pdf-parse, the Gemini model,
      Supabase) are parameters of the Sections that use them: every theorem
      holds for all of their behaviours. *)

From Stdlib Require Import Ascii String List Arith Lia Bool ZArith QArith
  Permutation.
From Stdlib Require Import Qminmax Lqa.
Import ListNotations.
Open Scope nat_scope.

(* ------------------------------------------------------------------------ *)
(** ** Characters and string helpers *)

Definition ascii_eqb (a b : ascii) : bool := Ascii.eqb a b.

(** [\s] / trim whitespace, restricted to Latin-1. *)
Definition is_ws (c : ascii) : bool :=
  let n := nat_of_ascii c in
  ((9 <=? n) && (n <=? 13)) || (n =? 32) || (n =? 160).

(** Line terminators, which [.] does not match (Latin-1 part). *)
Definition is_line_term (c : ascii) : bool :=
  let n := nat_of_ascii c in (n =? 10) || (n =? 13).

Definition is_digit (c : ascii) : bool :=
  let n := nat_of_ascii c in (48 <=? n) && (n <=? 57).

Definition is_alpha (c : ascii) : bool :=
  let n := nat_of_ascii c in ((65 <=? n) && (n <=? 90)) || ((97 <=? n) && (n <=? 122)).

(** [toLowerCase] on Latin-1: A-Z and the letters 0xC0..0xDE except 0xD7. *)
Definition lower_c (c : ascii) : ascii :=
  let n := nat_of_ascii c in
  if ((65 <=? n) && (n <=? 90)) || ((192 <=? n) && (n <=? 222) && negb (n =? 215))
  then ascii_of_nat (n + 32) else c.

Fixpoint ltrim (l : list ascii) : list ascii :=
  match l with
  | c :: r => if is_ws c then ltrim r else l
  | [] => []
  end.

Definition trim_l (l : list ascii) : list ascii := rev (ltrim (rev (ltrim l))).

(** [s.trim()] *)
Definition trim (s : string) : string :=
  string_of_list_ascii (trim_l (list_ascii_of_string s)).

(** [s.toLowerCase()] *)
Definition toLowerCase (s : string) : string :=
  string_of_list_ascii (map lower_c (list_ascii_of_string s)).

(* ------------------------------------------------------------------------ *)
(** ** The recognizers of [detectDataType]

    Each regular expression is written out as the boolean function deciding
    the same language. *)

(** Split at the first [@] (the [@] itself dropped). *)
Fixpoint split_at_sign (l : list ascii) : list ascii * list ascii :=
  match l with
  | [] => ([], [])
  | c :: r => if ascii_eqb c "@" then ([], r)
              else let (a, b) := split_at_sign r in (c :: a, b)
  end.

(** [/^[^\s@]+@[^\s@]+\.[^\s@]+$/]: no whitespace, exactly one [@], a
    non-empty local part, and a [.] in the domain part that is neither its
    first nor its last character. *)
Definition email_ok (l : list ascii) : bool :=
  forallb (fun c => negb (is_ws c)) l &&
  (count_occ ascii_dec l "@"%char =? 1) &&
  (let (a, b) := split_at_sign l in
   negb (length a =? 0) &&
   existsb (fun c => ascii_eqb c ".") (tl (removelast b))).

Definition after_scheme (r : list ascii) : bool :=
  match r with
  | c1 :: c2 :: c3 :: c :: _ =>
      ascii_eqb c1 ":" && ascii_eqb c2 "/" && ascii_eqb c3 "/" && negb (is_line_term c)
  | _ => false
  end.

(** [/^https?:\/\/.+/i]: case-insensitive scheme, then at least one
    character other than a line terminator (no [$] anchor). *)
Definition url_ok (l : list ascii) : bool :=
  match map lower_c l with
  | h :: t1 :: t2 :: p :: rest =>
      ascii_eqb h "h" && ascii_eqb t1 "t" && ascii_eqb t2 "t" && ascii_eqb p "p" &&
      (after_scheme rest ||
       match rest with
       | s :: r => ascii_eqb s "s" && after_scheme r
       | [] => false
       end)
  | _ => false
  end.

(** The class [[\d\s\-\(\)]]. *)
Definition phone_class (c : ascii) : bool :=
  is_digit c || is_ws c || ascii_eqb c "-" || ascii_eqb c "(" || ascii_eqb c ")".

(** [/^\+?[\d\s\-\(\)]{7,}$/] ([+] is not in the class, so the optional
    sign is decided by the first character). *)
Definition phone_ok (l : list ascii) : bool :=
  match l with
  | [] => false
  | c :: r =>
      if ascii_eqb c "+" then forallb phone_class r && (7 <=? length r)
      else forallb phone_class l && (7 <=? length l)
  end.

(** The class [[A-Z0-9\-_]] under the [i] flag. *)
Definition id_class (c : ascii) : bool :=
  is_alpha c || is_digit c || ascii_eqb c "-" || ascii_eqb c "_".

(** [/^[A-Z0-9\-_]{6,}$/i] *)
Definition id_ok (l : list ascii) : bool :=
  forallb id_class l && (6 <=? length l).

(** Split at the first [.]. *)
Fixpoint split_dot (l : list ascii) : list ascii * option (list ascii) :=
  match l with
  | [] => ([], None)
  | c :: r => if ascii_eqb c "." then ([], Some r)
              else let (a, b) := split_dot r in (c :: a, b)
  end.

Definition digits1 (l : list ascii) : bool :=
  negb (length l =? 0) && forallb is_digit l.

(** [-?\d+(\.\d+)?] *)
Definition num_core (l : list ascii) : bool :=
  let l' := match l with
            | c :: r => if ascii_eqb c "-" then r else l
            | [] => [] end in
  match split_dot l' with
  | (d, None) => digits1 d
  | (d, Some e) => digits1 d && digits1 e
  end.

(** [/^\s*-?\d+(\.\d+)?\s*$/]: the core has no whitespace at either end,
    so the surrounding [\s*] are exactly what [trim_l] removes. *)
Definition number_ok (l : list ascii) : bool := num_core (trim_l l).

Definition boolean_words : list string :=
  ["true"; "false"; "yes"; "no"; "y"; "n"; "0"; "1"]%string.

(** [/^(true|false|yes|no|y|n|0|1)$/i] *)
Definition boolean_ok (l : list ascii) : bool :=
  existsb (fun w => String.eqb (string_of_list_ascii (map lower_c l)) w) boolean_words.

(* ------------------------------------------------------------------------ *)
(** ** Column type detection ([FileProcessor.detectDataType]) *)

(** [type DataType] *)
Inductive DataType :=
| DString | DNumber | DDate | DBoolean | DEmail | DUrl | DPhone | DId | DUnknown.

Definition DataType_eqb (a b : DataType) : bool :=
  match a, b with
  | DString, DString | DNumber, DNumber | DDate, DDate | DBoolean, DBoolean
  | DEmail, DEmail | DUrl, DUrl | DPhone, DPhone | DId, DId
  | DUnknown, DUnknown => true
  | _, _ => false
  end.

(** The [scores] object, its keys in declaration order. *)
Record Scores := {
  sc_email : nat; sc_url : nat; sc_phone : nat; sc_id : nat;
  sc_number : nat; sc_date : nat; sc_boolean : nat }.

Definition scores0 : Scores := Build_Scores 0 0 0 0 0 0 0.

(** [scores.<key>++] *)
Definition bump (d : DataType) (s : Scores) : Scores :=
  let '(Build_Scores e u p i n dt b) := s in
  match d with
  | DEmail => Build_Scores (S e) u p i n dt b
  | DUrl => Build_Scores e (S u) p i n dt b
  | DPhone => Build_Scores e u (S p) i n dt b
  | DId => Build_Scores e u p (S i) n dt b
  | DNumber => Build_Scores e u p i (S n) dt b
  | DDate => Build_Scores e u p i n (S dt) b
  | DBoolean => Build_Scores e u p i n dt (S b)
  | _ => s
  end.

(** [Object.entries(scores)], in insertion order. *)
Definition score_entries (s : Scores) : list (DataType * nat) :=
  [(DEmail, sc_email s); (DUrl, sc_url s); (DPhone, sc_phone s); (DId, sc_id s);
   (DNumber, sc_number s); (DDate, sc_date s); (DBoolean, sc_boolean s)].

Definition Q_of_nat (n : nat) : Q := inject_Z (Z.of_nat n).

Definition Qltb (x y : Q) : bool := negb (Qle_bool y x).

Section TypeDetection.

(** [!isNaN(Date.parse(s))]: the engine's date parser. *)
Variable date_parses : string -> bool.

(** One iteration of the [for (const value of sample)] loop. *)
Definition score_value (s : Scores) (value : string) : Scores :=
  let trimmed := trim value in
  let t := list_ascii_of_string trimmed in
  if email_ok t then bump DEmail s
  else if url_ok t then bump DUrl s
  else if phone_ok t then bump DPhone s
  else if id_ok t then bump DId s
  else if number_ok t then bump DNumber s
  else if boolean_ok t then bump DBoolean s
  else if date_parses trimmed && (6 <? String.length trimmed) then bump DDate s
  else s.

(** [Math.min(50, values.length)] *)
Definition sample_size (values : list string) : nat := Nat.min 50 (length values).

Definition sample_scores (values : list string) : Scores :=
  fold_left score_value (firstn (sample_size values) values) scores0.

(** [Math.max(...Object.values(scores))] *)
Definition max_score (s : Scores) : nat := list_max (map snd (score_entries s)).

(** [FileProcessor.detectDataType] *)
Definition detectDataType (values : list string) : DataType :=
  match values with
  | [] => DUnknown
  | _ :: _ =>
      let sampleSize := sample_size values in
      let scores := sample_scores values in
      let maxScore := max_score scores in
      let threshold := (Q_of_nat sampleSize * (6 # 10))%Q in
      if Qltb (Q_of_nat maxScore) threshold then DString
      else match find (fun e => snd e =? maxScore) (score_entries scores) with
           | Some (winner, _) => winner
           | None => DString
           end
  end.

End TypeDetection.

(* ------------------------------------------------------------------------ *)
(** ** Numbers and column statistics ([FileProcessor.calculateStatistics]) *)

(** A JavaScript number that is not [NaN]. *)
Inductive jsnum := NInf | Fin (q : Q) | PInf.

Definition jle (a b : jsnum) : bool :=
  match a, b with
  | NInf, _ => true
  | _, PInf => true
  | Fin x, Fin y => Qle_bool x y
  | _, _ => false
  end.

(** [Math.min] / [Math.max] of two non-NaN numbers. *)
Definition jmin (a b : jsnum) : jsnum := if jle a b then a else b.
Definition jmax (a b : jsnum) : jsnum := if jle a b then b else a.

(** [a + b]; [None] is [NaN].  The sum of two finite numbers is exact
    here, where JavaScript rounds it to a double, so [st_avg] below is the
    exact mean of the parsed numbers, not the one JavaScript computes; no
    property of this file is about [st_avg]. *)
Definition jadd (a b : jsnum) : option jsnum :=
  match a, b with
  | Fin x, Fin y => Some (Fin (x + y)%Q)
  | PInf, NInf | NInf, PInf => None
  | PInf, _ | _, PInf => Some PInf
  | NInf, _ | _, NInf => Some NInf
  end.

(** [x / n] for a positive count [n]. *)
Definition jdiv_count (a : option jsnum) (n : nat) : option jsnum :=
  match a with
  | Some (Fin x) => Some (Fin (x / Q_of_nat n)%Q)
  | other => other
  end.

Record Statistics := { st_min : jsnum; st_max : jsnum; st_avg : option jsnum }.

Section Statistics.

(** [Number(s)], [None] when it is [NaN]. *)
Variable js_Number : string -> option jsnum.

Definition parsed_numbers (values : list string) : list jsnum :=
  flat_map (fun v => match js_Number v with Some x => [x] | None => [] end) values.

(** [FileProcessor.calculateStatistics] *)
Definition calculateStatistics (values : list string) (type : DataType)
  : option Statistics :=
  if negb (DataType_eqb type DNumber) || (length values =? 0) then None
  else
    let numbers := parsed_numbers values in
    match numbers with
    | [] => None
    | _ :: _ =>
        Some {| st_min := fold_left jmin numbers PInf;
                st_max := fold_left jmax numbers NInf;
                st_avg := jdiv_count
                            (fold_left (fun acc b => match acc with
                                                     | Some a => jadd a b
                                                     | None => None end)
                                       numbers (Some (Fin 0)))
                            (length numbers) |}
    end.

End Statistics.

(* ------------------------------------------------------------------------ *)
(** ** Strings: [endsWith], [includes], [lastIndexOf], number formatting *)

Definition ends_with (s suf : string) : bool :=
  (String.length suf <=? String.length s) &&
  String.eqb (substring (String.length s - String.length suf) (String.length suf) s) suf.

Fixpoint includes (s sub : string) : bool :=
  String.prefix sub s ||
  match s with
  | EmptyString => false
  | String _ r => includes r sub
  end.

(** [s.lastIndexOf(".")], [-1] when absent. *)
Fixpoint last_dot_from (i : nat) (l : list ascii) (acc : Z) : Z :=
  match l with
  | [] => acc
  | c :: r => last_dot_from (S i) r (if ascii_eqb c "." then Z.of_nat i else acc)
  end.

Definition lastIndexOf_dot (s : string) : Z :=
  last_dot_from 0 (list_ascii_of_string s) (-1)%Z.

Fixpoint digits_N (fuel : nat) (n : N) (acc : string) : string :=
  match fuel with
  | O => acc
  | S f =>
      let acc' := String (ascii_of_N (48 + N.modulo n 10)) acc in
      if (n <? 10)%N then acc' else digits_N f (N.div n 10) acc'
  end.

(** [`${n}`] for a non-negative integer. *)
Definition string_of_N (n : N) : string := digits_N 32 n "".
Definition string_of_nat (n : nat) : string := string_of_N (N.of_nat n).

(** A thrown JavaScript error: [String(e)] is [name: message]. *)
Record JsError := { err_name : string; err_message : string }.

Definition err_to_string (e : JsError) : string :=
  if String.eqb (err_message e) "" then err_name e
  else (err_name e ++ ": " ++ err_message e)%string.

(** [new Error(msg)] *)
Definition mkError (msg : string) : JsError := {| err_name := "Error"; err_message := msg |}.

(* ------------------------------------------------------------------------ *)
(** ** [CONFIG.PROCESSING] and [CONFIG.AI] *)

Definition MAX_FILE_SIZE : N := 50 * 1024 * 1024.
Definition MAX_TEXT_LENGTH : nat := 100000.
Definition MAX_ROWS_TO_ANALYZE : nat := 1000.
Definition SAMPLE_VALUES_COUNT : nat := 8.
Definition TYPE_DETECTION_SAMPLE_SIZE : nat := 100.
Definition MAX_RETRIES : nat := 3.
Definition RETRY_DELAY : nat := 1000.

(* ------------------------------------------------------------------------ *)
(** ** Text truncation ([FileProcessor.truncateText]) *)

(** [FileProcessor.truncateText] *)
Definition truncateText (text : string) (maxLength : nat) : string :=
  if String.length text <=? maxLength then text
  else
    let truncated := substring 0 maxLength text in
    let lastSentence := lastIndexOf_dot truncated in
    if Qltb (Q_of_nat maxLength * (8 # 10))%Q (inject_Z lastSentence)
    then substring 0 (Z.to_nat lastSentence + 1) truncated
    else (truncated ++ "...")%string.

(* ------------------------------------------------------------------------ *)
(** ** Column profiling ([FileProcessor.profileColumns]) *)

(** A cell of a parsed row: [null]/[undefined], a string, or another value
    given by its [String(...)] rendering. *)
Inductive Cell := CNull | CStr (s : string) | COther (rendered : string).

(** A row object; its keys in [Object.keys] order. *)
Definition Row := list (string * Cell).

(** [row[name]] *)
Definition get_cell (row : Row) (name : string) : Cell :=
  match find (fun kv => String.eqb (fst kv) name) row with
  | Some (_, c) => c
  | None => CNull
  end.

(** [String(v ?? "")] *)
Definition cell_string (c : Cell) : string :=
  match c with CNull => "" | CStr s => s | COther s => s end.

(** [v == null || v === ""] *)
Definition is_null_cell (c : Cell) : bool :=
  match c with CNull => true | CStr s => String.eqb s "" | COther _ => false end.

(** [Array.from(new Set(xs))]: first occurrences, in order. *)
Fixpoint uniq_from (seen : list string) (xs : list string) : list string :=
  match xs with
  | [] => []
  | x :: r => if existsb (String.eqb x) seen then uniq_from seen r
              else x :: uniq_from (x :: seen) r
  end.

Definition set_from (xs : list string) : list string := uniq_from [] xs.

Record ColumnPreview := {
  cp_name : string; cp_detectedType : DataType; cp_samples : list string;
  cp_nullCount : nat; cp_uniqueCount : nat; cp_statistics : option Statistics }.

(** The value [readTabular] returns, as far as [profileColumns] and
    [processFile] inspect it.  It is typed [any[]], but a JSON file can make
    it any truthy JSON value: an array, whose elements are [null] ([None])
    or a value given by its keys ([Object.keys] order) and their values (an
    object by its properties, a string or an array by its indices, a number
    or a boolean by none); a string; an object that is not an array, by
    whether its [length] property is truthy; or a number or a boolean. *)
Inductive Tabular :=
| TArray (elems : list (option Row))
| TString (s : string)
| TObject (length_truthy : bool)
| TOther.

Section Profiling.

Variable date_parses : string -> bool.
Variable js_Number : string -> option jsnum.

Definition profile_column (analysisRows : list Row) (sampleCount : nat) (name : string)
  : ColumnPreview :=
  let values := filter (fun v => negb (String.eqb (trim v) ""))
                       (map (fun row => cell_string (get_cell row name)) analysisRows) in
  let allValues := map (fun row => get_cell row name) analysisRows in
  let nullCount := length (filter is_null_cell allValues) in
  let uniqueValues := set_from values in
  let samples := firstn sampleCount uniqueValues in
  let detectedType := detectDataType date_parses (firstn TYPE_DETECTION_SAMPLE_SIZE values) in
  let statistics := calculateStatistics js_Number values detectedType in
  {| cp_name := trim name; cp_detectedType := detectedType; cp_samples := samples;
     cp_nullCount := nullCount; cp_uniqueCount := length uniqueValues;
     cp_statistics := statistics |}.

(** [FileProcessor.profileColumns] on an array of row objects, none of
    them [null] (what [csvParse] and [sheet_to_json] return); see
    [profileColumns_js] below for any value. *)
Definition profileColumns (rows : list Row) (sampleCount : nat) : list ColumnPreview :=
  match rows with
  | [] => []
  | row0 :: _ =>
      let columns := map fst row0 in
      let analysisRows := firstn MAX_ROWS_TO_ANALYZE rows in
      map (profile_column analysisRows sampleCount) columns
  end.

(** [rows[0] || {}] for an element of an array of rows: a falsy element
    has no keys, as [{}]. *)
Definition row_or_empty (e : option Row) : Row :=
  match e with Some r => r | None => [] end.

Definition type_error (msg : string) : JsError :=
  {| err_name := "TypeError"; err_message := msg |}.

(** [FileProcessor.profileColumns] on any value [readTabular] returns.
    For an array whose first element has keys, [row[name]] on a [null]
    element among the first 1000 throws for the first column; a non-empty
    string has the key ["0"] at index 0 and no [map]; an object with a
    truthy [length] has no [slice]. *)
Definition profileColumns_js (rows : Tabular) (sampleCount : nat)
  : JsError + list ColumnPreview :=
  match rows with
  | TArray elems =>
      match elems with
      | [] => inr []
      | e0 :: _ =>
          let columns := map fst (row_or_empty e0) in
          let analysisRows := firstn MAX_ROWS_TO_ANALYZE elems in
          match columns with
          | [] => inr []
          | name :: _ =>
              if existsb (fun e => match e with None => true | Some _ => false end) analysisRows
              then inl (type_error ("Cannot read properties of null (reading '" ++ name ++ "')"))
              else inr (map (profile_column (map row_or_empty analysisRows) sampleCount) columns)
          end
      end
  | TString s =>
      if String.eqb s "" then inr [] else inl (type_error "analysisRows.map is not a function")
  | TObject length_truthy =>
      if length_truthy then inl (type_error "rows.slice is not a function") else inr []
  | TOther => inr []
  end.

End Profiling.

(* ------------------------------------------------------------------------ *)
(** ** The orchestrator ([FileProcessor.processFile]) *)

Definition Buffer := list Byte.byte.

Record FileMetadata := {
  fm_filename : string; fm_mimetype : string; fm_size : N; fm_datasetId : string }.

(** The result of [JSON.parse] as far as [readTabular] inspects it: an
    array, [null], an object with its [rows] and [data] properties ([None]
    when absent or falsy), or a string, number or boolean. *)
Inductive JsonTop :=
| JArray (elems : list (option Row))
| JNull
| JObject (rows_field : option Tabular) (data_field : option Tabular)
| JScalar.

Record ProcessedFile := {
  pf_columnPreview : list ColumnPreview; pf_unstructuredText : string;
  pf_warnings : list string }.

Section Orchestrator.

Variable date_parses : string -> bool.
Variable js_Number : string -> option jsnum.
(** [csvParse(buffer.toString("utf8"), {columns: true, delimiter, ...})] *)
Variable csv_parse : string -> Buffer -> JsError + list Row.
(** [JSON.parse(buffer.toString("utf8"))] *)
Variable json_parse : Buffer -> JsError + JsonTop.
(** [XLSX.read] followed by [sheet_to_json] of the first sheet. *)
Variable xlsx_rows : Buffer -> JsError + list Row.
(** [(await pdfParse(buffer)).text] *)
Variable pdf_text : Buffer -> JsError + string.
(** [buffer.toString("utf8")] *)
Variable utf8 : Buffer -> string.

(** [FileProcessor.looksTabular] *)
Definition looksTabular (filename mimetype : string) : bool :=
  let lower := toLowerCase filename in
  existsb (ends_with lower) [".csv"; ".xlsx"; ".xls"; ".tsv"; ".json"]%string ||
  existsb (includes (toLowerCase mimetype)) ["csv"; "excel"; "sheet"; "tab-separated"; "json"]%string.

(** An array of row objects. *)
Definition rows_array (rows : JsError + list Row) : JsError + Tabular :=
  match rows with inl e => inl e | inr rows => inr (TArray (map Some rows)) end.

(** [FileProcessor.readTabular] *)
Definition readTabular (buffer : Buffer) (filename : string) : JsError + Tabular :=
  let lower := toLowerCase filename in
  let attempt :=
    if ends_with lower ".csv" || ends_with lower ".tsv" then
      let delimiter := if ends_with lower ".tsv" then String "009"%char EmptyString else ","%string in
      rows_array (csv_parse delimiter buffer)
    else if ends_with lower ".json" then
      match json_parse buffer with
      | inl e => inl e
      | inr (JArray elems) => inr (TArray elems)
      | inr JNull => inl {| err_name := "TypeError";
                            err_message := "Cannot read properties of null (reading 'rows')" |}
      | inr (JObject (Some rows) _) => inr rows
      | inr (JObject None (Some data)) => inr data
      | inr (JObject None None) => inr (TArray [])
      | inr JScalar => inr (TArray [])
      end
    else rows_array (xlsx_rows buffer) in
  match attempt with
  | inl error => inl (mkError ("Failed to parse tabular data: " ++ err_to_string error))
  | inr rows => inr rows
  end.

(** [FileProcessor.readUnstructured] *)
Definition readUnstructured (buffer : Buffer) (filename mimetype : string) : JsError + string :=
  let lower := toLowerCase filename in
  if ends_with lower ".pdf" || includes mimetype "pdf" then
    match pdf_text buffer with
    | inl error => inl (mkError ("Failed to extract text from file: " ++ err_to_string error))
    | inr text => inr (truncateText text MAX_TEXT_LENGTH)
    end
  else inr (truncateText (utf8 buffer) MAX_TEXT_LENGTH).

(** [rows.length > n]: [false] when [rows.length] is not a number, or a
    falsy one, which is the case of every value but an array on which
    [profileColumns] returns. *)
Definition tab_length (rows : Tabular) : nat :=
  match rows with TArray elems => length elems | _ => 0 end.

(** The body of the [try] of [processFile] up to its [return]: the rows
    and their column previews. *)
Definition tabular_try (fileBuffer : Buffer) (filename : string)
  : JsError + (Tabular * list ColumnPreview) :=
  match readTabular fileBuffer filename with
  | inl e => inl e
  | inr rows =>
      match profileColumns_js date_parses js_Number rows SAMPLE_VALUES_COUNT with
      | inl e => inl e
      | inr columnPreview => inr (rows, columnPreview)
      end
  end.

Definition fallback_warning (error : JsError) : string :=
  ("Tabular processing failed: " ++ err_to_string error ++ ". Falling back to text processing.")%string.

(** [FileProcessor.processFile] *)
Definition processFile (fileBuffer : Buffer) (metadata : FileMetadata)
  : JsError + ProcessedFile :=
  if (MAX_FILE_SIZE <? fm_size metadata)%N then
    inl (mkError ("File too large: " ++ string_of_N (fm_size metadata) ++
                  " bytes (max: " ++ string_of_N MAX_FILE_SIZE ++ ")"))
  else if looksTabular (fm_filename metadata) (fm_mimetype metadata) then
    match tabular_try fileBuffer (fm_filename metadata) with
    | inr (rows, columnPreview) =>
        let warnings :=
          if MAX_ROWS_TO_ANALYZE <? tab_length rows then
            [("Large dataset: analyzed first " ++ string_of_nat MAX_ROWS_TO_ANALYZE ++
              " rows of " ++ string_of_nat (tab_length rows))%string]
          else [] in
        inr {| pf_columnPreview := columnPreview; pf_unstructuredText := "";
               pf_warnings := warnings |}
    | inl error =>
        let warnings := [fallback_warning error] in
        match readUnstructured fileBuffer (fm_filename metadata) (fm_mimetype metadata) with
        | inl e => inl e
        | inr text => inr {| pf_columnPreview := []; pf_unstructuredText := text;
                             pf_warnings := warnings |}
        end
    end
  else
    match readUnstructured fileBuffer (fm_filename metadata) (fm_mimetype metadata) with
    | inl e => inl e
    | inr text => inr {| pf_columnPreview := []; pf_unstructuredText := text;
                         pf_warnings := [] |}
    end.

End Orchestrator.

(* ------------------------------------------------------------------------ *)
(** ** Term deduplication ([deduplicateTerms]) *)

(** [interface GlossaryTerm]; optional fields are [option]s. *)
Record GlossaryTerm := {
  gt_term : string;
  gt_definition : string;
  gt_source_columns : list string;
  gt_data_types : option (list string);
  gt_sample_values : option (list string);
  gt_synonyms : option (list string);
  gt_category : option string;
  gt_confidence : Q;
  gt_source_file_id : option string;
  gt_source_filename : option string;
  gt_dataset_id : option string }.

(** [xs || []] *)
Definition or_empty (xs : option (list string)) : list string :=
  match xs with Some l => l | None => [] end.

(** [a || b] on optional strings ([""] is falsy). *)
Definition or_str (a b : option string) : option string :=
  match a with
  | Some s => if String.eqb s "" then b else Some s
  | None => b
  end.

(** [a ?? b] *)
Definition nullish {A} (a b : option A) : option A :=
  match a with Some x => Some x | None => b end.

(** [{ ...term, term: term.term.trim() }] *)
Definition with_trimmed_name (t : GlossaryTerm) : GlossaryTerm :=
  {| gt_term := trim (gt_term t); gt_definition := gt_definition t;
     gt_source_columns := gt_source_columns t; gt_data_types := gt_data_types t;
     gt_sample_values := gt_sample_values t; gt_synonyms := gt_synonyms t;
     gt_category := gt_category t; gt_confidence := gt_confidence t;
     gt_source_file_id := gt_source_file_id t;
     gt_source_filename := gt_source_filename t; gt_dataset_id := gt_dataset_id t |}.

(** The [merged] record of the [else] branch. *)
Definition merge_terms (existing term : GlossaryTerm) : GlossaryTerm :=
  {| gt_term := gt_term existing;
     gt_definition :=
       if String.length (gt_definition term) <=? String.length (gt_definition existing)
       then gt_definition existing else gt_definition term;
     gt_source_columns := set_from (gt_source_columns existing ++ gt_source_columns term);
     gt_data_types := Some (set_from (or_empty (gt_data_types existing) ++ or_empty (gt_data_types term)));
     gt_sample_values := Some (set_from (or_empty (gt_sample_values existing) ++ or_empty (gt_sample_values term)));
     gt_synonyms := Some (set_from (or_empty (gt_synonyms existing) ++ or_empty (gt_synonyms term)));
     gt_category := or_str (gt_category existing) (gt_category term);
     gt_confidence := Qmax (gt_confidence existing) (gt_confidence term);
     gt_source_file_id := nullish (gt_source_file_id existing) (gt_source_file_id term);
     gt_source_filename := nullish (gt_source_filename existing) (gt_source_filename term);
     gt_dataset_id := nullish (gt_dataset_id existing) (gt_dataset_id term) |}.

(** [term.term.trim().toLowerCase()] *)
Definition normalize (s : string) : string := toLowerCase (trim s).

(** The [Map] [seen], as a list of entries in insertion order; [set] on an
    existing key replaces the value in place. *)
Definition TermMap := list (string * GlossaryTerm).

Fixpoint map_get (m : TermMap) (k : string) : option GlossaryTerm :=
  match m with
  | [] => None
  | (k', v) :: r => if String.eqb k k' then Some v else map_get r k
  end.

Fixpoint map_set (m : TermMap) (k : string) (v : GlossaryTerm) : TermMap :=
  match m with
  | [] => [(k, v)]
  | (k', v') :: r => if String.eqb k k' then (k', v) :: r else (k', v') :: map_set r k v
  end.

(** One iteration of [for (const term of terms)]. *)
Definition dedup_step (seen : TermMap) (term : GlossaryTerm) : TermMap :=
  let normalizedTerm := normalize (gt_term term) in
  match map_get seen normalizedTerm with
  | None => map_set seen normalizedTerm (with_trimmed_name term)
  | Some existing => map_set seen normalizedTerm (merge_terms existing term)
  end.

(** [Array.prototype.sort] is stable, so its result with the comparator
    [(a, b) => b.confidence - a.confidence] is the stable sort by decreasing
    confidence, computed here by insertion. *)
Fixpoint insert_by_conf (x : GlossaryTerm) (l : list GlossaryTerm) : list GlossaryTerm :=
  match l with
  | [] => [x]
  | y :: r => if Qltb (gt_confidence x) (gt_confidence y) then y :: insert_by_conf x r
              else x :: y :: r
  end.

Definition sort_by_conf (l : list GlossaryTerm) : list GlossaryTerm :=
  fold_right insert_by_conf [] l.

(** [deduplicateTerms] *)
Definition deduplicateTerms (terms : list GlossaryTerm) : list GlossaryTerm :=
  sort_by_conf (map snd (fold_left dedup_step terms [])).

(* ------------------------------------------------------------------------ *)
(** ** The retrying model call ([EnhancedGeminiClient.extractTermsWithRetry]) *)

(** Observable effects of the loop. *)
Inductive RetryEvent := ECall (attempt : nat) | ESleep (ms : nat).

Section Retry.

Variable Parsed : Type.
(** The outcome of attempt [n]: [generateContent] raced against the 30 s
    timeout, then [response.text()] and [JSON.parse]; any of them may throw. *)
Variable call : nat -> JsError + Parsed.

Definition last_message (lastError : option JsError) : string :=
  match lastError with Some e => err_message e | None => "undefined" end.

Fixpoint retry_from (attempt remaining : nat) (lastError : option JsError)
  : list RetryEvent * (JsError + Parsed) :=
  match remaining with
  | O => ([], inl (mkError ("Gemini API failed after " ++ string_of_nat MAX_RETRIES ++
                            " attempts: " ++ last_message lastError)))
  | S rem =>
      match call attempt with
      | inr parsed => ([ECall attempt], inr parsed)
      | inl error =>
          let sleep := if attempt <? MAX_RETRIES
                       then [ESleep (RETRY_DELAY * 2 ^ (attempt - 1))] else [] in
          let '(evs, r) := retry_from (S attempt) rem (Some error) in
          (ECall attempt :: sleep ++ evs, r)
      end
  end.

(** [for (let attempt = 1; attempt <= CONFIG.AI.MAX_RETRIES; attempt++)] *)
Definition extractTermsWithRetry : list RetryEvent * (JsError + Parsed) :=
  retry_from 1 MAX_RETRIES None.

End Retry.

(* ------------------------------------------------------------------------ *)
(** ** The in-flight guard ([BackgroundGlossaryProcessor.processFileInBackground]) *)

(** The processing steps, as observed from outside. *)
Inductive BgEvent :=
| EvInitExtractor
| EvStatus (status : string)
| EvDownload (storagePath : string)
| EvMetadata (fileId : string)
| EvExtract
| EvSaveTerms
| EvSaveRules.

(** The singleton's [processingQueue] (a [Set<string>]) and the effects
    performed so far, most recent first. *)
Record BgState := { processingQueue : list string; effects : list BgEvent }.

(** The async error-state monad of the method body. *)
Definition Bg (A : Type) : Type := BgState -> BgState * (JsError + A).

Definition bg_ret {A} (x : A) : Bg A := fun s => (s, inr x).
Definition bg_throw {A} (e : JsError) : Bg A := fun s => (s, inl e).
Definition bg_bind {A B} (m : Bg A) (k : A -> Bg B) : Bg B :=
  fun s => match m s with
           | (s', inr x) => k x s'
           | (s', inl e) => (s', inl e)
           end.

Notation "x <- m ;; k" := (bg_bind m (fun x => k)) (at level 61, m at next level, right associativity).

(** [try { m } catch (error) { h(error) }] *)
Definition bg_try {A} (m : Bg A) (h : JsError -> Bg A) : Bg A :=
  fun s => match m s with
           | (s', inr x) => (s', inr x)
           | (s', inl e) => h e s'
           end.

(** [try { m } finally { f }]: [f] runs on both outcomes; an error thrown
    by [f] replaces the outcome of [m]. *)
Definition bg_finally {A} (m : Bg A) (f : Bg unit) : Bg A :=
  fun s => let '(s1, r) := m s in
           match f s1 with
           | (s2, inr _) => (s2, r)
           | (s2, inl e) => (s2, inl e)
           end.

(** [Set.prototype.has], [add] and [delete]. *)
Definition set_has (x : string) (xs : list string) : bool := existsb (String.eqb x) xs.
Definition set_add (x : string) (xs : list string) : list string :=
  if set_has x xs then xs else xs ++ [x].
Definition set_delete (x : string) (xs : list string) : list string :=
  filter (fun y => negb (String.eqb x y)) xs.

Definition bg_effect {A} (ev : BgEvent) (outcome : JsError + A) : Bg A :=
  fun s => ({| processingQueue := processingQueue s; effects := ev :: effects s |}, outcome).

Definition queue_add (fileId : string) : Bg unit :=
  fun s => ({| processingQueue := set_add fileId (processingQueue s); effects := effects s |}, inr tt).
Definition queue_delete (fileId : string) : Bg unit :=
  fun s => ({| processingQueue := set_delete fileId (processingQueue s); effects := effects s |}, inr tt).

Section Background.

(** Outcomes of the awaited collaborators (Gemini extractor factory,
    Supabase storage and tables, the extractor). *)
Variable init_outcome : JsError + unit.
Variable status_outcome : string -> JsError + unit.
Variable download_outcome : string -> JsError + Buffer.
Variable metadata_outcome : string -> option FileMetadata.
(** [extractFromFile]: numbers of extracted terms and rules. *)
Variable extract_outcome : Buffer -> FileMetadata -> JsError + (nat * nat).
Variable save_terms_outcome : JsError + unit.
(** [saveExtractedRules]: the number of rules inserted. *)
Variable save_rules_outcome : JsError + nat.

Definition bg_body (fileId storagePath : string) : Bg unit :=
  _ <- bg_effect EvInitExtractor init_outcome ;;
  _ <- bg_effect (EvStatus "processing") (status_outcome "processing") ;;
  fileBuffer <- bg_effect (EvDownload storagePath) (download_outcome storagePath) ;;
  fileMetadata <- bg_effect (EvMetadata fileId) (inr (metadata_outcome fileId)) ;;
  match fileMetadata with
  | None => bg_throw (mkError ("File metadata not found for ID: " ++ fileId))
  | Some meta =>
      extracted <- bg_effect EvExtract (extract_outcome fileBuffer meta) ;;
      _ <- bg_effect EvSaveTerms save_terms_outcome ;;
      _ <- bg_effect EvSaveRules save_rules_outcome ;;
      bg_effect (EvStatus "processed") (status_outcome "processed")
  end.

(** [BackgroundGlossaryProcessor.processFileInBackground] *)
Definition processFileInBackground (fileId storagePath : string) : Bg unit :=
  fun s =>
    if set_has fileId (processingQueue s) then bg_ret tt s
    else (_ <- queue_add fileId ;;
          bg_finally
            (bg_try (bg_body fileId storagePath)
                    (fun _ => bg_effect (EvStatus "failed") (status_outcome "failed")))
            (queue_delete fileId)) s.

End Background.

(* ------------------------------------------------------------------------ *)
(** ** [createGlossaryExtractor().extractFromFile] *)

Record ExtractionResult := {
  er_terms : list GlossaryTerm; er_warnings : list string;
  er_columnPreview : option (list ColumnPreview) }.

Section Extractor.

Variable date_parses : string -> bool.
Variable js_Number : string -> option jsnum.
Variable csv_parse : string -> Buffer -> JsError + list Row.
Variable json_parse : Buffer -> JsError + JsonTop.
Variable xlsx_rows : Buffer -> JsError + list Row.
Variable pdf_text : Buffer -> JsError + string.
Variable utf8 : Buffer -> string.
(** [PromptBuilder.buildEnhancedPrompt] (column preview, text, dataset id,
    business context, extraction mode); nothing below depends on the text
    of the prompt. *)
Variable buildEnhancedPrompt :
  list ColumnPreview -> string -> string -> option string -> string -> string.
(** Attempt [n] of the model call on a prompt: the [terms] field of the
    parsed reply, [None] when the reply has none. *)
Variable gemini : string -> nat -> JsError + option (list GlossaryTerm).

Definition extractFromFile (fileBuffer : Buffer) (filename mimetype : string) (size : N)
  (datasetId : string) (businessContext : option string) (extractionMode : string)
  : list RetryEvent * (JsError + ExtractionResult) :=
  match processFile date_parses js_Number csv_parse json_parse xlsx_rows pdf_text utf8
          fileBuffer {| fm_filename := filename; fm_mimetype := mimetype; fm_size := size;
                        fm_datasetId := datasetId |} with
  | inl e => ([], inl e)
  | inr pf =>
      let prompt := buildEnhancedPrompt (pf_columnPreview pf) (pf_unstructuredText pf)
                      datasetId businessContext extractionMode in
      let '(evs, r) := extractTermsWithRetry _ (gemini prompt) in
      (evs, match r with
            | inl e => inl e
            | inr parsed =>
                let deduped := deduplicateTerms (match parsed with Some ts => ts | None => [] end) in
                inr {| er_terms := deduped; er_warnings := pf_warnings pf;
                       er_columnPreview := match pf_columnPreview pf with
                                           | [] => None
                                           | cp => Some cp
                                           end |}
            end)
  end.

End Extractor.

(* ------------------------------------------------------------------------ *)
(** ** [DatabaseClient.batchUpsertTerms] *)

Definition MAX_BATCH_SIZE : nat := 100.

(** The parameters [$1..$9] of one [INSERT ... ON CONFLICT] query. *)
Record UpsertParams := {
  up_term : string; up_definition : string; up_source_columns : list string;
  up_data_types : option (list string); up_sample_values : option (list string);
  up_synonyms : option (list string); up_category : option string;
  up_confidence : Q; up_dataset_id : string }.

(** [s || null] for an optional string: the empty string is falsy. *)
Definition str_or_null (x : option string) : option string :=
  match x with
  | Some s => if String.eqb s "" then None else Some s
  | None => None
  end.

(** [Math.max(0, Math.min(1, x))] *)
Definition clamp01 (x : Q) : Q := Qmax 0 (Qmin 1 x).

(** [x || d] for a number: [0] is falsy. *)
Definition num_or (x d : Q) : Q := if Qeq_bool x 0 then d else x.

(** The parameter array of the query for one term; [xs || null] keeps an
    array, which is truthy even when empty. *)
Definition upsert_params (datasetId : string) (term : GlossaryTerm) : UpsertParams :=
  {| up_term := trim (gt_term term); up_definition := gt_definition term;
     up_source_columns := gt_source_columns term;
     up_data_types := gt_data_types term; up_sample_values := gt_sample_values term;
     up_synonyms := gt_synonyms term; up_category := str_or_null (gt_category term);
     up_confidence := clamp01 (num_or (gt_confidence term) (6 # 10));
     up_dataset_id := datasetId |}.

(** The iterations of [for (let i = 0; i < terms.length; i += MAX_BATCH_SIZE)]
    with their [terms.slice(i, i + MAX_BATCH_SIZE)]; [fuel] bounds the number
    of iterations, and [terms.length] iterations always suffice. *)
Fixpoint batch_loop {A} (fuel i : nat) (terms : list A) : list (nat * list A) :=
  match fuel with
  | O => []
  | S f =>
      if i <? length terms
      then (i, firstn MAX_BATCH_SIZE (skipn i terms)) :: batch_loop f (i + MAX_BATCH_SIZE) terms
      else []
  end.

Definition batches {A} (terms : list A) : list (nat * list A) :=
  batch_loop (length terms) 0 terms.

(** What the methods send to the database ([QSchema] is the
    [CREATE TABLE IF NOT EXISTS data_glossary ...; CREATE INDEX ...] of
    [ensureSchema]), and the log lines [Processed batch k]. *)
Inductive SqlEvent :=
| QSchema | QBegin | QInsert (p : UpsertParams) | QCommit | QRollback | LogBatch (k : nat).

(** A computation on the connection: the events so far (most recent first)
    and an outcome. *)
Definition Sql (A : Type) : Type := list SqlEvent -> list SqlEvent * (JsError + A).

Definition sql_ret {A} (x : A) : Sql A := fun log => (log, inr x).
Definition sql_bind {A B} (m : Sql A) (k : A -> Sql B) : Sql B :=
  fun log => match m log with
             | (log', inr x) => k x log'
             | (log', inl e) => (log', inl e)
             end.

(** [for (const x of xs) await f(x)] *)
Fixpoint sql_iter {A} (f : A -> Sql unit) (xs : list A) : Sql unit :=
  match xs with
  | [] => sql_ret tt
  | x :: r => sql_bind (f x) (fun _ => sql_iter f r)
  end.

Definition sql_log (k : nat) : Sql unit := fun log => (LogBatch k :: log, inr tt).

Section Database.

(** The database's answer to a query, given the events before it: [Some e]
    when the query rejects with [e]. *)
Variable db_query : list SqlEvent -> SqlEvent -> option JsError.
(** [this.pool.connect()] *)
Variable connect_outcome : option JsError.

Definition sql_query (q : SqlEvent) : Sql unit :=
  fun log => (q :: log, match db_query log q with Some e => inl e | None => inr tt end).

Definition upsert_batch (datasetId : string) (ib : nat * list GlossaryTerm) : Sql unit :=
  sql_bind (sql_iter (fun t => sql_query (QInsert (upsert_params datasetId t))) (snd ib))
           (fun _ => sql_log (fst ib / MAX_BATCH_SIZE + 1)).

(** [DatabaseClient.batchUpsertTerms]: [BEGIN], the batches, [COMMIT]; on an
    error [ROLLBACK] and rethrow (an error of the [ROLLBACK] itself replaces
    it); [client.release()] in [finally] cannot fail. *)
Definition batchUpsertTerms (terms : list GlossaryTerm) (datasetId : string) : Sql unit :=
  fun log =>
    match connect_outcome with
    | Some e => (log, inl e)
    | None =>
        let body :=
          sql_bind (sql_query QBegin) (fun _ =>
          sql_bind (sql_iter (upsert_batch datasetId) (batches terms)) (fun _ =>
          sql_query QCommit)) in
        match body log with
        | (log1, inr x) => (log1, inr x)
        | (log1, inl e) =>
            match sql_query QRollback log1 with
            | (log2, inr _) => (log2, inl e)
            | (log2, inl e') => (log2, inl e')
            end
        end
    end.

(** [DatabaseClient.ensureSchema]: connect, send the DDL; the
    [client.release()] of [finally] cannot fail. *)
Definition ensureSchema : Sql unit :=
  fun log =>
    match connect_outcome with
    | Some e => (log, inl e)
    | None => sql_query QSchema log
    end.

End Database.

(* ------------------------------------------------------------------------ *)
(** ** The background processor's helpers *)

(** The [FileMetadata] of [backgroundGlossaryProcessor.ts]. *)
Record BgFileMetadata := { bm_filename : string; bm_mimetype : string; bm_size : N }.

(** [/p/i.test(s)] and [/p$/i.test(s)] for a pattern [p] of lowercase ASCII
    letters and dots.  Case-insensitive matching compares the canonical
    (upper-case) forms; no non-ASCII Latin-1 character has an ASCII one, so a
    character matches a letter of [p] exactly when its [toLowerCase] is that
    letter. *)
Definition test_ci (p s : string) : bool := includes (toLowerCase s) p.
Definition test_ci_end (p s : string) : bool := ends_with (toLowerCase s) p.

(** [BackgroundGlossaryProcessor.determineExtractionMode] *)
Definition determineExtractionMode (metadata : BgFileMetadata) : string :=
  if (1024 * 1024 <? bm_size metadata)%N ||
     existsb (fun p => test_ci p (bm_mimetype metadata)) ["excel"; "csv"; "spreadsheet"]%string ||
     existsb (fun p => test_ci_end p (bm_filename metadata)) [".xls"; ".xlsx"; ".csv"]%string ||
     test_ci "pdf" (bm_mimetype metadata) ||
     test_ci_end ".pdf" (bm_filename metadata)
  then "comprehensive" else "basic".

(** The keyword groups of [inferBusinessContext], in order. *)
Definition business_contexts : list (list string * string) :=
  [(["customer"; "client"; "user"], "Customer Management");
   (["financial"; "finance"; "revenue"; "payment"], "Financial Data");
   (["product"; "inventory"; "catalog"], "Product Management");
   (["sales"; "order"; "transaction"], "Sales & Transactions");
   (["employee"; "staff"; "hr"], "Human Resources");
   (["marketing"; "campaign"; "lead"], "Marketing");
   (["report"; "analytics"; "metrics"], "Business Analytics");
   (["policy"; "guideline"; "manual"; "procedure"], "Policies & Compliance")]%string.

(** [BackgroundGlossaryProcessor.inferBusinessContext] *)
Definition inferBusinessContext (filename : string) : string :=
  let lower := toLowerCase filename in
  match find (fun kc => existsb (fun keyword => includes lower keyword) (fst kc)) business_contexts with
  | Some (_, context) => context
  | None => "General Business Data"
  end.

(** A row of [data_glossary] as written by [saveExtractedTerms]. *)
Record GlossaryRow := {
  gr_term : string; gr_definition : string; gr_source_columns : list string;
  gr_data_types : list string; gr_sample_values : list string; gr_synonyms : list string;
  gr_category : string; gr_confidence : Q; gr_source_file_id : string;
  gr_source_filename : string; gr_dataset_id : string; gr_created_at : string;
  gr_updated_at : string }.

(** [t.category || "General"] *)
Definition or_general (c : option string) : string :=
  match str_or_null c with Some s => s | None => "General" end.

(** The row built by [saveExtractedTerms] for one term.  The term's
    [confidence] is a number (its type requires it), so [?? 0.6] keeps it. *)
Definition glossary_row (fileId sourceFilename nowIso : string) (t : GlossaryTerm) : GlossaryRow :=
  {| gr_term := gt_term t; gr_definition := gt_definition t;
     gr_source_columns := gt_source_columns t;
     gr_data_types := or_empty (gt_data_types t);
     gr_sample_values := or_empty (gt_sample_values t);
     gr_synonyms := or_empty (gt_synonyms t);
     gr_category := or_general (gt_category t);
     gr_confidence := clamp01 (gt_confidence t);
     gr_source_file_id := fileId; gr_source_filename := sourceFilename;
     gr_dataset_id := "file_" ++ fileId; gr_created_at := nowIso; gr_updated_at := nowIso |}.

(** [BackgroundGlossaryProcessor.saveExtractedTerms]: the rows sent to the
    upsert ([None] when nothing is sent) and the outcome; [upsert] is the
    error message of Supabase's answer, if any. *)
Definition saveExtractedTerms (upsert : list GlossaryRow -> option string)
  (fileId : string) (terms : list GlossaryTerm) (sourceFilename nowIso : string)
  : option (list GlossaryRow) * (JsError + unit) :=
  match terms with
  | [] => (None, inr tt)
  | _ :: _ =>
      let rows := map (glossary_row fileId sourceFilename nowIso) terms in
      (Some rows, match upsert rows with
                  | Some msg => inl (mkError ("Database insertion failed: " ++ msg))
                  | None => inr tt
                  end)
  end.

(* ------------------------------------------------------------------------ *)
(** ** [readMultipartData] *)

(** The events Busboy delivers to the listeners of [readMultipartData].
    Only the stream of the first file gets listeners ([data], [error]), so
    [BData] and [BFileError] are events of that stream; before the first
    [file] event there is no such stream and nothing listens to them.
    [BTimeout] is the [setTimeout] of 60 s firing. *)
Inductive BusboyEvent :=
| BFile (filename mimeType : string)
| BData (chunk : Buffer)
| BFileError (e : JsError)
| BField (name value : string)
| BClose
| BError (e : JsError)
| BTimeout.

Record MultipartData := {
  md_fields : list (string * string); md_fileBuffer : Buffer;
  md_filename : string; md_mimetype : string }.

(** The promise (settled at most once: later [resolve]/[reject] calls are
    no-ops) and the variables of the closure. *)
Record MpState := {
  mp_settled : option (JsError + MultipartData);
  mp_fields : list (string * string); mp_chunks : list Buffer;
  mp_filename : string; mp_mimetype : string; mp_fileReceived : bool }.

Definition mp_init : MpState :=
  {| mp_settled := None; mp_fields := []; mp_chunks := []; mp_filename := "";
     mp_mimetype := ""; mp_fileReceived := false |}.

Definition mp_settle (s : MpState) (o : JsError + MultipartData) : MpState :=
  match mp_settled s with
  | None => {| mp_settled := Some o; mp_fields := mp_fields s; mp_chunks := mp_chunks s;
               mp_filename := mp_filename s; mp_mimetype := mp_mimetype s;
               mp_fileReceived := mp_fileReceived s |}
  | Some _ => s
  end.

(** [fields[name] = value] on a plain object, newest binding first:
    assigning a string to [__proto__] does nothing. *)
Definition field_set (fields : list (string * string)) (name value : string)
  : list (string * string) :=
  if String.eqb name "__proto__" then fields else (name, value) :: fields.

(** [chunks.reduce((total, c) => total + c.length, 0)] *)
Definition chunks_size (chunks : list Buffer) : nat :=
  fold_left (fun total c => total + length c) chunks 0.

Definition mp_step (s : MpState) (ev : BusboyEvent) : MpState :=
  match ev with
  | BFile fn mt =>
      if mp_fileReceived s then mp_settle s (inl (mkError "Multiple files not supported"))
      else {| mp_settled := mp_settled s; mp_fields := mp_fields s; mp_chunks := mp_chunks s;
              mp_filename := fn; mp_mimetype := mt; mp_fileReceived := true |}
  | BData c =>
      if mp_fileReceived s then
        let s' := {| mp_settled := mp_settled s; mp_fields := mp_fields s;
                     mp_chunks := mp_chunks s ++ [c]; mp_filename := mp_filename s;
                     mp_mimetype := mp_mimetype s; mp_fileReceived := true |} in
        if (MAX_FILE_SIZE <? N.of_nat (chunks_size (mp_chunks s')))%N
        then mp_settle s' (inl (mkError ("File too large (max: " ++ string_of_N MAX_FILE_SIZE ++
                                          " bytes)")))
        else s'
      else s
  | BFileError e => if mp_fileReceived s then mp_settle s (inl e) else s
  | BField name value =>
      {| mp_settled := mp_settled s; mp_fields := field_set (mp_fields s) name value;
         mp_chunks := mp_chunks s; mp_filename := mp_filename s; mp_mimetype := mp_mimetype s;
         mp_fileReceived := mp_fileReceived s |}
  | BClose =>
      if mp_fileReceived s then
        mp_settle s (inr {| md_fields := mp_fields s; md_fileBuffer := concat (mp_chunks s);
                            md_filename := mp_filename s; md_mimetype := mp_mimetype s |})
      else mp_settle s (inl (mkError "No file provided"))
  | BError e => mp_settle s (inl e)
  | BTimeout => mp_settle s (inl (mkError "Upload timeout"))
  end.

(** [readMultipartData] on a sequence of events: how its promise settled,
    [None] while it is pending. *)
Definition readMultipartData (events : list BusboyEvent) : option (JsError + MultipartData) :=
  mp_settled (fold_left mp_step events mp_init).

(* ------------------------------------------------------------------------ *)
(** ** [uploadAndExtractGlossary] *)

(** The fields after [uploadSchema.validateAsync]. *)
Record UploadFields := {
  uf_datasetId : string; uf_businessContext : option string; uf_extractionMode : string }.

(** The JSON body of a successful response, without [processingTime]
    (a clock reading). *)
Record ProcessingResult := {
  pr_datasetId : string; pr_termsExtracted : nat; pr_fileMetadata : FileMetadata;
  pr_terms : list GlossaryTerm; pr_warnings : option (list string) }.

Inductive HttpResponse :=
| RJson (result : ProcessingResult)
| RError (status : nat) (error : string) (fileMetadata : option FileMetadata).

(** What the handler did: the model calls and delays, the queries of
    [ensureSchema] and [batchUpsertTerms] (most recent first), and the
    response. *)
Record HandlerRun := {
  hr_model : list RetryEvent; hr_database : list SqlEvent; hr_response : HttpResponse }.

Section Handler.

Variable date_parses : string -> bool.
Variable js_Number : string -> option jsnum.
Variable csv_parse : string -> Buffer -> JsError + list Row.
Variable json_parse : Buffer -> JsError + JsonTop.
Variable xlsx_rows : Buffer -> JsError + list Row.
Variable pdf_text : Buffer -> JsError + string.
Variable utf8 : Buffer -> string.
Variable buildEnhancedPrompt :
  list ColumnPreview -> string -> string -> option string -> string -> string.
Variable gemini : string -> nat -> JsError + option (list GlossaryTerm).
(** [uploadSchema.validateAsync(fields)] *)
Variable validate : list (string * string) -> JsError + UploadFields.
(** Whether [GOOGLE_AI_STUDIO_API_KEY] and [DATABASE_URL] are set. *)
Variable api_key_set database_url_set : bool.
(** The database's answer to a query, given the queries before it. *)
Variable db_query : list SqlEvent -> SqlEvent -> option JsError.
(** [this.pool.connect()], given the queries sent before it. *)
Variable db_connect : list SqlEvent -> option JsError.

(** The [catch] block. *)
Definition error_response (tempFileMetadata : option FileMetadata) (error : JsError) : HttpResponse :=
  RError (if includes (err_message error) "validation" then 400 else 500)
         (err_message error) tempFileMetadata.

(** [uploadAndExtractGlossary], given how [readMultipartData] settled. *)
Definition uploadAndExtractGlossary (multipart : JsError + MultipartData) : HandlerRun :=
  match multipart with
  | inl e => {| hr_model := []; hr_database := []; hr_response := error_response None e |}
  | inr md =>
      match validate (md_fields md) with
      | inl e => {| hr_model := []; hr_database := []; hr_response := error_response None e |}
      | inr vf =>
          let tempFileMetadata :=
            {| fm_filename := md_filename md; fm_mimetype := md_mimetype md;
               fm_size := N.of_nat (length (md_fileBuffer md)); fm_datasetId := uf_datasetId vf |} in
          let fail db e := {| hr_model := []; hr_database := db;
                              hr_response := error_response (Some tempFileMetadata) e |} in
          if negb api_key_set then
            fail [] (mkError "GOOGLE_AI_STUDIO_API_KEY environment variable is required")
          else if negb database_url_set then
            fail [] (mkError "DATABASE_URL environment variable is required")
          else match ensureSchema db_query (db_connect []) [] with
          | (log0, inl e) => fail log0 e
          | (log0, inr _) =>
              match processFile date_parses js_Number csv_parse json_parse xlsx_rows pdf_text utf8
                      (md_fileBuffer md) tempFileMetadata with
              | inl e => fail log0 e
              | inr pf =>
                  let prompt := buildEnhancedPrompt (pf_columnPreview pf) (pf_unstructuredText pf)
                                  (uf_datasetId vf) (uf_businessContext vf) (uf_extractionMode vf) in
                  let '(evs, r) := extractTermsWithRetry _ (gemini prompt) in
                  match r with
                  | inl e => {| hr_model := evs; hr_database := log0;
                                hr_response := error_response (Some tempFileMetadata) e |}
                  | inr parsed =>
                      let deduplicatedTerms :=
                        deduplicateTerms (match parsed with Some ts => ts | None => [] end) in
                      let '(log, u) :=
                        if 0 <? length deduplicatedTerms
                        then batchUpsertTerms db_query (db_connect log0) deduplicatedTerms
                               (uf_datasetId vf) log0
                        else (log0, inr tt) in
                      match u with
                      | inl e => {| hr_model := evs; hr_database := log;
                                    hr_response := error_response (Some tempFileMetadata) e |}
                      | inr _ =>
                          {| hr_model := evs; hr_database := log;
                             hr_response := RJson {|
                               pr_datasetId := uf_datasetId vf;
                               pr_termsExtracted := length deduplicatedTerms;
                               pr_fileMetadata := tempFileMetadata;
                               pr_terms := deduplicatedTerms;
                               pr_warnings := match pf_warnings pf with
                                              | [] => None
                                              | w => Some w
                                              end |} |}
                      end
                  end
              end
          end
      end
  end.

End Handler.

(* ------------------------------------------------------------------------ *)
(** ** The recognizer priority as the spec states it

    The spec describes step 3 of type detection as a fixed ordered list of
    recognizers whose first match is scored.  This second definition follows
    those words, to be compared with the [if/else] chain of [score_value]. *)

Definition recognizer_order : list (DataType * (list ascii -> bool)) :=
  [(DEmail, email_ok); (DUrl, url_ok); (DPhone, phone_ok); (DId, id_ok);
   (DNumber, number_ok); (DBoolean, boolean_ok)].

Definition first_recognizer (t : list ascii) : option DataType :=
  match find (fun r => snd r t) recognizer_order with
  | Some (d, _) => Some d
  | None => None
  end.

(* ------------------------------------------------------------------------ *)
(** ** What the deduplicated records say, independent of input order

    The set-valued fields of a term (absent arrays read as empty), and the
    statement that a record [r] summarizes the occurrences of the normalized
    name [k] in a list [p] of input terms: its set-valued fields hold
    exactly the values of those occurrences, and its confidence is the
    largest of theirs. *)

Definition set_fields : list (GlossaryTerm -> list string) :=
  [gt_source_columns; (fun t => or_empty (gt_data_types t));
   (fun t => or_empty (gt_sample_values t)); (fun t => or_empty (gt_synonyms t))].

Definition occurs_in (p : list GlossaryTerm) (k : string) (t : GlossaryTerm) : Prop :=
  In t p /\ normalize (gt_term t) = k.

Definition summarizes (p : list GlossaryTerm) (k : string) (r : GlossaryTerm) : Prop :=
  (forall f, In f set_fields ->
     forall x, In x (f r) <-> exists t, occurs_in p k t /\ In x (f t)) /\
  (exists t, occurs_in p k t /\ (gt_confidence r == gt_confidence t)%Q) /\
  (forall t, occurs_in p k t -> (gt_confidence t <= gt_confidence r)%Q).

(** Two records agree on everything but the first-seen fields. *)
Definition same_view (a b : GlossaryTerm) : Prop :=
  (forall f, In f set_fields -> forall x, In x (f a) <-> In x (f b)) /\
  (gt_confidence a == gt_confidence b)%Q.

(** The invariant of the [for] loop of [deduplicateTerms] after the prefix
    [p] of the input: one entry per normalized name, keyed by the
    normalized (and already trimmed) name of its record, which summarizes
    the occurrences of that name. *)
Record dedup_inv (p : list GlossaryTerm) (m : TermMap) : Prop := {
  inv_nodup : NoDup (map fst m);
  inv_entry : forall k v, In (k, v) m ->
      k = normalize (gt_term v) /\ trim (gt_term v) = gt_term v /\ summarizes p k v;
  inv_cover : forall t, In t p -> exists v, In (normalize (gt_term t), v) m }.

Fixpoint desc_sorted (l : list GlossaryTerm) : Prop :=
  match l with
  | x :: ((y :: _) as r) => (gt_confidence y <= gt_confidence x)%Q /\ desc_sorted r
  | _ => True
  end.

(** Two orderings of three terms, the first and the last of which share
    their normalized name. *)
Definition dedup_ex1 : list GlossaryTerm :=
  [{| gt_term := "Revenue"%string; gt_definition := "Total income"%string; gt_source_columns := ["rev"%string];
      gt_data_types := Some ["number"%string]; gt_sample_values := None; gt_synonyms := None;
      gt_category := None; gt_confidence := 7 # 10; gt_source_file_id := None;
      gt_source_filename := None; gt_dataset_id := None |};
   {| gt_term := "Region"%string; gt_definition := "Sales area"%string; gt_source_columns := ["region"%string];
      gt_data_types := None; gt_sample_values := Some ["EU"%string]; gt_synonyms := None;
      gt_category := None; gt_confidence := 1 # 2; gt_source_file_id := None;
      gt_source_filename := None; gt_dataset_id := None |};
   {| gt_term := " revenue "%string; gt_definition := "Income"%string; gt_source_columns := ["total_rev"%string];
      gt_data_types := None; gt_sample_values := None; gt_synonyms := Some ["sales"%string];
      gt_category := None; gt_confidence := 9 # 10; gt_source_file_id := None;
      gt_source_filename := None; gt_dataset_id := None |}].

Definition dedup_ex2 : list GlossaryTerm :=
  match dedup_ex1 with [a; b; c] => [c; a; b] | l => l end.

(** Inputs of the examples and auxiliary predicates of the proofs. *)

Definition no_date (_ : string) : bool := false.

Definition num_char (c : ascii) : bool :=
  is_digit c || ascii_eqb c "-" || ascii_eqb c ".".

Definition csv_meta (name mime : string) : FileMetadata :=
  {| fm_filename := name; fm_mimetype := mime; fm_size := 10; fm_datasetId := "d" |}.

Definition mk_term (name : string) (conf : Q) : GlossaryTerm :=
  {| gt_term := name; gt_definition := ""; gt_source_columns := [];
     gt_data_types := None; gt_sample_values := None; gt_synonyms := None;
     gt_category := None; gt_confidence := conf; gt_source_file_id := None;
     gt_source_filename := None; gt_dataset_id := None |}.

(** A step of the method body that leaves [processingQueue] alone. *)
Definition keeps_queue {A} (m : Bg A) : Prop :=
  forall s, processingQueue (fst (m s)) = processingQueue s.

(** A text of 100001 letters [a]. *)
Definition long_text : string := string_of_list_ascii (repeat "a"%char (S MAX_TEXT_LENGTH)).

Definition starts_clean (l : list ascii) : Prop :=
  match l with [] => True | c :: _ => is_ws c = false end.

(** Model calls and back-off delays in a trace of the retry loop. *)
Definition is_call (e : RetryEvent) : bool := match e with ECall _ => true | ESleep _ => false end.
Definition is_sleep (e : RetryEvent) : bool := match e with ESleep _ => true | ECall _ => false end.

(** The events of one batch of [batchUpsertTerms], in the order sent. *)
Definition batch_events (datasetId : string) (ib : nat * list GlossaryTerm) : list SqlEvent :=
  map (fun t => QInsert (upsert_params datasetId t)) (snd ib) ++ [LogBatch (fst ib / MAX_BATCH_SIZE + 1)].

(** The chunks carried by the data events of a sequence of events. *)
Definition data_chunks (evs : list BusboyEvent) : list Buffer :=
  flat_map (fun e => match e with BData c => [c] | _ => [] end) evs.

(** A sequence of events without [file] and [close] events. *)
Definition no_file_or_close (evs : list BusboyEvent) : Prop :=
  forall e, In e evs -> match e with BFile _ _ | BClose => False | _ => True end.

(** Collaborators of the examples: a CSV parser returning one row, a
    prompt builder, a model that answers two spellings of one term, a
    validator accepting any fields, and one uploaded file. *)
Definition w_csv_parse (_ : string) (_ : Buffer) : JsError + list Row :=
  inr [[("amount", CStr "100"); (" region ", CStr "EU")]]%string.

Definition w_prompt (_ : list ColumnPreview) (_ _ : string) (_ : option string) (_ : string) : string :=
  "prompt".

Definition w_gemini (_ : string) (_ : nat) : JsError + option (list GlossaryTerm) :=
  inr (Some [mk_term "Amount" (9 # 10); mk_term " amount " (1 # 2)]).

Definition w_validate (_ : list (string * string)) : JsError + UploadFields :=
  inr {| uf_datasetId := "d"; uf_businessContext := None; uf_extractionMode := "comprehensive" |}.

Definition w_upload_events : list BusboyEvent :=
  [BField "datasetId" "d"; BFile "sales.csv" "text/csv"; BData [Byte.x41; Byte.x42]; BData [Byte.x43];
   BClose]%string.

Definition w_commit_fails (_ : list SqlEvent) (q : SqlEvent) : option JsError :=
  match q with QCommit => Some (mkError "deadlock detected") | _ => None end.

(* ======================================================================== *)
(** * Properties *)

(** ** Sanity checks on small inputs *)

Example detect_ex1 : detectDataType no_date ["1234567"%string] = DPhone.
Proof. reflexivity. Qed.
Example detect_ex2 : detectDataType no_date ["12"; "3.5"; "-7"]%string = DNumber.
Proof. reflexivity. Qed.
Example detect_ex3 : detectDataType no_date ["a@b.co"; "x"; "y"]%string = DString.
Proof. reflexivity. Qed.
Example detect_ex4 : detectDataType no_date [" https://x.org "; "http://a"]%string = DUrl.
Proof. reflexivity. Qed.
Example detect_ex5 : detectDataType no_date ["yes"; "N"; "maybe"]%string = DBoolean.
Proof. reflexivity. Qed.
Example detect_ex6 : detectDataType no_date ["AB-12_x"]%string = DId.
Proof. reflexivity. Qed.

Example truncate_ex1 : truncateText "abcdefghi.xyz" 10 = "abcdefghi."%string /\ truncateText "abc.def" 4 = "abc...."%string.
Proof. split; reflexivity. Qed.
Example truncate_ex2 : truncateText "abcdef" 4 = "abcd..."%string.
Proof. reflexivity. Qed.
Example looksTabular_ex : looksTabular "Report.CSV" "" = true /\ looksTabular "a.pdf" "application/pdf" = false.
Proof. split; reflexivity. Qed.

(** ** Type detection *)

Lemma Qltb_true_iff (x y : Q) : Qltb x y = true <-> (x < y)%Q.
Proof.
  unfold Qltb. rewrite negb_true_iff. split.
  - intro H. apply Qnot_le_lt. intro Hle. apply Qle_bool_iff in Hle. congruence.
  - intro H. destruct (Qle_bool y x) eqn:E; [|reflexivity].
    apply Qle_bool_iff in E. exfalso. apply (Qlt_not_le x y); assumption.
Qed.

(** Claim C1: for a non-empty list of values, when the highest per-type
    score over the sample (the first 50 values) is strictly below 60% of the
    sample size, [detectDataType] returns ['string']. *)
Theorem detectDataType_below_threshold (date_parses : string -> bool) (values : list string)
  (Hne : values <> [])
  (Hlow : (Q_of_nat (max_score (sample_scores date_parses values))
           < Q_of_nat (sample_size values) * (6 # 10))%Q) :
  detectDataType date_parses values = DString.
Proof.
  destruct values as [|v rest]; [contradiction|].
  unfold detectDataType.
  apply Qltb_true_iff in Hlow. rewrite Hlow. reflexivity.
Qed.

Lemma detectDataType_below_threshold_witness :
  ["hello"; "a@b.co"]%string <> [] /\
  (Q_of_nat (max_score (sample_scores no_date ["hello"; "a@b.co"]%string))
     < Q_of_nat (sample_size ["hello"; "a@b.co"]%string) * (6 # 10))%Q /\
  detectDataType no_date ["hello"; "a@b.co"]%string = DString.
Proof.
  assert (Hne : ["hello"; "a@b.co"]%string <> []) by discriminate.
  assert (Hlt : (Q_of_nat (max_score (sample_scores no_date ["hello"; "a@b.co"]%string))
     < Q_of_nat (sample_size ["hello"; "a@b.co"]%string) * (6 # 10))%Q) by reflexivity.
  split; [exact Hne|split; [exact Hlt|]].
  exact (detectDataType_below_threshold no_date _ Hne Hlt).
Defined.

(** Characters a phone number may consist of are not letters, are not [@],
    and [toLowerCase] leaves them alone. *)
Lemma phone_char_facts (c : ascii) :
  (ascii_eqb c "+" || phone_class c) = true ->
  lower_c c = c /\ ascii_eqb c "h" = false /\ ascii_eqb c "@" = false.
Proof.
  destruct c as [[] [] [] [] [] [] [] []]; intro H;
    (discriminate H || (split; [reflexivity | split; reflexivity])).
Qed.

Lemma phone_ok_chars (l : list ascii) :
  phone_ok l = true -> forall c, In c l -> (ascii_eqb c "+" || phone_class c) = true.
Proof.
  destruct l as [|c0 r]; [discriminate|]. unfold phone_ok.
  destruct (ascii_eqb c0 "+") eqn:Ep; intros H c Hin;
    apply andb_true_iff in H as [Hall _]; rewrite forallb_forall in Hall.
  - destruct Hin as [<-|Hin]; [rewrite Ep; reflexivity|].
    rewrite (Hall c Hin). apply orb_true_r.
  - rewrite (Hall c Hin). apply orb_true_r.
Qed.

Lemma ascii_eqb_true (a b : ascii) : ascii_eqb a b = true <-> a = b.
Proof. unfold ascii_eqb. apply Ascii.eqb_eq. Qed.

Lemma phone_not_email (l : list ascii) : phone_ok l = true -> email_ok l = false.
Proof.
  intro H. unfold email_ok.
  destruct (count_occ ascii_dec l "@"%char =? 1) eqn:Ec.
  - apply Nat.eqb_eq in Ec.
    assert (Hin : In "@"%char l).
    { apply (count_occ_In ascii_dec). lia. }
    pose proof (phone_char_facts _ (phone_ok_chars l H _ Hin)) as (_ & _ & Hat).
    discriminate Hat.
  - rewrite andb_false_r. reflexivity.
Qed.

Lemma phone_not_url (l : list ascii) : phone_ok l = true -> url_ok l = false.
Proof.
  intro H. unfold url_ok.
  destruct l as [|c r]; [reflexivity|].
  pose proof (phone_char_facts _ (phone_ok_chars (c :: r) H c (or_introl eq_refl)))
    as (Hlow & Hh & _).
  simpl. rewrite Hlow.
  destruct (map lower_c r) as [|? [|? [|? ?]]]; try reflexivity.
  rewrite Hh. reflexivity.
Qed.

(** Claim C2: each sampled value (trimmed) is tested against the
    recognizers in the order email, url, phone, id, number, boolean, and the
    score of the first that matches, and only that score, is incremented; a
    value matching both the phone and the numeric patterns is scored as a
    phone number and leaves the number score unchanged. *)
Theorem score_value_priority (date_parses : string -> bool) (s : Scores) (value : string) :
  score_value date_parses s value =
    match first_recognizer (list_ascii_of_string (trim value)) with
    | Some d => bump d s
    | None => if date_parses (trim value) && (6 <? String.length (trim value))
              then bump DDate s else s
    end /\
  (phone_ok (list_ascii_of_string (trim value)) = true ->
   number_ok (list_ascii_of_string (trim value)) = true ->
   score_value date_parses s value = bump DPhone s /\
   sc_number (score_value date_parses s value) = sc_number s).
Proof.
  split.
  - unfold score_value, first_recognizer; simpl.
    set (t := list_ascii_of_string (trim value)).
    destruct (email_ok t), (url_ok t), (phone_ok t), (id_ok t), (number_ok t),
      (boolean_ok t); reflexivity.
  - intros Hp _.
    assert (Hs : score_value date_parses s value = bump DPhone s).
    { unfold score_value.
      rewrite (phone_not_email _ Hp), (phone_not_url _ Hp), Hp. reflexivity. }
    split; [exact Hs|]. rewrite Hs. destruct s; reflexivity.
Qed.

Lemma score_value_priority_witness :
  phone_ok (list_ascii_of_string (trim "5551234")) = true /\
  number_ok (list_ascii_of_string (trim "5551234")) = true /\
  score_value no_date scores0 "5551234" = bump DPhone scores0.
Proof.
  split; [reflexivity|split; [reflexivity|]].
  exact (proj1 (proj2 (score_value_priority no_date scores0 "5551234")
                 eq_refl eq_refl)).
Defined.

(** ** Numeric columns *)

Lemma ltrim_In (l : list ascii) (c : ascii) :
  In c l -> In c (ltrim l) \/ is_ws c = true.
Proof.
  induction l as [|d r IH]; simpl; [tauto|].
  intros [<-|Hin].
  - destruct (is_ws d) eqn:Ew; [right; reflexivity|left; left; reflexivity].
  - destruct (is_ws d); [apply IH; exact Hin|left; right; exact Hin].
Qed.

Lemma trim_l_In (l : list ascii) (c : ascii) :
  In c l -> In c (trim_l l) \/ is_ws c = true.
Proof.
  intro H. unfold trim_l.
  destruct (ltrim_In l c H) as [H1|]; [|tauto].
  apply in_rev in H1.
  destruct (ltrim_In _ c H1) as [H2|]; [|tauto].
  left. apply in_rev. rewrite rev_involutive. exact H2.
Qed.

Lemma split_dot_In (l : list ascii) (c : ascii) :
  In c l ->
  In c (fst (split_dot l)) \/ c = "."%char \/
  (exists e, snd (split_dot l) = Some e /\ In c e).
Proof.
  induction l as [|d r IH]; simpl; [tauto|].
  destruct (ascii_eqb d ".") eqn:Ed.
  - apply ascii_eqb_true in Ed. subst d. intros [<-|Hin]; [tauto|].
    right; right. exists r. split; [reflexivity|exact Hin].
  - destruct (split_dot r) as [a b] eqn:Es. simpl in *.
    intros [<-|Hin]; [tauto|].
    destruct (IH Hin) as [H|[H|H]]; tauto.
Qed.

Lemma digits1_In (l : list ascii) (c : ascii) : digits1 l = true -> In c l -> is_digit c = true.
Proof.
  unfold digits1. intros H Hin. apply andb_true_iff in H as [_ H].
  rewrite forallb_forall in H. auto.
Qed.

Lemma num_core_chars (l : list ascii) (c : ascii) :
  num_core l = true -> In c l -> num_char c = true.
Proof.
  unfold num_core. intros H Hin.
  assert (Hl' : In c (match l with
                      | c0 :: r => if ascii_eqb c0 "-" then r else l
                      | [] => [] end) \/ c = "-"%char).
  { destruct l as [|c0 r]; [contradiction|].
    destruct (ascii_eqb c0 "-") eqn:E; [|tauto].
    apply ascii_eqb_true in E. subst c0. destruct Hin as [<-|Hin]; tauto. }
  unfold num_char.
  destruct Hl' as [Hl' | -> ]; [|reflexivity].
  destruct (split_dot_In _ c Hl') as [Hd | [ -> | (e & He & Hin')]];
    destruct (split_dot _) as [d [e'|]] eqn:Es; simpl in *;
    try reflexivity; try discriminate.
  - apply andb_true_iff in H as [H _]. rewrite (digits1_In d c H Hd). reflexivity.
  - rewrite (digits1_In d c H Hd). reflexivity.
  - injection He as <-. apply andb_true_iff in H as [_ H].
    rewrite (digits1_In e' c H Hin'). reflexivity.
Qed.

Lemma number_ok_chars (l : list ascii) (c : ascii) :
  number_ok l = true -> In c l -> (num_char c || is_ws c) = true.
Proof.
  unfold number_ok. intros H Hin.
  destruct (trim_l_In l c Hin) as [H1|H1].
  - rewrite (num_core_chars _ c H H1). reflexivity.
  - rewrite H1. apply orb_true_r.
Qed.

(** Characters of a numeral are not letters or [@], and [toLowerCase]
    leaves them alone. *)
Lemma num_char_facts (c : ascii) :
  (num_char c || is_ws c) = true ->
  lower_c c = c /\ ascii_eqb c "h" = false /\ ascii_eqb c "@" = false.
Proof.
  destruct c as [[] [] [] [] [] [] [] []]; intro H;
    (discriminate H || (split; [reflexivity | split; reflexivity])).
Qed.

Lemma number_not_email (l : list ascii) : number_ok l = true -> email_ok l = false.
Proof.
  intro H. unfold email_ok.
  destruct (count_occ ascii_dec l "@"%char =? 1) eqn:Ec.
  - apply Nat.eqb_eq in Ec.
    assert (Hin : In "@"%char l) by (apply (count_occ_In ascii_dec); lia).
    pose proof (num_char_facts _ (number_ok_chars l _ H Hin)) as (_ & _ & Hat).
    discriminate Hat.
  - rewrite andb_false_r. reflexivity.
Qed.

Lemma number_not_url (l : list ascii) : number_ok l = true -> url_ok l = false.
Proof.
  intro H. unfold url_ok.
  destruct l as [|c r]; [reflexivity|].
  pose proof (num_char_facts _ (number_ok_chars (c :: r) c H (or_introl eq_refl)))
    as (Hlow & Hh & _).
  simpl. rewrite Hlow.
  destruct (map lower_c r) as [|? [|? [|? ?]]]; try reflexivity.
  rewrite Hh. reflexivity.
Qed.

(** A numeral that is short or has a fraction is neither a phone number
    nor an identifier. *)
Lemma short_or_decimal_not_phone (l : list ascii) :
  (length l < 6 \/ In "."%char l) -> phone_ok l = false.
Proof.
  intro H. destruct (phone_ok l) eqn:Ep; [|reflexivity]. exfalso.
  destruct H as [Hlen|Hdot].
  - destruct l as [|c r]; [discriminate|]. unfold phone_ok in Ep.
    destruct (ascii_eqb c "+"); apply andb_true_iff in Ep as [_ Ep];
      apply Nat.leb_le in Ep; simpl in *; lia.
  - pose proof (phone_ok_chars l Ep _ Hdot). discriminate.
Qed.

Lemma short_or_decimal_not_id (l : list ascii) :
  (length l < 6 \/ In "."%char l) -> id_ok l = false.
Proof.
  intro H. unfold id_ok. destruct H as [Hlen|Hdot].
  - replace (6 <=? length l) with false by (symmetry; apply Nat.leb_gt; lia).
    apply andb_false_r.
  - destruct (forallb id_class l) eqn:E; [|reflexivity].
    rewrite forallb_forall in E. specialize (E _ Hdot). discriminate.
Qed.

Lemma score_value_numeral (date_parses : string -> bool) (s : Scores) (v : string) :
  number_ok (list_ascii_of_string (trim v)) = true ->
  (length (list_ascii_of_string (trim v)) < 6 \/ In "."%char (list_ascii_of_string (trim v))) ->
  score_value date_parses s v = bump DNumber s.
Proof.
  intros Hn Hs. unfold score_value.
  rewrite (number_not_email _ Hn), (number_not_url _ Hn),
    (short_or_decimal_not_phone _ Hs), (short_or_decimal_not_id _ Hs), Hn.
  reflexivity.
Qed.

Lemma fold_score_numerals (date_parses : string -> bool) (l : list string) (s : Scores) :
  (forall v, In v l ->
     number_ok (list_ascii_of_string (trim v)) = true /\
     (length (list_ascii_of_string (trim v)) < 6 \/ In "."%char (list_ascii_of_string (trim v)))) ->
  fold_left (score_value date_parses) l s =
  Build_Scores (sc_email s) (sc_url s) (sc_phone s) (sc_id s) (sc_number s + length l)
               (sc_date s) (sc_boolean s).
Proof.
  revert s. induction l as [|v r IH]; intros s H.
  - destruct s; simpl. f_equal. lia.
  - simpl. destruct (H v (or_introl eq_refl)) as [Hn Hs].
    rewrite (score_value_numeral date_parses s v Hn Hs).
    rewrite IH by (intros w Hw; apply H; right; exact Hw).
    destruct s; simpl. f_equal. lia.
Qed.

Lemma In_firstn_In {A} (n : nat) (l : list A) (x : A) : In x (firstn n l) -> In x l.
Proof.
  intro H. rewrite <- (firstn_skipn n l). apply in_or_app. left. exact H.
Qed.

Lemma detectDataType_numerals (date_parses : string -> bool) (values : list string) :
  values <> [] ->
  (forall v, In v values ->
     number_ok (list_ascii_of_string (trim v)) = true /\
     (length (list_ascii_of_string (trim v)) < 6 \/ In "."%char (list_ascii_of_string (trim v)))) ->
  detectDataType date_parses values = DNumber.
Proof.
  intros Hne Hall.
  destruct values as [|v0 rest] eqn:Ev; [contradiction|]. rewrite <- Ev in *.
  assert (Hsc : sample_scores date_parses values = Build_Scores 0 0 0 0 (sample_size values) 0 0).
  { unfold sample_scores. rewrite fold_score_numerals.
    - simpl. rewrite length_firstn. unfold sample_size. f_equal. lia.
    - intros v Hv. apply Hall. exact (In_firstn_In _ _ _ Hv). }
  assert (Hpos : 1 <= sample_size values) by (unfold sample_size; rewrite Ev; simpl; lia).
  unfold detectDataType. rewrite Ev. rewrite <- Ev. rewrite Hsc.
  unfold max_score. simpl. rewrite Nat.max_0_r.
  destruct (Qltb _ _) eqn:E.
  - apply Qltb_true_iff in E. exfalso.
    unfold Qlt, Q_of_nat in E. simpl in E. lia.
  - destruct (sample_size values) as [|n]; [lia|]. simpl. rewrite Nat.eqb_refl. reflexivity.
Qed.

Lemma jle_refl (a : jsnum) : jle a a = true.
Proof. destruct a; simpl; try reflexivity. apply Qle_bool_iff. apply Qle_refl. Qed.

Lemma jle_trans (a b c : jsnum) : jle a b = true -> jle b c = true -> jle a c = true.
Proof.
  destruct a, b, c; simpl; try discriminate; try reflexivity.
  rewrite !Qle_bool_iff. apply Qle_trans.
Qed.

Lemma jle_total (a b : jsnum) : jle a b = false -> jle b a = true.
Proof.
  destruct a, b; simpl; try discriminate; try reflexivity.
  intro H. apply Qle_bool_iff. apply Qlt_le_weak. apply Qnot_le_lt.
  intro Hle. apply Qle_bool_iff in Hle. congruence.
Qed.

Lemma fold_jmin_le (l : list jsnum) (a x : jsnum) :
  (x = a \/ In x l) -> jle (fold_left jmin l a) x = true.
Proof.
  revert a x. induction l as [|y r IH]; intros a x H; simpl.
  - destruct H as [->|[]]. apply jle_refl.
  - assert (Hma : jle (jmin a y) a = true /\ jle (jmin a y) y = true).
    { unfold jmin. destruct (jle a y) eqn:E.
      - split; [apply jle_refl|exact E].
      - split; [apply jle_total; exact E|apply jle_refl]. }
    destruct H as [<-|[->|Hin]].
    + apply (jle_trans _ (jmin x y)); [apply IH; left; reflexivity|apply Hma].
    + apply (jle_trans _ (jmin a x)); [apply IH; left; reflexivity|apply Hma].
    + apply IH. right. exact Hin.
Qed.

Lemma fold_jmax_ge (l : list jsnum) (a x : jsnum) :
  (x = a \/ In x l) -> jle x (fold_left jmax l a) = true.
Proof.
  revert a x. induction l as [|y r IH]; intros a x H; simpl.
  - destruct H as [->|[]]. apply jle_refl.
  - assert (Hma : jle a (jmax a y) = true /\ jle y (jmax a y) = true).
    { unfold jmax. destruct (jle a y) eqn:E.
      - split; [exact E|apply jle_refl].
      - split; [apply jle_refl|apply jle_total; exact E]. }
    destruct H as [<-|[->|Hin]].
    + apply (jle_trans _ (jmax x y)); [apply Hma|apply IH; left; reflexivity].
    + apply (jle_trans _ (jmax a x)); [apply Hma|apply IH; left; reflexivity].
    + apply IH. right. exact Hin.
Qed.

Lemma parsed_numbers_In (js_Number : string -> option jsnum) (values : list string) (v : string) (x : jsnum) :
  In v values -> js_Number v = Some x -> In x (parsed_numbers js_Number values).
Proof.
  intros Hv Hx. unfold parsed_numbers. apply in_flat_map. exists v.
  rewrite Hx. split; [exact Hv|left; reflexivity].
Qed.

(** Claim C3 fails as stated: a sample made only of values matching the
    numeric pattern is not necessarily typed ['number'], because the phone
    and identifier recognizers are tried first: ["1234567"] is a phone
    column and ["123456"] an identifier column. *)
Lemma detectDataType_numeric_counterexample :
  number_ok (list_ascii_of_string (trim "1234567")) = true /\
  number_ok (list_ascii_of_string (trim "123456")) = true /\
  (forall date_parses : string -> bool,
     detectDataType date_parses ["1234567"]%string = DPhone /\
     detectDataType date_parses ["123456"]%string = DId).
Proof.
  split; [reflexivity|split; [reflexivity|]].
  intro date_parses. split; reflexivity.
Qed.

(** Claim C3 (amended): for a non-empty sample in which every value, once
    trimmed, matches the numeric pattern and either is shorter than 6
    characters or contains a [.] (so that neither the phone nor the
    identifier recognizer, tried earlier, matches it), [detectDataType]
    returns ['number']; and whenever some value of the column parses as a
    number, the statistics of a ['number'] column exist and satisfy
    [min <= v <= max] for every parsed value [v]. *)
Theorem detectDataType_numeric_column (date_parses : string -> bool)
  (js_Number : string -> option jsnum) (values : list string)
  (Hne : values <> [])
  (Hnum : forall v, In v values ->
     number_ok (list_ascii_of_string (trim v)) = true /\
     (length (list_ascii_of_string (trim v)) < 6 \/ In "."%char (list_ascii_of_string (trim v)))) :
  detectDataType date_parses values = DNumber /\
  (forall v x, In v values -> js_Number v = Some x ->
     exists st, calculateStatistics js_Number values DNumber = Some st /\
                jle (st_min st) x = true /\ jle x (st_max st) = true).
Proof.
  split; [exact (detectDataType_numerals date_parses values Hne Hnum)|].
  intros v x Hv Hx.
  pose proof (parsed_numbers_In js_Number values v x Hv Hx) as Hin.
  unfold calculateStatistics.
  destruct values as [|v0 rest]; [contradiction|].
  remember (parsed_numbers js_Number (v0 :: rest)) as nums eqn:Ep.
  destruct nums as [|n0 ns]; [contradiction|].
  eexists. split; [reflexivity|]. cbn [st_min st_max].
  split.
  - apply fold_jmin_le. right. exact Hin.
  - apply fold_jmax_ge. right. exact Hin.
Qed.

Lemma detectDataType_numeric_column_witness :
  ["12"; "3.5"; " -7 "]%string <> [] /\
  (forall v, In v ["12"; "3.5"; " -7 "]%string ->
     number_ok (list_ascii_of_string (trim v)) = true /\
     (length (list_ascii_of_string (trim v)) < 6 \/ In "."%char (list_ascii_of_string (trim v)))) /\
  detectDataType no_date ["12"; "3.5"; " -7 "]%string = DNumber.
Proof.
  assert (Hne : ["12"; "3.5"; " -7 "]%string <> []) by discriminate.
  assert (Hnum : forall v, In v ["12"; "3.5"; " -7 "]%string ->
     number_ok (list_ascii_of_string (trim v)) = true /\
     (length (list_ascii_of_string (trim v)) < 6 \/ In "."%char (list_ascii_of_string (trim v)))).
  { intros v [<-|[<-|[<-|[]]]]; (split; [reflexivity|left; simpl; lia]). }
  split; [exact Hne|split; [exact Hnum|]].
  exact (proj1 (detectDataType_numeric_column no_date (fun _ => None) _ Hne Hnum)).
Defined.

(** ** The orchestrator *)

Lemma inr_inj {A B} (a b : B) : @inr A B a = inr b -> a = b.
Proof. intro H. injection H as H. exact H. Qed.

(** [ensureSchema] succeeds only when the connection and the DDL query
    do, and then it has sent the DDL. *)
Lemma ensureSchema_ok (db_query : list SqlEvent -> SqlEvent -> option JsError)
  (connect_outcome : option JsError) (log log0 : list SqlEvent) (u : unit)
  (H : ensureSchema db_query connect_outcome log = (log0, inr u)) :
  connect_outcome = None /\ db_query log QSchema = None /\ log0 = QSchema :: log.
Proof.
  unfold ensureSchema, sql_query in H.
  destruct connect_outcome; [discriminate|].
  destruct (db_query log QSchema); [discriminate|].
  injection H as <-. auto.
Qed.

(** When [profileColumns] returns, its columns are named after the trimmed
    keys of the first row of an array, and there are none otherwise. *)
Lemma profileColumns_js_names (date_parses : string -> bool) (js_Number : string -> option jsnum)
  (rows : Tabular) (n : nat) (cps : list ColumnPreview)
  (H : profileColumns_js date_parses js_Number rows n = inr cps) :
  map cp_name cps =
  map (fun kv => trim (fst kv)) (match rows with TArray (e0 :: _) => row_or_empty e0 | _ => [] end).
Proof.
  destruct rows as [elems|str|b|]; cbn [profileColumns_js] in H.
  - destruct elems as [|e0 rest]; [injection H as <-; reflexivity|].
    destruct (map fst (row_or_empty e0)) as [|name cols] eqn:Ec.
    + injection H as <-. apply map_eq_nil in Ec. rewrite Ec. reflexivity.
    + destruct (existsb _ _); [discriminate|]. apply inr_inj in H. subst cps.
      rewrite <- Ec, !map_map. reflexivity.
  - destruct (String.eqb str ""); [injection H as <-; reflexivity|discriminate].
  - destruct b; [discriminate|injection H as <-; reflexivity].
  - injection H as <-. reflexivity.
Qed.

(** Claim C4 fails as stated: a file classified tabular whose parser
    yields no rows (csv-parse returns [[]] for an empty CSV file) gets an
    empty column preview. *)
Lemma processFile_tabular_empty_counterexample :
  looksTabular "empty.csv" "text/csv" = true /\
  processFile no_date (fun _ => None) (fun _ _ => inr []) (fun _ => inr JScalar)
    (fun _ => inr []) (fun _ => inr ""%string) (fun _ => ""%string) []
    (csv_meta "empty.csv" "text/csv")
  = inr {| pf_columnPreview := []; pf_unstructuredText := ""; pf_warnings := [] |}.
Proof. split; reflexivity. Qed.

(** Claim C4 (amended): whenever [processFile] returns, a file classified
    unstructured gets an empty column preview; for a file classified
    tabular whose rows are read and profiled without an exception, the
    preview is the profile, with one column per key of the first row of the
    array read, named by the trimmed key (none when no row was read, or when
    the value read is not an array); when reading or profiling throws, the
    file falls back to text and the preview is empty. *)
Theorem processFile_columnPreview (date_parses : string -> bool)
  (js_Number : string -> option jsnum) (csv_parse : string -> Buffer -> JsError + list Row)
  (json_parse : Buffer -> JsError + JsonTop) (xlsx_rows : Buffer -> JsError + list Row)
  (pdf_text : Buffer -> JsError + string) (utf8 : Buffer -> string)
  (buf : Buffer) (meta : FileMetadata) (r : ProcessedFile)
  (Hok : processFile date_parses js_Number csv_parse json_parse xlsx_rows pdf_text utf8 buf meta
         = inr r) :
  (looksTabular (fm_filename meta) (fm_mimetype meta) = false -> pf_columnPreview r = []) /\
  (looksTabular (fm_filename meta) (fm_mimetype meta) = true ->
     match readTabular csv_parse json_parse xlsx_rows buf (fm_filename meta) with
     | inr rows =>
         match profileColumns_js date_parses js_Number rows SAMPLE_VALUES_COUNT with
         | inr cps =>
             pf_columnPreview r = cps /\
             map cp_name cps =
               map (fun kv => trim (fst kv))
                   (match rows with TArray (e0 :: _) => row_or_empty e0 | _ => [] end)
         | inl _ => pf_columnPreview r = []
         end
     | inl _ => pf_columnPreview r = []
     end).
Proof.
  unfold processFile in Hok.
  destruct (MAX_FILE_SIZE <? fm_size meta)%N; [discriminate|].
  split; intro Ht; rewrite Ht in Hok.
  - destruct (readUnstructured _ _ _ _ _); [discriminate|].
    injection Hok as <-. reflexivity.
  - unfold tabular_try in Hok.
    destruct (readTabular _ _ _ _ _) as [e|rows].
    + destruct (readUnstructured _ _ _ _ _); [discriminate|].
      injection Hok as <-. reflexivity.
    + destruct (profileColumns_js _ _ rows _) as [e|cps] eqn:Ep.
      * destruct (readUnstructured _ _ _ _ _); [discriminate|].
        injection Hok as <-. reflexivity.
      * injection Hok as <-. split; [reflexivity|].
        exact (profileColumns_js_names _ _ _ _ _ Ep).
Qed.

Lemma processFile_columnPreview_witness :
  exists r,
  processFile no_date (fun _ => None)
    (fun _ _ => inr [[("amount", CStr "100"); (" region ", CStr "EU")]]%string)
    (fun _ => inr JScalar) (fun _ => inr []) (fun _ => inr ""%string) (fun _ => ""%string) []
    (csv_meta "sales.csv" "text/csv") = inr r /\
  pf_columnPreview r =
    profileColumns no_date (fun _ => None)
      [[("amount", CStr "100"); (" region ", CStr "EU")]]%string SAMPLE_VALUES_COUNT /\
  map cp_name (pf_columnPreview r) = ["amount"; "region"]%string.
Proof.
  eexists. split; [reflexivity|].
  pose proof (processFile_columnPreview no_date (fun _ => None)
    (fun _ _ => inr [[("amount", CStr "100"); (" region ", CStr "EU")]]%string)
    (fun _ => inr JScalar) (fun _ => inr []) (fun _ => inr ""%string) (fun _ => ""%string) []
    (csv_meta "sales.csv" "text/csv") _ eq_refl) as [_ H].
  destruct (H eq_refl) as [H1 H2].
  split; [exact H1|]. rewrite H1. exact H2.
Defined.

(** A JSON array whose second row is [null] parses, but profiling it
    throws; [processFile] falls back to the text of the file and returns an
    empty column preview. *)
Lemma processFile_null_row_fallback :
  readTabular (fun _ _ => inr []) (fun _ => inr (JArray [Some [("0", COther "1")]; None]))%string
    (fun _ => inr []) [] "rows.json" = inr (TArray [Some [("0", COther "1")]; None])%string /\
  processFile no_date (fun _ => None) (fun _ _ => inr [])
    (fun _ => inr (JArray [Some [("0", COther "1")]; None])%string)
    (fun _ => inr []) (fun _ => inr ""%string) (fun _ => "[[1],null]"%string) []
    (csv_meta "rows.json" "application/json")
  = inr {| pf_columnPreview := []; pf_unstructuredText := "[[1],null]";
           pf_warnings := [fallback_warning
                             (type_error "Cannot read properties of null (reading '0')")] |}.
Proof. split; reflexivity. Qed.

(** Claim C8 fails as stated: the fallback is [readUnstructured], which
    propagates a PDF extraction failure.  A file named [data.xlsx] declared
    as [application/pdf] is classified tabular; when the workbook does not
    parse and the PDF text extraction fails too, the request fails. *)
Lemma processFile_fallback_counterexample :
  let meta := csv_meta "data.xlsx" "application/pdf" in
  looksTabular (fm_filename meta) (fm_mimetype meta) = true /\
  (exists e, readTabular (fun _ _ => inr []) (fun _ => inr JScalar)
               (fun _ => inl (mkError "Unsupported file")) [] (fm_filename meta) = inl e) /\
  processFile no_date (fun _ => None) (fun _ _ => inr []) (fun _ => inr JScalar)
    (fun _ => inl (mkError "Unsupported file"))
    (fun _ => inl (mkError "Invalid PDF structure")) (fun _ => ""%string) [] meta
  = inl (mkError "Failed to extract text from file: Error: Invalid PDF structure").
Proof. split; [reflexivity|split; [eexists; reflexivity|reflexivity]]. Qed.

(** Claim C8 (amended): for a file within the size limit that is classified
    tabular and whose row parsing throws, [processFile] does not surface the
    parse error: it runs the text extraction on the same bytes and, when
    that succeeds, returns an empty column preview, the extracted text and
    the single warning explaining the fallback; the request fails only if
    the fallback text extraction itself fails, which needs the PDF branch
    (a [.pdf] name or a declared type containing [pdf]). *)
Theorem processFile_tabular_fallback (date_parses : string -> bool)
  (js_Number : string -> option jsnum) (csv_parse : string -> Buffer -> JsError + list Row)
  (json_parse : Buffer -> JsError + JsonTop) (xlsx_rows : Buffer -> JsError + list Row)
  (pdf_text : Buffer -> JsError + string) (utf8 : Buffer -> string)
  (buf : Buffer) (meta : FileMetadata) (e : JsError)
  (Hsize : (fm_size meta <= MAX_FILE_SIZE)%N)
  (Htab : looksTabular (fm_filename meta) (fm_mimetype meta) = true)
  (Hfail : readTabular csv_parse json_parse xlsx_rows buf (fm_filename meta) = inl e) :
  processFile date_parses js_Number csv_parse json_parse xlsx_rows pdf_text utf8 buf meta =
    match readUnstructured pdf_text utf8 buf (fm_filename meta) (fm_mimetype meta) with
    | inr text => inr {| pf_columnPreview := []; pf_unstructuredText := text;
                         pf_warnings := [fallback_warning e] |}
    | inl e2 => inl e2
    end /\
  ((ends_with (toLowerCase (fm_filename meta)) ".pdf" || includes (fm_mimetype meta) "pdf")
     = false ->
   processFile date_parses js_Number csv_parse json_parse xlsx_rows pdf_text utf8 buf meta =
     inr {| pf_columnPreview := [];
            pf_unstructuredText := truncateText (utf8 buf) MAX_TEXT_LENGTH;
            pf_warnings := [fallback_warning e] |}).
Proof.
  assert (Hp : processFile date_parses js_Number csv_parse json_parse xlsx_rows pdf_text utf8 buf meta =
    match readUnstructured pdf_text utf8 buf (fm_filename meta) (fm_mimetype meta) with
    | inr text => inr {| pf_columnPreview := []; pf_unstructuredText := text;
                         pf_warnings := [fallback_warning e] |}
    | inl e2 => inl e2
    end).
  { unfold processFile.
    replace (MAX_FILE_SIZE <? fm_size meta)%N with false
      by (symmetry; apply N.ltb_ge; exact Hsize).
    rewrite Htab. unfold tabular_try. rewrite Hfail. reflexivity. }
  split; [exact Hp|].
  intro Hnp. rewrite Hp. unfold readUnstructured. rewrite Hnp. reflexivity.
Qed.

Lemma processFile_tabular_fallback_witness :
  (fm_size (csv_meta "bad.csv" "text/csv") <= MAX_FILE_SIZE)%N /\
  looksTabular "bad.csv" "text/csv" = true /\
  readTabular (fun _ _ => inl {| err_name := "CsvError"; err_message := "Invalid Closing Quote" |})
    (fun _ => inr JScalar) (fun _ => inr []) [] "bad.csv"
  = inl (mkError "Failed to parse tabular data: CsvError: Invalid Closing Quote") /\
  processFile no_date (fun _ => None)
    (fun _ _ => inl {| err_name := "CsvError"; err_message := "Invalid Closing Quote" |})
    (fun _ => inr JScalar) (fun _ => inr []) (fun _ => inr ""%string) (fun _ => "a,b"%string) []
    (csv_meta "bad.csv" "text/csv")
  = inr {| pf_columnPreview := []; pf_unstructuredText := truncateText "a,b" MAX_TEXT_LENGTH;
           pf_warnings := [fallback_warning
                             (mkError "Failed to parse tabular data: CsvError: Invalid Closing Quote")] |}.
Proof.
  assert (Hs : (fm_size (csv_meta "bad.csv" "text/csv") <= MAX_FILE_SIZE)%N) by (vm_compute; discriminate).
  assert (Ht : looksTabular "bad.csv" "text/csv" = true) by reflexivity.
  assert (Hf : readTabular (fun _ _ => inl {| err_name := "CsvError"; err_message := "Invalid Closing Quote" |})
    (fun _ => inr JScalar) (fun _ => inr []) [] "bad.csv"
    = inl (mkError "Failed to parse tabular data: CsvError: Invalid Closing Quote")) by reflexivity.
  split; [exact Hs|split; [exact Ht|split; [exact Hf|]]].
  exact (proj2 (processFile_tabular_fallback no_date (fun _ => None)
    (fun _ _ => inl {| err_name := "CsvError"; err_message := "Invalid Closing Quote" |})
    (fun _ => inr JScalar) (fun _ => inr []) (fun _ => inr ""%string) (fun _ => "a,b"%string) []
    (csv_meta "bad.csv" "text/csv") _ Hs Ht Hf) eq_refl).
Defined.

(** ** Deduplication of two terms *)

(** Claim C5: two terms whose names agree after trimming and lowercasing
    are merged into a single record, named by the first-seen name trimmed,
    whose confidence is the larger of the two. *)
Theorem deduplicateTerms_merge_pair (t1 t2 : GlossaryTerm)
  (Hsame : normalize (gt_term t1) = normalize (gt_term t2)) :
  exists r, deduplicateTerms [t1; t2] = [r] /\
            gt_term r = trim (gt_term t1) /\
            gt_confidence r = Qmax (gt_confidence t1) (gt_confidence t2).
Proof.
  unfold deduplicateTerms. cbn [fold_left].
  unfold dedup_step at 2. unfold dedup_step at 1. rewrite <- Hsame.
  cbn [map_get map_set]. rewrite String.eqb_refl.
  eexists. split; [reflexivity|]. split; reflexivity.
Qed.

Lemma deduplicateTerms_merge_pair_witness :
  normalize (gt_term (mk_term "Customer ID" (6 # 10)))
    = normalize (gt_term (mk_term " customer id " (9 # 10))) /\
  exists r, deduplicateTerms [mk_term "Customer ID" (6 # 10); mk_term " customer id " (9 # 10)] = [r] /\
            gt_term r = "Customer ID"%string /\ gt_confidence r = (9 # 10).
Proof.
  assert (H : normalize (gt_term (mk_term "Customer ID" (6 # 10)))
              = normalize (gt_term (mk_term " customer id " (9 # 10)))) by reflexivity.
  split; [exact H|].
  destruct (deduplicateTerms_merge_pair _ _ H) as (r & Hr & Hn & Hc).
  exists r. split; [exact Hr|]. split; [exact Hn|]. rewrite Hc. reflexivity.
Defined.

(** ** The retrying model call *)

(** Claim C7: when all [MAX_RETRIES] (3) attempts fail, the caller gets
    one error whose message says the call failed after 3 attempts and ends
    with the last failure's message; a delay of [1000 * 2^(attempt-1)] ms
    follows each failed attempt but the last. *)
Theorem extractTermsWithRetry_all_fail (Parsed : Type) (call : nat -> JsError + Parsed)
  (failure : nat -> JsError)
  (Hfail : forall attempt, 1 <= attempt <= MAX_RETRIES -> call attempt = inl (failure attempt)) :
  extractTermsWithRetry Parsed call =
    ([ECall 1; ESleep (RETRY_DELAY * 2 ^ 0); ECall 2; ESleep (RETRY_DELAY * 2 ^ 1); ECall 3],
     inl (mkError ("Gemini API failed after 3 attempts: " ++ err_message (failure 3)))).
Proof.
  unfold extractTermsWithRetry, MAX_RETRIES. simpl.
  rewrite (Hfail 1) by (unfold MAX_RETRIES; lia).
  rewrite (Hfail 2) by (unfold MAX_RETRIES; lia).
  rewrite (Hfail 3) by (unfold MAX_RETRIES; lia).
  reflexivity.
Qed.

Lemma extractTermsWithRetry_all_fail_witness :
  (forall attempt, 1 <= attempt <= MAX_RETRIES ->
     (fun _ : nat => @inl JsError unit (mkError "Request timeout")) attempt
     = inl ((fun _ : nat => mkError "Request timeout") attempt)) /\
  extractTermsWithRetry unit (fun _ => inl (mkError "Request timeout")) =
    ([ECall 1; ESleep 1000; ECall 2; ESleep 2000; ECall 3],
     inl (mkError "Gemini API failed after 3 attempts: Request timeout")).
Proof.
  assert (H : forall attempt, 1 <= attempt <= MAX_RETRIES ->
     (fun _ : nat => @inl JsError unit (mkError "Request timeout")) attempt
     = inl ((fun _ : nat => mkError "Request timeout") attempt)) by (intros; reflexivity).
  split; [exact H|].
  exact (extractTermsWithRetry_all_fail unit _ _ H).
Defined.

(** ** The in-flight guard *)

Lemma bg_effect_keeps {A} (ev : BgEvent) (o : JsError + A) : keeps_queue (bg_effect ev o).
Proof. intro s. reflexivity. Qed.

Lemma bg_ret_keeps {A} (x : A) : keeps_queue (bg_ret x).
Proof. intro s. reflexivity. Qed.

Lemma bg_throw_keeps {A} (e : JsError) : keeps_queue (@bg_throw A e).
Proof. intro s. reflexivity. Qed.

Lemma bg_bind_keeps {A B} (m : Bg A) (k : A -> Bg B) :
  keeps_queue m -> (forall x, keeps_queue (k x)) -> keeps_queue (bg_bind m k).
Proof.
  intros Hm Hk s. unfold bg_bind. specialize (Hm s).
  destruct (m s) as [s' [e|x]]; simpl in *; [exact Hm|].
  rewrite Hk. exact Hm.
Qed.

Lemma bg_try_keeps {A} (m : Bg A) (h : JsError -> Bg A) :
  keeps_queue m -> (forall e, keeps_queue (h e)) -> keeps_queue (bg_try m h).
Proof.
  intros Hm Hh s. unfold bg_try. specialize (Hm s).
  destruct (m s) as [s' [e|x]]; simpl in *; [|exact Hm].
  rewrite Hh. exact Hm.
Qed.

Create HintDb bg_queue.
#[local] Hint Resolve bg_effect_keeps bg_ret_keeps bg_throw_keeps : bg_queue.

Lemma bg_body_keeps init_outcome status_outcome download_outcome metadata_outcome
  extract_outcome save_terms_outcome save_rules_outcome (fileId storagePath : string) :
  keeps_queue (bg_body init_outcome status_outcome download_outcome metadata_outcome
                 extract_outcome save_terms_outcome save_rules_outcome fileId storagePath).
Proof.
  unfold bg_body.
  repeat (apply bg_bind_keeps; [auto with bg_queue|intros ?]).
  destruct_all (option FileMetadata); [|auto with bg_queue].
  repeat (apply bg_bind_keeps; [auto with bg_queue|intros ?]).
  auto with bg_queue.
Qed.

Lemma set_delete_absent (x : string) (q : list string) :
  set_has x q = false -> set_delete x q = q.
Proof.
  induction q as [|y r IH]; simpl; [reflexivity|].
  intro H. apply orb_false_iff in H as [Hy Hr].
  unfold set_delete in *. simpl. rewrite Hy. simpl. f_equal. exact (IH Hr).
Qed.

Lemma set_has_delete (x : string) (q : list string) : set_has x (set_delete x q) = false.
Proof.
  induction q as [|y r IH]; [reflexivity|].
  unfold set_delete in *. simpl.
  destruct (String.eqb x y) eqn:E; simpl; [exact IH|].
  rewrite E. exact IH.
Qed.

Lemma set_delete_add (x : string) (q : list string) :
  set_has x q = false -> set_delete x (set_add x q) = q.
Proof.
  intro H. unfold set_add. rewrite H. unfold set_delete. rewrite filter_app.
  simpl. rewrite String.eqb_refl. simpl. rewrite app_nil_r.
  exact (set_delete_absent x q H).
Qed.

(** Claim C10: an invocation for a [fileId] not in [processingQueue] adds
    it and, whatever the collaborators do (any of them may fail, including
    the final status update), the queue it returns with no longer contains
    [fileId] and is otherwise as before; an invocation for a [fileId]
    already in the queue returns at once, performing no step and leaving the
    state, and so the existing entry, untouched. *)
Theorem processFileInBackground_inflight
  (init_outcome : JsError + unit) (status_outcome : string -> JsError + unit)
  (download_outcome : string -> JsError + Buffer)
  (metadata_outcome : string -> option FileMetadata)
  (extract_outcome : Buffer -> FileMetadata -> JsError + (nat * nat))
  (save_terms_outcome : JsError + unit) (save_rules_outcome : JsError + nat)
  (fileId storagePath : string) (s : BgState) :
  let '(s', r) := processFileInBackground init_outcome status_outcome download_outcome
                    metadata_outcome extract_outcome save_terms_outcome save_rules_outcome
                    fileId storagePath s in
  if set_has fileId (processingQueue s) then s' = s /\ r = inr tt
  else processingQueue s' = processingQueue s /\ set_has fileId (processingQueue s') = false.
Proof.
  unfold processFileInBackground.
  destruct (set_has fileId (processingQueue s)) eqn:Ehas.
  - split; reflexivity.
  - unfold bg_bind at 1, queue_add. cbv beta iota.
    unfold bg_finally.
    match goal with
    | |- context [bg_try ?m ?h ?s1] =>
        pose proof (bg_try_keeps m h
                      (bg_body_keeps _ _ _ _ _ _ _ fileId storagePath)
                      (fun _ => bg_effect_keeps _ _) s1) as Hk;
        destruct (bg_try m h s1) as [s2 r2] eqn:Etry
    end.
    simpl in Hk. unfold queue_delete. simpl. rewrite Hk.
    destruct r2; simpl; split;
      solve [apply set_delete_add; exact Ehas | apply set_has_delete].
Qed.

(** ** Text truncation *)

Lemma string_length_append (a b : string) :
  String.length (a ++ b) = String.length a + String.length b.
Proof. induction a as [|c a IH]; simpl; [reflexivity|]. rewrite IH. reflexivity. Qed.

Lemma substring0_length (n : nat) (s : string) :
  String.length (substring 0 n s) = Nat.min n (String.length s).
Proof.
  revert n. induction s as [|c s IH]; intro n; destruct n as [|n]; simpl; try reflexivity.
  rewrite IH. reflexivity.
Qed.

Lemma substring0_In (n : nat) (s : string) (c : ascii) :
  In c (list_ascii_of_string (substring 0 n s)) -> In c (list_ascii_of_string s).
Proof.
  revert n. induction s as [|d s IH]; intro n; destruct n as [|n]; simpl; try tauto.
  intros [H|H]; [left; exact H|right; exact (IH n H)].
Qed.

Lemma list_ascii_length (s : string) : length (list_ascii_of_string s) = String.length s.
Proof. induction s as [|c s IH]; simpl; [reflexivity|]. rewrite IH. reflexivity. Qed.

Lemma last_dot_from_range (l : list ascii) (i : nat) (acc : Z) :
  last_dot_from i l acc = acc \/
  (Z.of_nat i <= last_dot_from i l acc < Z.of_nat (i + length l))%Z.
Proof.
  revert i acc. induction l as [|c r IH]; intros i acc; simpl; [left; reflexivity|].
  destruct (IH (S i) (if ascii_eqb c "." then Z.of_nat i else acc)) as [H|H].
  - rewrite H. destruct (ascii_eqb c "."); [right; lia|left; reflexivity].
  - right. lia.
Qed.

Lemma last_dot_from_absent (l : list ascii) (i : nat) (acc : Z) :
  (forall c, In c l -> ascii_eqb c "." = false) -> last_dot_from i l acc = acc.
Proof.
  revert i. induction l as [|c r IH]; intros i H; simpl; [reflexivity|].
  rewrite (H c (or_introl eq_refl)). apply IH. intros d Hd. apply H. right. exact Hd.
Qed.

Lemma lastIndexOf_dot_range (s : string) :
  lastIndexOf_dot s = (-1)%Z \/ (0 <= lastIndexOf_dot s < Z.of_nat (String.length s))%Z.
Proof.
  unfold lastIndexOf_dot. rewrite <- list_ascii_length.
  destruct (last_dot_from_range (list_ascii_of_string s) 0 (-1)) as [H|H]; [left; exact H|].
  right. simpl in H. exact H.
Qed.

Lemma Qltb_four_fifths (m : nat) (z : Z) :
  Qltb (Q_of_nat m * (8 # 10))%Q (inject_Z z) = (4 * Z.of_nat m <? 5 * z)%Z.
Proof.
  destruct (Qltb _ _) eqn:E; symmetry.
  - apply Qltb_true_iff in E. unfold Qlt, Q_of_nat in E. simpl in E.
    apply Z.ltb_lt. lia.
  - apply Z.ltb_ge. destruct (Z.le_gt_cases (5 * z) (4 * Z.of_nat m)) as [H|H]; [exact H|].
    exfalso. assert (Hq : (Q_of_nat m * (8 # 10) < inject_Z z)%Q).
    { unfold Qlt, Q_of_nat. simpl. lia. }
    apply Qltb_true_iff in Hq. congruence.
Qed.

(** [truncateText] for an arbitrary limit. *)
Lemma truncateText_cases (text : string) (m : nat) :
  let truncated := substring 0 m text in
  let lastSentence := lastIndexOf_dot truncated in
  (String.length text <= m -> truncateText text m = text) /\
  (m < String.length text ->
     ((4 * Z.of_nat m < 5 * lastSentence)%Z ->
        truncateText text m = substring 0 (Z.to_nat lastSentence + 1) truncated /\
        String.length (truncateText text m) <= m) /\
     ((5 * lastSentence <= 4 * Z.of_nat m)%Z ->
        truncateText text m = (truncated ++ "...")%string /\
        String.length (truncateText text m) = m + 3)).
Proof.
  intros truncated lastSentence. split.
  - intro H. unfold truncateText. apply Nat.leb_le in H. rewrite H. reflexivity.
  - intro H. assert (Hlen : String.length truncated = m)
      by (unfold truncated; rewrite substring0_length; lia).
    assert (Hnle : (String.length text <=? m) = false) by (apply Nat.leb_gt; lia).
    split; intro Hc.
    + assert (Heq : truncateText text m = substring 0 (Z.to_nat lastSentence + 1) truncated).
      { unfold truncateText. rewrite Hnle. fold truncated. fold lastSentence.
        rewrite Qltb_four_fifths. apply Z.ltb_lt in Hc. rewrite Hc. reflexivity. }
      split; [exact Heq|]. rewrite Heq, substring0_length. lia.
    + assert (Heq : truncateText text m = (truncated ++ "...")%string).
      { unfold truncateText. rewrite Hnle. fold truncated. fold lastSentence.
        rewrite Qltb_four_fifths. apply Z.ltb_ge in Hc. rewrite Hc. reflexivity. }
      split; [exact Heq|]. rewrite Heq, string_length_append, Hlen. reflexivity.
Qed.

Lemma Z_of_MAX_TEXT_LENGTH : Z.of_nat MAX_TEXT_LENGTH = 100000%Z.
Proof. reflexivity. Qed.

Lemma long_text_length : String.length long_text = S MAX_TEXT_LENGTH.
Proof.
  unfold long_text. rewrite <- list_ascii_length, list_ascii_of_string_of_list_ascii.
  apply repeat_length.
Qed.

(** Claim C9 fails as stated: the hard-truncation branch appends ["..."]
    to a prefix of the full limit, so a text of 100001 characters without
    any [.] comes back with 100003 characters. *)
Lemma truncateText_length_counterexample :
  String.length (truncateText long_text MAX_TEXT_LENGTH) = MAX_TEXT_LENGTH + 3 /\
  ~ (String.length (truncateText long_text MAX_TEXT_LENGTH) <= MAX_TEXT_LENGTH).
Proof.
  destruct (truncateText_cases long_text MAX_TEXT_LENGTH) as [_ H].
  rewrite long_text_length in H.
  destruct (H (Nat.lt_succ_diag_r _)) as [_ Hhard].
  assert (Hnone : lastIndexOf_dot (substring 0 MAX_TEXT_LENGTH long_text) = (-1)%Z).
  { unfold lastIndexOf_dot. apply last_dot_from_absent.
    intros c Hc. apply substring0_In in Hc. unfold long_text in Hc.
    rewrite list_ascii_of_string_of_list_ascii in Hc.
    apply repeat_spec in Hc. subst c. reflexivity. }
  rewrite Hnone in Hhard. destruct Hhard as [_ Hl]; [lia|].
  rewrite Hl. split; [reflexivity|lia].
Qed.

(** Claim C9 (amended): [truncateText text 100000] returns [text] unchanged
    when it has at most 100000 characters; otherwise, with [truncated] its
    first 100000 characters, it cuts after the last [.] of [truncated] when
    that [.] is at an index above 80000 (giving at most 100000 characters),
    and else returns [truncated] followed by ["..."] (100003 characters).
    The result never exceeds 100003 characters. *)
Theorem truncateText_spec (text : string) :
  let out := truncateText text MAX_TEXT_LENGTH in
  let truncated := substring 0 MAX_TEXT_LENGTH text in
  let lastSentence := lastIndexOf_dot truncated in
  String.length out <= MAX_TEXT_LENGTH + 3 /\
  (String.length text <= MAX_TEXT_LENGTH -> out = text) /\
  (MAX_TEXT_LENGTH < String.length text ->
     ((80000 < lastSentence)%Z ->
        out = substring 0 (Z.to_nat lastSentence + 1) truncated /\
        String.length out <= MAX_TEXT_LENGTH) /\
     ((lastSentence <= 80000)%Z ->
        out = (truncated ++ "...")%string /\ String.length out = MAX_TEXT_LENGTH + 3)).
Proof.
  intros out truncated lastSentence.
  destruct (truncateText_cases text MAX_TEXT_LENGTH) as [Hshort Hlong].
  fold truncated lastSentence in Hlong. rewrite Z_of_MAX_TEXT_LENGTH in Hlong.
  assert (Hcases : String.length text <= MAX_TEXT_LENGTH ->  out = text) by exact Hshort.
  assert (Hl : MAX_TEXT_LENGTH < String.length text ->
     ((80000 < lastSentence)%Z ->
        out = substring 0 (Z.to_nat lastSentence + 1) truncated /\
        String.length out <= MAX_TEXT_LENGTH) /\
     ((lastSentence <= 80000)%Z ->
        out = (truncated ++ "...")%string /\ String.length out = MAX_TEXT_LENGTH + 3)).
  { intro H. destruct (Hlong H) as [H1 H2]. split; intro Hc.
    - apply H1. lia.
    - apply H2. lia. }
  split; [|split; [exact Hcases|exact Hl]].
  destruct (Nat.le_gt_cases (String.length text) MAX_TEXT_LENGTH) as [H|H].
  - rewrite (Hcases H). lia.
  - destruct (Hl H) as [H1 H2].
    destruct (Z.lt_ge_cases 80000 lastSentence) as [Hc|Hc].
    + destruct (H1 Hc) as [_ Hle]. lia.
    + destruct (H2 Hc) as [_ Heq]. lia.
Qed.

Lemma truncateText_spec_witness :
  String.length "Short text."%string <= MAX_TEXT_LENGTH /\
  truncateText "Short text." MAX_TEXT_LENGTH = "Short text."%string.
Proof.
  assert (H : String.length "Short text."%string <= MAX_TEXT_LENGTH)
    by (apply Nat.leb_le; vm_compute; reflexivity).
  split; [exact H|].
  exact (proj1 (proj2 (truncateText_spec "Short text.")) H).
Defined.

(** ** Deduplication: idempotence and independence from input order *)

(** *** [trim] is idempotent *)

Lemma ltrim_split (l : list ascii) :
  exists w, l = w ++ ltrim l /\ forallb is_ws w = true.
Proof.
  induction l as [|c r IH]; simpl; [exists []; split; reflexivity|].
  destruct (is_ws c) eqn:E.
  - destruct IH as (w & Hw & Hws). exists (c :: w). simpl. rewrite <- Hw, E. split; [reflexivity|exact Hws].
  - exists []. split; reflexivity.
Qed.

Lemma ltrim_clean (l : list ascii) : starts_clean (ltrim l).
Proof.
  induction l as [|c r IH]; simpl; [exact I|].
  destruct (is_ws c) eqn:E; [exact IH|exact E].
Qed.

Lemma ltrim_of_clean (l : list ascii) : starts_clean l -> ltrim l = l.
Proof. destruct l as [|c r]; simpl; [reflexivity|]. intro H. rewrite H. reflexivity. Qed.

Lemma trim_l_idem (l : list ascii) : trim_l (trim_l l) = trim_l l.
Proof.
  unfold trim_l at 2 3. set (u := ltrim l). set (v := rev (ltrim (rev u))).
  assert (Hu : starts_clean u) by apply ltrim_clean.
  assert (Hv : ltrim v = v).
  { apply ltrim_of_clean.
    destruct (ltrim_split (rev u)) as (w & Hw & _).
    assert (Huv : u = v ++ rev w).
    { unfold v. rewrite <- (rev_involutive u) at 1. rewrite Hw at 1. rewrite rev_app_distr. reflexivity. }
    destruct v as [|c r] eqn:Ev; [exact I|].
    rewrite Huv in Hu. exact Hu. }
  unfold trim_l. rewrite Hv. unfold v at 1. rewrite rev_involutive.
  rewrite (ltrim_of_clean (ltrim (rev u))) by apply ltrim_clean. reflexivity.
Qed.

Lemma trim_idem (s : string) : trim (trim s) = trim s.
Proof.
  unfold trim. rewrite list_ascii_of_string_of_list_ascii, trim_l_idem. reflexivity.
Qed.

Lemma normalize_trim (s : string) : normalize (trim s) = normalize s.
Proof. unfold normalize. rewrite trim_idem. reflexivity. Qed.

(** *** [Array.from(new Set(xs))] keeps exactly the members of [xs] *)

Lemma uniq_from_In (seen xs : list string) (x : string) :
  In x (uniq_from seen xs) <-> In x xs /\ existsb (String.eqb x) seen = false.
Proof.
  revert seen. induction xs as [|y r IH]; intro seen; simpl; [tauto|].
  destruct (existsb (String.eqb y) seen) eqn:Ey.
  - rewrite IH. split.
    + intros [H1 H2]. split; [right; exact H1|exact H2].
    + intros [[<-|H1] H2]; [congruence|split; assumption].
  - simpl. rewrite IH. simpl. split.
    + intros [<-|[H1 H2]]; [split; [left; reflexivity|exact Ey]|].
      apply orb_false_iff in H2 as [_ H2]. split; [right; exact H1|exact H2].
    + intros [[<-|H1] H2]; [left; reflexivity|].
      destruct (String.eqb x y) eqn:Exy.
      * apply String.eqb_eq in Exy. subst. left; reflexivity.
      * right. split; [exact H1|]. exact H2.
Qed.

Lemma set_from_In (xs : list string) (x : string) : In x (set_from xs) <-> In x xs.
Proof. unfold set_from. rewrite uniq_from_In. simpl. tauto. Qed.

Lemma merge_fields (r t : GlossaryTerm) (f : GlossaryTerm -> list string) :
  In f set_fields -> forall x, In x (f (merge_terms r t)) <-> In x (f r) \/ In x (f t).
Proof.
  intros Hf x. unfold set_fields in Hf. simpl in Hf.
  destruct Hf as [<-|[<-|[<-|[<-|[]]]]]; simpl; rewrite set_from_In, in_app_iff; tauto.
Qed.

Lemma trimmed_fields (t : GlossaryTerm) (f : GlossaryTerm -> list string) :
  In f set_fields -> f (with_trimmed_name t) = f t.
Proof.
  intro Hf. unfold set_fields in Hf. simpl in Hf.
  destruct Hf as [<-|[<-|[<-|[<-|[]]]]]; reflexivity.
Qed.

(** *** The [Map] as an association list *)

Lemma map_get_In (m : TermMap) (k : string) (v : GlossaryTerm) :
  map_get m k = Some v -> In (k, v) m.
Proof.
  induction m as [|[k' v'] r IH]; simpl; [discriminate|].
  destruct (String.eqb k k') eqn:E.
  - intro H. injection H as <-. apply String.eqb_eq in E. subst. left; reflexivity.
  - intro H. right. exact (IH H).
Qed.

Lemma map_get_None (m : TermMap) (k : string) :
  map_get m k = None -> ~ In k (map fst m).
Proof.
  induction m as [|[k' v'] r IH]; simpl; [tauto|].
  destruct (String.eqb k k') eqn:E; [discriminate|].
  intros H [Hk|Hk]; [subst; rewrite String.eqb_refl in E; discriminate|exact (IH H Hk)].
Qed.

Lemma map_fst_set (m : TermMap) (k : string) (v : GlossaryTerm) :
  map fst (map_set m k v) =
  match map_get m k with Some _ => map fst m | None => map fst m ++ [k] end.
Proof.
  induction m as [|[k' v'] r IH]; simpl; [reflexivity|].
  destruct (String.eqb k k') eqn:E; simpl; [reflexivity|].
  rewrite IH. destruct (map_get r k); reflexivity.
Qed.

Lemma map_set_In_inv (m : TermMap) (k k' : string) (v v' : GlossaryTerm) :
  NoDup (map fst m) -> In (k', v') (map_set m k v) ->
  (k' = k /\ v' = v) \/ (In (k', v') m /\ k' <> k).
Proof.
  induction m as [|[k0 v0] r IH]; simpl; intros Hnd H.
  - destruct H as [H|[]]. injection H as <- <-. left; split; reflexivity.
  - inversion Hnd as [|? ? Hnin Hnd']. subst.
    destruct (String.eqb k k0) eqn:E.
    + apply String.eqb_eq in E. subst k0. destruct H as [H|H].
      * injection H as <- <-. left; split; reflexivity.
      * right. split; [right; exact H|].
        intro Hk. subst k'. apply Hnin. apply in_map_iff. exists (k, v'). split; [reflexivity|exact H].
    + destruct H as [H|H].
      * injection H as <- <-. right. split; [left; reflexivity|].
        intro Hk. subst. rewrite String.eqb_refl in E. discriminate.
      * destruct (IH Hnd' H) as [H'|[H1 H2]]; [left; exact H'|right; split; [right; exact H1|exact H2]].
Qed.

Lemma map_set_In_new (m : TermMap) (k : string) (v : GlossaryTerm) : In (k, v) (map_set m k v).
Proof.
  induction m as [|[k0 v0] r IH]; simpl; [left; reflexivity|].
  destruct (String.eqb k k0) eqn:E.
  - apply String.eqb_eq in E. subst. left; reflexivity.
  - right. exact IH.
Qed.

Lemma map_set_In_old (m : TermMap) (k k' : string) (v v' : GlossaryTerm) :
  In (k', v') m -> k' <> k -> In (k', v') (map_set m k v).
Proof.
  induction m as [|[k0 v0] r IH]; simpl; [tauto|].
  intros H Hne. destruct (String.eqb k k0) eqn:E.
  - apply String.eqb_eq in E. subst k0. destruct H as [H|H].
    + injection H as -> ->. contradiction.
    + right. exact H.
  - destruct H as [H|H]; [left; exact H|right; exact (IH H Hne)].
Qed.

Lemma map_set_NoDup (m : TermMap) (k : string) (v : GlossaryTerm) :
  NoDup (map fst m) -> NoDup (map fst (map_set m k v)).
Proof.
  intro Hnd. rewrite map_fst_set. destruct (map_get m k) eqn:E; [exact Hnd|].
  apply (Permutation_NoDup (Permutation_cons_append (map fst m) k)).
  constructor; [exact (map_get_None m k E)|exact Hnd].
Qed.

(** *** The invariant of the [for] loop of [deduplicateTerms] *)

Lemma occurs_in_app_other (p : list GlossaryTerm) (t : GlossaryTerm) (k : string) (t' : GlossaryTerm) :
  normalize (gt_term t) <> k -> occurs_in (p ++ [t]) k t' <-> occurs_in p k t'.
Proof.
  intro Hne. unfold occurs_in. rewrite in_app_iff. simpl. split.
  - intros [[H|[<-|[]]] Hk]; [split; assumption|contradiction].
  - intros [H Hk]. split; [left; exact H|exact Hk].
Qed.

Lemma summarizes_app_other (p : list GlossaryTerm) (t : GlossaryTerm) (k : string) (v : GlossaryTerm) :
  normalize (gt_term t) <> k -> summarizes p k v -> summarizes (p ++ [t]) k v.
Proof.
  intros Hne (Hf & (t0 & Ht0 & Hc) & Hb).
  split; [|split].
  - intros f Hin x. rewrite (Hf f Hin x). split.
    + intros (t' & Ho & Hx). exists t'. rewrite occurs_in_app_other by exact Hne. split; assumption.
    + intros (t' & Ho & Hx). rewrite occurs_in_app_other in Ho by exact Hne. exists t'. split; assumption.
  - exists t0. rewrite occurs_in_app_other by exact Hne. split; assumption.
  - intros t' Ho. rewrite occurs_in_app_other in Ho by exact Hne. exact (Hb t' Ho).
Qed.

Lemma dedup_inv_nil : dedup_inv [] [].
Proof.
  constructor; simpl; [constructor|tauto|tauto].
Qed.

Lemma dedup_inv_step (p : list GlossaryTerm) (m : TermMap) (t : GlossaryTerm) :
  dedup_inv p m -> dedup_inv (p ++ [t]) (dedup_step m t).
Proof.
  intros [Hnd He Hc]. unfold dedup_step. set (kt := normalize (gt_term t)).
  destruct (map_get m kt) as [r|] eqn:Eg.
  - (* the key is known: the entry is merged in place *)
    apply map_get_In in Eg as Hr. destruct (He _ _ Hr) as (Hkr & Htr & Hsr).
    constructor.
    + apply map_set_NoDup. exact Hnd.
    + intros k v Hin. destruct (map_set_In_inv _ _ _ _ _ Hnd Hin) as [[-> ->] | [Hin' Hne]].
      * simpl. split; [exact Hkr|split; [exact Htr|]].
        destruct Hsr as (Hf & (t0 & Ht0 & Hc0) & Hb).
        assert (Ho : forall t', occurs_in (p ++ [t]) kt t' <-> occurs_in p kt t' \/ t' = t).
        { intro t'. unfold occurs_in. rewrite in_app_iff. simpl. split.
          - intros [[H|[<-|[]]] Hk]; [left; split; assumption|right; reflexivity].
          - intros [[H Hk] | -> ]; [split; [left; exact H|exact Hk]|split; [right; left; reflexivity|reflexivity]]. }
        split; [|split].
        -- intros f Hin_f x. rewrite (merge_fields r t f Hin_f x), (Hf f Hin_f x). split.
           ++ intros [(t' & Ho' & Hx)|Hx]; [exists t'; rewrite Ho; split; [left; exact Ho'|exact Hx]|].
              exists t. rewrite Ho. split; [right; reflexivity|exact Hx].
           ++ intros (t' & Ho' & Hx). rewrite Ho in Ho'. destruct Ho' as [Ho' | -> ].
              ** left. exists t'. split; assumption.
              ** right. exact Hx.
        -- simpl. destruct (Qlt_le_dec (gt_confidence r) (gt_confidence t)) as [Hlt|Hle].
           ++ exists t. rewrite Ho. split; [right; reflexivity|]. apply Q.max_r. apply Qlt_le_weak. exact Hlt.
           ++ exists t0. rewrite Ho. split; [left; exact Ht0|].
              rewrite (Q.max_l _ _ Hle). exact Hc0.
        -- intros t' Ho'. rewrite Ho in Ho'. simpl. destruct Ho' as [Ho' | -> ].
           ++ apply Qle_trans with (gt_confidence r); [exact (Hb t' Ho')|apply Q.le_max_l].
           ++ apply Q.le_max_r.
      * destruct (He _ _ Hin') as (Hk & Ht & Hs). split; [exact Hk|split; [exact Ht|]].
        apply summarizes_app_other; [intro H; apply Hne; symmetry; exact H|exact Hs].
    + intros t' Hin. apply in_app_iff in Hin as [Hin|[<-|[]]].
      * destruct (Hc t' Hin) as (v & Hv).
        destruct (string_dec (normalize (gt_term t')) kt) as [Heq|Hne].
        -- exists (merge_terms r t). rewrite Heq. apply map_set_In_new.
        -- exists v. apply map_set_In_old; assumption.
      * exists (merge_terms r t). apply map_set_In_new.
  - (* a new key: the trimmed term is appended *)
    assert (Hnone : forall t', In t' p -> normalize (gt_term t') <> kt).
    { intros t' Hin Heq. destruct (Hc t' Hin) as (v & Hv). rewrite Heq in Hv.
      apply (map_get_None m kt Eg). apply in_map_iff. exists (kt, v). split; [reflexivity|exact Hv]. }
    assert (Ho : forall t', occurs_in (p ++ [t]) kt t' <-> t' = t).
    { intro t'. unfold occurs_in. rewrite in_app_iff. simpl. split.
      - intros [[H|[<-|[]]] Hk]; [exfalso; exact (Hnone t' H Hk)|reflexivity].
      - intros ->. split; [right; left; reflexivity|reflexivity]. }
    constructor.
    + apply map_set_NoDup. exact Hnd.
    + intros k v Hin. destruct (map_set_In_inv _ _ _ _ _ Hnd Hin) as [[-> ->] | [Hin' Hne]].
      * simpl. split; [unfold kt; symmetry; apply normalize_trim|split; [apply trim_idem|]].
        split; [|split].
        -- intros f Hin_f x. rewrite (trimmed_fields t f Hin_f). split.
           ++ intro Hx. exists t. rewrite Ho. split; [reflexivity|exact Hx].
           ++ intros (t' & Ho' & Hx). rewrite Ho in Ho'. subst t'. exact Hx.
        -- exists t. rewrite Ho. split; [reflexivity|apply Qeq_refl].
        -- intros t' Ho'. rewrite Ho in Ho'. subst t'. apply Qle_refl.
      * destruct (He _ _ Hin') as (Hk & Ht & Hs). split; [exact Hk|split; [exact Ht|]].
        apply summarizes_app_other; [intro H; apply Hne; symmetry; exact H|exact Hs].
    + intros t' Hin. apply in_app_iff in Hin as [Hin|[<-|[]]].
      * destruct (Hc t' Hin) as (v & Hv). exists v. apply map_set_In_old; [exact Hv|exact (Hnone t' Hin)].
      * exists (with_trimmed_name t). apply map_set_In_new.
Qed.

Lemma dedup_inv_fold (l p : list GlossaryTerm) (m : TermMap) :
  dedup_inv p m -> dedup_inv (p ++ l) (fold_left dedup_step l m).
Proof.
  revert p m. induction l as [|t r IH]; intros p m H; simpl.
  - rewrite app_nil_r. exact H.
  - replace (p ++ t :: r) with ((p ++ [t]) ++ r) by (rewrite <- app_assoc; reflexivity).
    apply IH. apply dedup_inv_step. exact H.
Qed.

Lemma dedup_inv_terms (l : list GlossaryTerm) : dedup_inv l (fold_left dedup_step l []).
Proof. exact (dedup_inv_fold l [] [] dedup_inv_nil). Qed.

(** *** The stable sort by decreasing confidence *)

Lemma insert_by_conf_perm (x : GlossaryTerm) (l : list GlossaryTerm) :
  Permutation (insert_by_conf x l) (x :: l).
Proof.
  induction l as [|y r IH]; simpl; [reflexivity|].
  destruct (Qltb (gt_confidence x) (gt_confidence y)); [|reflexivity].
  rewrite IH. apply perm_swap.
Qed.

Lemma sort_by_conf_perm (l : list GlossaryTerm) : Permutation (sort_by_conf l) l.
Proof.
  induction l as [|x r IH]; simpl; [reflexivity|].
  unfold sort_by_conf in IH. rewrite insert_by_conf_perm, IH. reflexivity.
Qed.

Lemma desc_sorted_cons (y : GlossaryTerm) (l : list GlossaryTerm) :
  desc_sorted (y :: l) <->
  (forall z, hd_error l = Some z -> (gt_confidence z <= gt_confidence y)%Q) /\ desc_sorted l.
Proof.
  destruct l as [|z r]; simpl.
  - split; [intros _; split; [discriminate|exact I]|intros _; exact I].
  - split.
    + intros [H1 H2]. split; [intros z' Hz; injection Hz as <-; exact H1|exact H2].
    + intros [H1 H2]. split; [exact (H1 z eq_refl)|exact H2].
Qed.

Lemma insert_by_conf_hd (x : GlossaryTerm) (l : list GlossaryTerm) :
  hd_error (insert_by_conf x l) = Some x \/ hd_error (insert_by_conf x l) = hd_error l.
Proof.
  destruct l as [|y r]; simpl; [left; reflexivity|].
  destruct (Qltb (gt_confidence x) (gt_confidence y)); [right|left]; reflexivity.
Qed.

Lemma insert_by_conf_sorted (x : GlossaryTerm) (l : list GlossaryTerm) :
  desc_sorted l -> desc_sorted (insert_by_conf x l).
Proof.
  induction l as [|y r IH]; simpl; [intros _; exact I|].
  intro Hs. destruct (Qltb (gt_confidence x) (gt_confidence y)) eqn:E.
  - apply Qltb_true_iff in E. apply desc_sorted_cons in Hs as [Hhd Hr].
    apply desc_sorted_cons. split; [|exact (IH Hr)].
    intros z Hz. destruct (insert_by_conf_hd x r) as [H|H]; rewrite H in Hz.
    + injection Hz as <-. apply Qlt_le_weak. exact E.
    + exact (Hhd z Hz).
  - unfold Qltb in E. apply negb_false_iff, Qle_bool_iff in E.
    split; [exact E|exact Hs].
Qed.

Lemma sort_by_conf_sorted (l : list GlossaryTerm) : desc_sorted (sort_by_conf l).
Proof.
  induction l as [|x r IH]; simpl; [exact I|].
  apply insert_by_conf_sorted. exact IH.
Qed.

Lemma sort_by_conf_of_sorted (l : list GlossaryTerm) : desc_sorted l -> sort_by_conf l = l.
Proof.
  induction l as [|x r IH]; simpl; [reflexivity|].
  intro Hs. apply desc_sorted_cons in Hs as [Hhd Hr].
  change (fold_right insert_by_conf [] r) with (sort_by_conf r). rewrite (IH Hr).
  destruct r as [|y r']; simpl; [reflexivity|].
  destruct (Qltb (gt_confidence x) (gt_confidence y)) eqn:E; [|reflexivity].
  apply Qltb_true_iff in E. exfalso. apply (Qlt_not_le _ _ E). exact (Hhd y eq_refl).
Qed.

(** *** The result of [deduplicateTerms] *)

Lemma deduplicateTerms_In (l : list GlossaryTerm) (r : GlossaryTerm) :
  In r (deduplicateTerms l) <-> exists k, In (k, r) (fold_left dedup_step l []).
Proof.
  unfold deduplicateTerms. split.
  - intro H. apply (Permutation_in _ (sort_by_conf_perm _)) in H.
    apply in_map_iff in H as ([k v] & <- & H). exists k. exact H.
  - intros (k & H). apply (Permutation_in _ (Permutation_sym (sort_by_conf_perm _))).
    apply in_map_iff. exists (k, r). split; [reflexivity|exact H].
Qed.

Lemma deduplicateTerms_entry (l : list GlossaryTerm) (r : GlossaryTerm) :
  In r (deduplicateTerms l) ->
  trim (gt_term r) = gt_term r /\ summarizes l (normalize (gt_term r)) r.
Proof.
  intro H. apply deduplicateTerms_In in H as (k & H).
  destruct (inv_entry _ _ (dedup_inv_terms l) k r H) as (-> & Ht & Hs).
  split; assumption.
Qed.

Lemma deduplicateTerms_NoDup (l : list GlossaryTerm) :
  NoDup (map (fun r => normalize (gt_term r)) (deduplicateTerms l)).
Proof.
  unfold deduplicateTerms.
  apply (Permutation_NoDup (Permutation_sym (Permutation_map _ (sort_by_conf_perm _)))).
  destruct (dedup_inv_terms l) as [Hnd He _].
  rewrite map_map. erewrite map_ext_in; [exact Hnd|].
  intros [k v] Hin. simpl. symmetry. exact (proj1 (He k v Hin)).
Qed.

Lemma deduplicateTerms_keys (l : list GlossaryTerm) (k : string) :
  (exists r, In r (deduplicateTerms l) /\ normalize (gt_term r) = k) <->
  (exists t, In t l /\ normalize (gt_term t) = k).
Proof.
  split.
  - intros (r & Hr & <-). destruct (deduplicateTerms_entry l r Hr) as (_ & _ & (t & Ht & _) & _).
    exists t. exact Ht.
  - intros (t & Ht & <-). destruct (dedup_inv_terms l) as [_ He Hc].
    destruct (Hc t Ht) as (v & Hv). exists v. split.
    + apply deduplicateTerms_In. exists (normalize (gt_term t)). exact Hv.
    + symmetry. exact (proj1 (He _ _ Hv)).
Qed.

Lemma summarizes_perm (p q : list GlossaryTerm) (k : string) (r : GlossaryTerm) :
  Permutation p q -> summarizes p k r -> summarizes q k r.
Proof.
  intros Hp (Hf & (t0 & Ht0 & Hc0) & Hb).
  assert (Ho : forall t, occurs_in p k t <-> occurs_in q k t).
  { intro t. unfold occurs_in. split; intros [H1 H2]; split; try exact H2.
    - exact (Permutation_in _ Hp H1).
    - exact (Permutation_in _ (Permutation_sym Hp) H1). }
  split; [|split].
  - intros f Hin x. rewrite (Hf f Hin x). split; intros (t & H1 & H2); exists t; rewrite Ho in *; split; assumption.
  - exists t0. rewrite <- Ho. split; assumption.
  - intros t Ht. rewrite <- Ho in Ht. exact (Hb t Ht).
Qed.

Lemma summarizes_unique (p : list GlossaryTerm) (k : string) (a b : GlossaryTerm) :
  summarizes p k a -> summarizes p k b -> same_view a b.
Proof.
  intros (Hfa & (ta & Hta & Hca) & Hba) (Hfb & (tb & Htb & Hcb) & Hbb). split.
  - intros f Hin x. rewrite (Hfa f Hin x), (Hfb f Hin x). reflexivity.
  - apply Qle_antisym.
    + rewrite Hca. exact (Hbb ta Hta).
    + rewrite Hcb. exact (Hba tb Htb).
Qed.

(** *** On an already deduplicated list the loop only re-inserts *)

Lemma map_get_absent (m : TermMap) (k : string) : ~ In k (map fst m) -> map_get m k = None.
Proof.
  induction m as [|[k' v'] r IH]; simpl; [reflexivity|].
  intro H. destruct (String.eqb k k') eqn:E.
  - apply String.eqb_eq in E. subst. exfalso. apply H. left; reflexivity.
  - apply IH. intro H'. apply H. right. exact H'.
Qed.

Lemma map_set_absent (m : TermMap) (k : string) (v : GlossaryTerm) :
  map_get m k = None -> map_set m k v = m ++ [(k, v)].
Proof.
  induction m as [|[k' v'] r IH]; simpl; [reflexivity|].
  destruct (String.eqb k k'); [discriminate|]. intro H. rewrite (IH H). reflexivity.
Qed.

Lemma with_trimmed_name_id (t : GlossaryTerm) : trim (gt_term t) = gt_term t -> with_trimmed_name t = t.
Proof. destruct t. unfold with_trimmed_name. simpl. intros ->. reflexivity. Qed.

Lemma dedup_fold_fresh (q : list GlossaryTerm) (m : TermMap) :
  NoDup (map (fun r => normalize (gt_term r)) q) ->
  (forall v, In v q -> trim (gt_term v) = gt_term v) ->
  (forall v, In v q -> ~ In (normalize (gt_term v)) (map fst m)) ->
  fold_left dedup_step q m = m ++ map (fun v => (normalize (gt_term v), v)) q.
Proof.
  revert m. induction q as [|v r IH]; intros m Hnd Ht Hf; simpl; [rewrite app_nil_r; reflexivity|].
  inversion Hnd as [|? ? Hnin Hnd']. subst.
  unfold dedup_step at 2.
  assert (Hg : map_get m (normalize (gt_term v)) = None).
  { apply map_get_absent. apply Hf. left; reflexivity. }
  rewrite Hg, (map_set_absent _ _ _ Hg), (with_trimmed_name_id v (Ht v (or_introl eq_refl))).
  rewrite IH.
  - rewrite <- app_assoc. reflexivity.
  - exact Hnd'.
  - intros w Hw. apply Ht. right. exact Hw.
  - intros w Hw. rewrite map_app, in_app_iff. simpl. intros [H|[H|[]]].
    + exact (Hf w (or_intror Hw) H).
    + apply Hnin. rewrite H. apply in_map_iff. exists w. split; [reflexivity|exact Hw].
Qed.

Lemma map_snd_pairs (q : list GlossaryTerm) :
  map snd (map (fun v => (normalize (gt_term v), v)) q) = q.
Proof. rewrite map_map. simpl. apply map_id. Qed.

(** Claim C6: [deduplicateTerms] is idempotent (a second run returns its
    output unchanged), and for two orderings of the same input the outputs
    have the same normalized names and, name by name, the same set-valued
    fields regarded as sets and the same (maximal) confidence. *)
Theorem deduplicateTerms_idempotent_and_order_independent (l1 l2 : list GlossaryTerm)
  (Hperm : Permutation l1 l2) :
  deduplicateTerms (deduplicateTerms l1) = deduplicateTerms l1 /\
  (forall k, (exists r1, In r1 (deduplicateTerms l1) /\ normalize (gt_term r1) = k) <->
             (exists r2, In r2 (deduplicateTerms l2) /\ normalize (gt_term r2) = k)) /\
  (forall r1 r2, In r1 (deduplicateTerms l1) -> In r2 (deduplicateTerms l2) ->
     normalize (gt_term r1) = normalize (gt_term r2) -> same_view r1 r2).
Proof.
  split; [|split].
  - set (o := deduplicateTerms l1). unfold deduplicateTerms at 1.
    rewrite (dedup_fold_fresh o []).
    + simpl. rewrite map_snd_pairs. apply sort_by_conf_of_sorted. apply sort_by_conf_sorted.
    + apply deduplicateTerms_NoDup.
    + intros v Hv. exact (proj1 (deduplicateTerms_entry l1 v Hv)).
    + intros v _ [].
  - intro k. rewrite !deduplicateTerms_keys. split; intros (t & Ht & Hk); exists t; split; try exact Hk.
    + exact (Permutation_in _ Hperm Ht).
    + exact (Permutation_in _ (Permutation_sym Hperm) Ht).
  - intros r1 r2 H1 H2 Hk.
    destruct (deduplicateTerms_entry l1 r1 H1) as (_ & Hs1).
    destruct (deduplicateTerms_entry l2 r2 H2) as (_ & Hs2).
    apply (summarizes_perm _ _ _ _ (Permutation_sym Hperm)) in Hs2.
    rewrite <- Hk in Hs2. exact (summarizes_unique _ _ _ _ Hs1 Hs2).
Qed.

Lemma deduplicateTerms_idempotent_and_order_independent_witness :
  Permutation dedup_ex1 dedup_ex2 /\
  deduplicateTerms (deduplicateTerms dedup_ex1) = deduplicateTerms dedup_ex1 /\
  (forall k, (exists r1, In r1 (deduplicateTerms dedup_ex1) /\ normalize (gt_term r1) = k) <->
             (exists r2, In r2 (deduplicateTerms dedup_ex2) /\ normalize (gt_term r2) = k)) /\
  (forall r1 r2, In r1 (deduplicateTerms dedup_ex1) -> In r2 (deduplicateTerms dedup_ex2) ->
     normalize (gt_term r1) = normalize (gt_term r2) -> same_view r1 r2).
Proof.
  assert (Hp : Permutation dedup_ex1 dedup_ex2)
    by (unfold dedup_ex2; simpl; exact (Permutation_sym (Permutation_cons_append [_; _] _))).
  split; [exact Hp|].
  exact (deduplicateTerms_idempotent_and_order_independent dedup_ex1 dedup_ex2 Hp).
Defined.

(* ======================================================================== *)
(** * Further properties of the pipeline *)

(** ** Type detection *)

(** [detectDataType] looks at the first 50 values only: dropping the
    others never changes the detected type. *)
Theorem detectDataType_first_50 (date_parses : string -> bool) (values : list string) :
  detectDataType date_parses (firstn 50 values) = detectDataType date_parses values.
Proof.
  assert (Hs : sample_size (firstn 50 values) = sample_size values).
  { unfold sample_size. rewrite length_firstn. lia. }
  assert (Hc : sample_scores date_parses (firstn 50 values) = sample_scores date_parses values).
  { unfold sample_scores. rewrite Hs, firstn_firstn.
    replace (Nat.min (sample_size values) 50) with (sample_size values)
      by (unfold sample_size; lia).
    reflexivity. }
  unfold detectDataType. destruct values as [|x r]; [reflexivity|].
  change (firstn 50 (x :: r)) with (x :: firstn 49 r) in *. rewrite Hs, Hc. reflexivity.
Qed.

Lemma bump_date (d : DataType) (s : Scores) :
  d <> DDate -> sc_date (bump d s) = sc_date s.
Proof. intro H. destruct s; destruct d; simpl; congruence. Qed.

Lemma score_value_date_short (date_parses : string -> bool) (s : Scores) (v : string) :
  String.length (trim v) <= 6 -> sc_date (score_value date_parses s v) = sc_date s.
Proof.
  intro Hlen. unfold score_value.
  repeat match goal with
         | |- context [if ?b then _ else _] =>
             destruct b eqn:?; [try (apply bump_date; discriminate)|]
         end.
  - apply andb_true_iff in Heqb5 as [_ H]. apply Nat.ltb_lt in H. lia.
  - reflexivity.
Qed.

Lemma fold_score_date_short (date_parses : string -> bool) (l : list string) (s : Scores) :
  (forall v, In v l -> String.length (trim v) <= 6) ->
  sc_date (fold_left (score_value date_parses) l s) = sc_date s.
Proof.
  revert s. induction l as [|v r IH]; intros s H; simpl; [reflexivity|].
  rewrite IH by (intros w Hw; apply H; right; exact Hw).
  apply score_value_date_short. apply H. left; reflexivity.
Qed.

(** A column whose values all have at most 6 characters once trimmed is
    never detected as a date column. *)
Theorem detectDataType_short_not_date (date_parses : string -> bool) (values : list string)
  (Hshort : forall v, In v values -> String.length (trim v) <= 6) :
  detectDataType date_parses values <> DDate.
Proof.
  unfold detectDataType. destruct values as [|x r] eqn:Ev; [discriminate|].
  rewrite <- Ev in Hshort |- *.
  assert (Hd : sc_date (sample_scores date_parses values) = 0).
  { unfold sample_scores. rewrite fold_score_date_short; [reflexivity|].
    intros v Hv. apply Hshort. exact (In_firstn_In _ _ _ Hv). }
  assert (Hss : 1 <= sample_size values) by (unfold sample_size; rewrite Ev; simpl; lia).
  set (sc := sample_scores date_parses values) in *.
  set (m := max_score sc).
  destruct (Qltb (Q_of_nat m) (Q_of_nat (sample_size values) * (6 # 10))) eqn:E; [discriminate|].
  assert (Hm : m <> 0).
  { intro H0. rewrite H0 in E. apply negb_false_iff in E. apply Qle_bool_iff in E.
    unfold Qle, Q_of_nat in E. simpl in E. lia. }
  unfold score_entries. rewrite Hd. simpl.
  repeat match goal with
         | |- context [?a =? ?b] => destruct (a =? b) eqn:?
         end; try discriminate.
  all: destruct m; [contradiction|discriminate].
Qed.

(** ** Column profiling *)

Lemma uniq_from_length (seen xs : list string) : length (uniq_from seen xs) <= length xs.
Proof.
  revert seen. induction xs as [|y r IH]; intro seen; simpl; [lia|].
  destruct (existsb (String.eqb y) seen); simpl; [specialize (IH seen)|specialize (IH (y :: seen))]; lia.
Qed.

Lemma uniq_from_NoDup (seen xs : list string) : NoDup (uniq_from seen xs).
Proof.
  revert seen. induction xs as [|y r IH]; intro seen; simpl; [constructor|].
  destruct (existsb (String.eqb y) seen); [apply IH|].
  constructor; [|apply IH].
  rewrite uniq_from_In. intros [_ H]. simpl in H. rewrite String.eqb_refl in H. discriminate.
Qed.

Lemma NoDup_firstn_of {A} (n : nat) (l : list A) : NoDup l -> NoDup (firstn n l).
Proof.
  intro H. rewrite <- (firstn_skipn n l) in H. exact (NoDup_app_remove_r _ _ H).
Qed.

(** Every analysed row has a null cell in the column, a non-blank value, or
    neither, never both. *)
Lemma null_and_values_le (name : string) (rows : list Row) :
  length (filter is_null_cell (map (fun row => get_cell row name) rows)) +
  length (filter (fun v => negb (String.eqb (trim v) "")) (map (fun row => cell_string (get_cell row name)) rows))
  <= length rows.
Proof.
  induction rows as [|row r IH]; simpl; [lia|].
  destruct (get_cell row name) as [|s|s] eqn:Ec; simpl.
  - lia.
  - destruct (String.eqb s "") eqn:Es; simpl.
    + apply String.eqb_eq in Es. subst s. simpl. lia.
    + destruct (negb (String.eqb (trim s) "")); simpl; lia.
  - destruct (negb (String.eqb (trim s) "")); simpl; lia.
Qed.

(** Every column preview counts at most as many null cells plus distinct
    values as there are analysed rows (at most 1000); its samples are
    distinct non-blank values, as many as [sampleCount] allows. *)
Theorem profileColumns_column_bounds (date_parses : string -> bool)
  (js_Number : string -> option jsnum) (rows : list Row) (sampleCount : nat) (c : ColumnPreview)
  (Hc : In c (profileColumns date_parses js_Number rows sampleCount)) :
  cp_nullCount c + cp_uniqueCount c <= Nat.min (length rows) MAX_ROWS_TO_ANALYZE /\
  length (cp_samples c) = Nat.min sampleCount (cp_uniqueCount c) /\
  NoDup (cp_samples c) /\
  (forall s, In s (cp_samples c) -> trim s <> ""%string).
Proof.
  unfold profileColumns in Hc. destruct rows as [|row0 rest] eqn:Er; [destruct Hc|].
  rewrite <- Er in Hc |- *.
  apply in_map_iff in Hc as (name & <- & _).
  unfold profile_column. cbn [cp_nullCount cp_uniqueCount cp_samples].
  set (ar := firstn MAX_ROWS_TO_ANALYZE rows).
  set (values := filter (fun v => negb (String.eqb (trim v) "")) (map (fun row => cell_string (get_cell row name)) ar)).
  split; [|split; [|split]].
  - pose proof (null_and_values_le name ar) as H1. fold values in H1.
    pose proof (uniq_from_length [] values) as H2. unfold set_from.
    assert (Hl : length ar = Nat.min (length rows) MAX_ROWS_TO_ANALYZE)
      by (unfold ar; rewrite length_firstn; lia).
    lia.
  - rewrite length_firstn. reflexivity.
  - apply NoDup_firstn_of. apply uniq_from_NoDup.
  - intros s Hs. apply In_firstn_In in Hs. apply (proj1 (set_from_In _ _)) in Hs.
    unfold values in Hs. apply filter_In in Hs as [_ Hs].
    apply negb_true_iff, String.eqb_neq in Hs. exact Hs.
Qed.

(** The column previews depend on the first 1000 rows only, and there is
    one preview per key of the first row, named by the trimmed key. *)
Theorem profileColumns_first_rows (date_parses : string -> bool)
  (js_Number : string -> option jsnum) (rows : list Row) (sampleCount : nat) :
  profileColumns date_parses js_Number (firstn MAX_ROWS_TO_ANALYZE rows) sampleCount =
  profileColumns date_parses js_Number rows sampleCount /\
  map cp_name (profileColumns date_parses js_Number rows sampleCount) =
  match rows with [] => [] | row0 :: _ => map (fun kv => trim (fst kv)) row0 end.
Proof.
  split.
  - destruct rows as [|row0 rest]; [reflexivity|].
    unfold profileColumns. change (firstn MAX_ROWS_TO_ANALYZE (row0 :: rest))
      with (row0 :: firstn (MAX_ROWS_TO_ANALYZE - 1) rest).
    change (row0 :: firstn (MAX_ROWS_TO_ANALYZE - 1) rest)
      with (firstn MAX_ROWS_TO_ANALYZE (row0 :: rest)).
    rewrite firstn_firstn, Nat.min_id. reflexivity.
  - destruct rows as [|row0 rest]; [reflexivity|].
    unfold profileColumns. rewrite map_map, map_map. reflexivity.
Qed.


(** ** The file-processing orchestrator *)

Lemma truncateText_length_le (text : string) (m : nat) :
  String.length (truncateText text m) <= m + 3.
Proof.
  destruct (truncateText_cases text m) as [Hshort Hlong].
  destruct (Nat.le_gt_cases (String.length text) m) as [Hle|Hgt].
  - rewrite (Hshort Hle). lia.
  - destruct (Hlong Hgt) as [H1 H2].
    destruct (Z.lt_ge_cases (4 * Z.of_nat m) (5 * lastIndexOf_dot (substring 0 m text))) as [Hz|Hz].
    + destruct (H1 Hz) as [_ H]. lia.
    + destruct (H2 Hz) as [_ H]. lia.
Qed.

Lemma readUnstructured_inl (pdf_text : Buffer -> JsError + string) (utf8 : Buffer -> string)
  (buffer : Buffer) (filename mimetype : string) (e : JsError) :
  readUnstructured pdf_text utf8 buffer filename mimetype = inl e ->
  (ends_with (toLowerCase filename) ".pdf" || includes mimetype "pdf") = true /\
  exists e', pdf_text buffer = inl e'.
Proof.
  unfold readUnstructured.
  destruct (ends_with (toLowerCase filename) ".pdf" || includes mimetype "pdf"); [|discriminate].
  destruct (pdf_text buffer) as [e'|t]; [|discriminate].
  intros _. split; [reflexivity|exists e'; reflexivity].
Qed.

Lemma readUnstructured_inr (pdf_text : Buffer -> JsError + string) (utf8 : Buffer -> string)
  (buffer : Buffer) (filename mimetype : string) (text : string) :
  readUnstructured pdf_text utf8 buffer filename mimetype = inr text ->
  String.length text <= MAX_TEXT_LENGTH + 3.
Proof.
  unfold readUnstructured.
  destruct (ends_with (toLowerCase filename) ".pdf" || includes mimetype "pdf").
  - destruct (pdf_text buffer) as [e'|t]; [discriminate|].
    intro H. injection H as <-. apply truncateText_length_le.
  - intro H. injection H as <-. apply truncateText_length_le.
Qed.

(** [processFile] fails only on a file over the size limit, or on a file
    it reads as a PDF whose text extraction fails: a parse error of a
    tabular file never makes it fail by itself. *)
Theorem processFile_failure_cases (date_parses : string -> bool)
  (js_Number : string -> option jsnum) (csv_parse : string -> Buffer -> JsError + list Row)
  (json_parse : Buffer -> JsError + JsonTop) (xlsx_rows : Buffer -> JsError + list Row)
  (pdf_text : Buffer -> JsError + string) (utf8 : Buffer -> string)
  (buf : Buffer) (meta : FileMetadata) (e : JsError)
  (Hfail : processFile date_parses js_Number csv_parse json_parse xlsx_rows pdf_text utf8 buf meta
           = inl e) :
  (MAX_FILE_SIZE < fm_size meta)%N \/
  ((ends_with (toLowerCase (fm_filename meta)) ".pdf" || includes (fm_mimetype meta) "pdf") = true /\
   exists e', pdf_text buf = inl e').
Proof.
  unfold processFile in Hfail.
  destruct (MAX_FILE_SIZE <? fm_size meta)%N eqn:Es; [left; apply N.ltb_lt; exact Es|right].
  destruct (looksTabular (fm_filename meta) (fm_mimetype meta)).
  - destruct (tabular_try date_parses js_Number csv_parse json_parse xlsx_rows buf (fm_filename meta))
      as [err|[rows cps]]; [|discriminate].
    destruct (readUnstructured pdf_text utf8 buf (fm_filename meta) (fm_mimetype meta)) eqn:Er;
      [|discriminate].
    exact (readUnstructured_inl _ _ _ _ _ _ Er).
  - destruct (readUnstructured pdf_text utf8 buf (fm_filename meta) (fm_mimetype meta)) eqn:Er;
      [|discriminate].
    exact (readUnstructured_inl _ _ _ _ _ _ Er).
Qed.

(** The text [processFile] returns is at most 100003 characters long, and
    it is empty whenever columns were profiled. *)
Theorem processFile_text_bounded (date_parses : string -> bool)
  (js_Number : string -> option jsnum) (csv_parse : string -> Buffer -> JsError + list Row)
  (json_parse : Buffer -> JsError + JsonTop) (xlsx_rows : Buffer -> JsError + list Row)
  (pdf_text : Buffer -> JsError + string) (utf8 : Buffer -> string)
  (buf : Buffer) (meta : FileMetadata) (pf : ProcessedFile)
  (Hok : processFile date_parses js_Number csv_parse json_parse xlsx_rows pdf_text utf8 buf meta
         = inr pf) :
  String.length (pf_unstructuredText pf) <= MAX_TEXT_LENGTH + 3 /\
  (pf_columnPreview pf <> [] -> pf_unstructuredText pf = ""%string).
Proof.
  unfold processFile in Hok.
  destruct (MAX_FILE_SIZE <? fm_size meta)%N; [discriminate|].
  destruct (looksTabular (fm_filename meta) (fm_mimetype meta)).
  - destruct (tabular_try date_parses js_Number csv_parse json_parse xlsx_rows buf (fm_filename meta))
      as [err|[rows cps]].
    + destruct (readUnstructured pdf_text utf8 buf (fm_filename meta) (fm_mimetype meta)) as [e|t] eqn:Er;
        [discriminate|].
      injection Hok as <-. cbn [pf_unstructuredText pf_columnPreview]. split; [exact (readUnstructured_inr _ _ _ _ _ _ Er)|].
      intro H. contradiction.
    + injection Hok as <-. cbn [pf_unstructuredText pf_columnPreview]. split; [apply Nat.le_0_l|reflexivity].
  - destruct (readUnstructured pdf_text utf8 buf (fm_filename meta) (fm_mimetype meta)) as [e|t] eqn:Er;
      [discriminate|].
    injection Hok as <-. cbn [pf_unstructuredText pf_columnPreview]. split; [exact (readUnstructured_inr _ _ _ _ _ _ Er)|].
    intro H. contradiction.
Qed.

(** ** Term deduplication *)

(** The output of [deduplicateTerms] is sorted by non-increasing
    confidence, has one record per normalized name, keeps every normalized
    name of the input, has trimmed names and is never longer than the input. *)
Theorem deduplicateTerms_output_shape (l : list GlossaryTerm) :
  desc_sorted (deduplicateTerms l) /\
  NoDup (map (fun r => normalize (gt_term r)) (deduplicateTerms l)) /\
  (forall t, In t l -> exists r, In r (deduplicateTerms l) /\
                                 normalize (gt_term r) = normalize (gt_term t)) /\
  (forall r, In r (deduplicateTerms l) -> trim (gt_term r) = gt_term r) /\
  length (deduplicateTerms l) <= length l.
Proof.
  split; [unfold deduplicateTerms; apply sort_by_conf_sorted|].
  split; [apply deduplicateTerms_NoDup|].
  split.
  { intros t Ht. apply (proj2 (deduplicateTerms_keys l (normalize (gt_term t)))).
    exists t. split; [exact Ht|reflexivity]. }
  split; [intros r Hr; exact (proj1 (deduplicateTerms_entry l r Hr))|].
  rewrite <- (length_map (fun r => normalize (gt_term r)) (deduplicateTerms l)).
  rewrite <- (length_map (fun r => normalize (gt_term r)) l).
  apply NoDup_incl_length; [apply deduplicateTerms_NoDup|].
  intros k Hk. apply in_map_iff in Hk as (r & Hrk & Hr).
  destruct (proj1 (deduplicateTerms_keys l k) (ex_intro _ r (conj Hr Hrk))) as (t & Ht & Htk).
  apply in_map_iff. exists t. split; [exact Htk|exact Ht].
Qed.

(** ** The retrying model call *)

Lemma retry_from_success (Parsed : Type) (call : nat -> JsError + Parsed) (p : Parsed) :
  forall d a le rem,
  (forall j, a <= j < a + d -> exists e, call j = inl e) ->
  call (a + d) = inr p -> a + d <= MAX_RETRIES -> d < rem ->
  retry_from Parsed call a rem le =
  (flat_map (fun j => [ECall j; ESleep (RETRY_DELAY * 2 ^ (j - 1))]) (seq a d) ++ [ECall (a + d)],
   inr p).
Proof.
  induction d as [|d IH]; intros a le rem Hf Hok Hmax Hrem.
  - destruct rem as [|rem]; [lia|]. rewrite Nat.add_0_r in Hok |- *.
    simpl. rewrite Hok. reflexivity.
  - destruct rem as [|rem]; [lia|].
    destruct (Hf a) as [e He]; [lia|].
    simpl. rewrite He.
    assert (Hlt : (a <? MAX_RETRIES) = true) by (apply Nat.ltb_lt; lia).
    rewrite Hlt.
    rewrite (IH (S a) (Some e) rem).
    + simpl. rewrite Nat.add_succ_r. reflexivity.
    + intros j Hj. apply Hf. lia.
    + replace (S a + d) with (a + S d) by lia. exact Hok.
    + lia.
    + lia.
Qed.

(** If attempt [k] (at most the third) is the first to succeed, the model
    is called [k] times, attempt [j < k] is followed by a delay of
    [1000 * 2^(j-1)] ms, and the result of attempt [k] is returned. *)
Theorem extractTermsWithRetry_first_success (Parsed : Type) (call : nat -> JsError + Parsed)
  (k : nat) (p : Parsed) (Hk : 1 <= k <= MAX_RETRIES)
  (Hfail : forall j, 1 <= j < k -> exists e, call j = inl e) (Hok : call k = inr p) :
  extractTermsWithRetry Parsed call =
  (flat_map (fun j => [ECall j; ESleep (RETRY_DELAY * 2 ^ (j - 1))]) (seq 1 (k - 1)) ++ [ECall k],
   inr p).
Proof.
  unfold extractTermsWithRetry.
  pose proof (retry_from_success Parsed call p (k - 1) 1 None MAX_RETRIES) as H.
  replace (1 + (k - 1)) with k in H by lia.
  apply H.
  - intros j Hj. apply Hfail. lia.
  - exact Hok.
  - exact (proj2 Hk).
  - unfold MAX_RETRIES in *. lia.
Qed.

Lemma retry_from_counts (Parsed : Type) (call : nat -> JsError + Parsed) :
  forall rem a le, 1 <= rem -> a + rem = S MAX_RETRIES ->
  length (filter is_call (fst (retry_from Parsed call a rem le))) =
    S (length (filter is_sleep (fst (retry_from Parsed call a rem le)))) /\
  length (filter is_call (fst (retry_from Parsed call a rem le))) <= rem.
Proof.
  induction rem as [|rem IH]; intros a le H1 Ha; [lia|].
  simpl. destruct (call a) as [e|x].
  - destruct (retry_from Parsed call (S a) rem (Some e)) as [evs r] eqn:E.
    destruct rem as [|rem'].
    + simpl in E. injection E as <- _.
      assert (Hge : (a <? MAX_RETRIES) = false) by (apply Nat.ltb_ge; unfold MAX_RETRIES in *; lia).
      rewrite Hge. simpl. lia.
    + assert (Hlt : (a <? MAX_RETRIES) = true) by (apply Nat.ltb_lt; unfold MAX_RETRIES in *; lia).
      rewrite Hlt.
      destruct (IH (S a) (Some e)) as [Hc Hb]; [lia|lia|].
      rewrite E in Hc, Hb. simpl in Hc, Hb |- *. lia.
  - simpl. lia.
Qed.

(** Every run of [extractTermsWithRetry] calls the model at least once and
    at most [MAX_RETRIES] times, and sleeps exactly once less than it calls:
    there is a delay between consecutive attempts and none after the last. *)
Theorem extractTermsWithRetry_call_count (Parsed : Type) (call : nat -> JsError + Parsed) :
  let evs := fst (extractTermsWithRetry Parsed call) in
  1 <= length (filter is_call evs) <= MAX_RETRIES /\
  length (filter is_call evs) = S (length (filter is_sleep evs)).
Proof.
  cbv zeta. unfold extractTermsWithRetry.
  destruct (retry_from_counts Parsed call MAX_RETRIES 1 None) as [Hc Hb];
    [unfold MAX_RETRIES; lia|reflexivity|].
  split; [split|]; lia.
Qed.

(** ** The background processor *)

(** A run of [processFileInBackground] on a file that is not in flight
    ends either with the status [processed], written after the extraction
    and both saves, and resolves; or with the status [failed] written last,
    and then the outcome of that status write is the outcome of the run: the
    errors of the steps themselves are swallowed. *)
Theorem processFileInBackground_outcome (init_outcome : JsError + unit)
  (status_outcome : string -> JsError + unit) (download_outcome : string -> JsError + Buffer)
  (metadata_outcome : string -> option FileMetadata)
  (extract_outcome : Buffer -> FileMetadata -> JsError + (nat * nat))
  (save_terms_outcome : JsError + unit) (save_rules_outcome : JsError + nat)
  (fileId storagePath : string) (s : BgState)
  (Hfree : set_has fileId (processingQueue s) = false) :
  let run := processFileInBackground init_outcome status_outcome download_outcome
               metadata_outcome extract_outcome save_terms_outcome save_rules_outcome
               fileId storagePath s in
  exists rest,
    (effects (fst run) = EvStatus "processed"%string :: EvSaveRules :: EvSaveTerms :: EvExtract :: rest /\
     snd run = inr tt) \/
    (effects (fst run) = EvStatus "failed"%string :: rest /\ snd run = status_outcome "failed"%string).
Proof.
  cbv zeta. unfold processFileInBackground. rewrite Hfree.
  unfold bg_bind, queue_add, bg_finally, bg_try, queue_delete, bg_body, bg_effect, bg_throw.
  cbn.
  destruct init_outcome as [e|[]]; cbn; [eexists; right; split; reflexivity|].
  destruct (status_outcome "processing"%string) as [e|[]]; cbn; [eexists; right; split; reflexivity|].
  destruct (download_outcome storagePath) as [e|b]; cbn; [eexists; right; split; reflexivity|].
  destruct (metadata_outcome fileId) as [meta|]; cbn; [|eexists; right; split; reflexivity].
  destruct (extract_outcome b meta) as [e|x]; cbn; [eexists; right; split; reflexivity|].
  destruct save_terms_outcome as [e|[]]; cbn; [eexists; right; split; reflexivity|].
  destruct save_rules_outcome as [e|n]; cbn; [eexists; right; split; reflexivity|].
  destruct (status_outcome "processed"%string) as [e|[]]; cbn; [eexists; right; split; reflexivity|].
  eexists; left; split; reflexivity.
Qed.

(** ** The extraction mode *)

(** A file gets the [basic] extraction mode exactly when it is at most
    1 MiB, its MIME type contains none of [excel], [csv], [spreadsheet],
    [pdf] and its name ends in none of [.xls], [.xlsx], [.csv], [.pdf], in
    any case; every other file gets [comprehensive]. *)
Theorem determineExtractionMode_basic (m : BgFileMetadata) :
  (determineExtractionMode m = "basic"%string <->
   (bm_size m <= 1024 * 1024)%N /\
   (forall p, In p ["excel"; "csv"; "spreadsheet"; "pdf"]%string ->
              includes (toLowerCase (bm_mimetype m)) p = false) /\
   (forall suf, In suf [".xls"; ".xlsx"; ".csv"; ".pdf"]%string ->
                ends_with (toLowerCase (bm_filename m)) suf = false)) /\
  (determineExtractionMode m <> "basic"%string ->
   determineExtractionMode m = "comprehensive"%string).
Proof.
  split.
  2:{ unfold determineExtractionMode. destruct (_ || _); [reflexivity|].
      intro H. exfalso. apply H. reflexivity. }
  unfold determineExtractionMode. cbn [existsb]. unfold test_ci, test_ci_end. split.
  - intro Hbasic.
    destruct ((1024 * 1024 <? bm_size m)%N) eqn:Esize; [cbn in Hbasic; discriminate|].
    destruct (includes (toLowerCase (bm_mimetype m)) "excel") eqn:E1; [cbn in Hbasic; discriminate|].
    destruct (includes (toLowerCase (bm_mimetype m)) "csv") eqn:E2; [cbn in Hbasic; discriminate|].
    destruct (includes (toLowerCase (bm_mimetype m)) "spreadsheet") eqn:E3; [cbn in Hbasic; discriminate|].
    destruct (ends_with (toLowerCase (bm_filename m)) ".xls") eqn:E4; [cbn in Hbasic; discriminate|].
    destruct (ends_with (toLowerCase (bm_filename m)) ".xlsx") eqn:E5; [cbn in Hbasic; discriminate|].
    destruct (ends_with (toLowerCase (bm_filename m)) ".csv") eqn:E6; [cbn in Hbasic; discriminate|].
    destruct (includes (toLowerCase (bm_mimetype m)) "pdf") eqn:E7; [cbn in Hbasic; discriminate|].
    destruct (ends_with (toLowerCase (bm_filename m)) ".pdf") eqn:E8; [cbn in Hbasic; discriminate|].
    split; [apply N.ltb_ge; exact Esize|].
    split.
    + intros p [<-|[<-|[<-|[<-|[]]]]]; assumption.
    + intros suf [<-|[<-|[<-|[<-|[]]]]]; assumption.
  - intros (Hs & Hm & Hf).
    replace ((1024 * 1024 <? bm_size m)%N) with false by (symmetry; apply N.ltb_ge; exact Hs).
    rewrite (Hm "excel"%string), (Hm "csv"%string), (Hm "spreadsheet"%string), (Hm "pdf"%string),
      (Hf ".xls"%string), (Hf ".xlsx"%string), (Hf ".csv"%string), (Hf ".pdf"%string)
      by (simpl; tauto).
    reflexivity.
Qed.

(** ** Saving and reading glossary rows *)

Lemma clamp01_cases (x : Q) :
  ((x <= 0)%Q -> (clamp01 x == 0)%Q) /\ ((1 <= x)%Q -> (clamp01 x == 1)%Q) /\
  ((0 <= x <= 1)%Q -> (clamp01 x == x)%Q) /\ (0 <= clamp01 x <= 1)%Q.
Proof.
  unfold clamp01, Qmax, Qmin, GenericMinMax.gmax, GenericMinMax.gmin.
  destruct (Qcompare_spec 1 x) as [H1|H1|H1];
  [destruct (Qcompare_spec 0 1) as [H2|H2|H2]
  |destruct (Qcompare_spec 0 1) as [H2|H2|H2]
  |destruct (Qcompare_spec 0 x) as [H2|H2|H2]];
  repeat split; intros; lra.
Qed.

(** [saveExtractedTerms] sends nothing for an empty list; otherwise it
    sends one row per term, in order, each with the [file_]-prefixed dataset
    id and a confidence within [0, 1], and fails exactly when the upsert
    reports an error. *)
Theorem saveExtractedTerms_rows (upsert : list GlossaryRow -> option string)
  (fileId : string) (terms : list GlossaryTerm) (sourceFilename nowIso : string) :
  let '(sent, outcome) := saveExtractedTerms upsert fileId terms sourceFilename nowIso in
  match sent with
  | None => terms = [] /\ outcome = inr tt
  | Some rows =>
      terms <> [] /\ length rows = length terms /\
      map gr_term rows = map gt_term terms /\
      (forall row, In row rows ->
         gr_dataset_id row = ("file_" ++ fileId)%string /\ gr_source_file_id row = fileId /\
         (0 <= gr_confidence row <= 1)%Q) /\
      (forall msg, outcome = inl (mkError ("Database insertion failed: " ++ msg)) <->
                   upsert rows = Some msg) /\
      (outcome = inr tt <-> upsert rows = None)
  end.
Proof.
  unfold saveExtractedTerms. destruct terms as [|t0 ts]; [split; reflexivity|].
  split; [discriminate|].
  split; [apply length_map|].
  split; [rewrite map_map; reflexivity|].
  split.
  { intros row Hrow. apply in_map_iff in Hrow as (t & <- & _).
    cbn. split; [reflexivity|]. split; [reflexivity|].
    exact (proj2 (proj2 (proj2 (clamp01_cases (gt_confidence t))))). }
  destruct (upsert (map (glossary_row fileId sourceFilename nowIso) (t0 :: ts))) as [msg0|].
  - split.
    + intro msg. split.
      * intro H. injection H as H. rewrite H. reflexivity.
      * intro H. injection H as <-. reflexivity.
    + split; discriminate.
  - split.
    + intro msg. split; discriminate.
    + split; reflexivity.
Qed.

(** ** Batched upserts *)

Lemma batch_loop_concat {A} (terms : list A) :
  forall fuel i, length terms - i <= fuel * MAX_BATCH_SIZE ->
  concat (map snd (batch_loop fuel i terms)) = skipn i terms.
Proof.
  induction fuel as [|f IH]; intros i H; cbn [batch_loop].
  - symmetry. apply skipn_all2. lia.
  - destruct (i <? length terms) eqn:E.
    + cbn [map concat snd length]. rewrite IH by (unfold MAX_BATCH_SIZE in *; lia).
      rewrite Nat.add_comm, <- skipn_skipn. apply firstn_skipn.
    + apply Nat.ltb_ge in E. symmetry. apply skipn_all2. exact E.
Qed.

Lemma div_step (m : nat) : 1 <= m -> (m + 99) / 100 = S ((m - 100 + 99) / 100).
Proof.
  intro Hm. destruct (le_lt_dec 100 m) as [H|H].
  - replace (m + 99) with ((m - 100 + 99) + 1 * 100) by lia.
    rewrite Nat.div_add by lia. lia.
  - replace (m - 100 + 99) with 99 by lia. change (99 / 100) with 0.
    symmetry. apply Nat.div_unique with (m + 99 - 100); lia.
Qed.

Lemma batch_loop_length {A} (terms : list A) :
  forall fuel i, length terms - i <= fuel * MAX_BATCH_SIZE ->
  length (batch_loop fuel i terms) = (length terms - i + 99) / 100.
Proof.
  induction fuel as [|f IH]; intros i H; cbn [batch_loop].
  - replace (length terms - i) with 0 by lia. reflexivity.
  - destruct (i <? length terms) eqn:E.
    + cbn [map concat snd length]. rewrite IH by (unfold MAX_BATCH_SIZE in *; lia).
      apply Nat.ltb_lt in E. rewrite (div_step (length terms - i)) by lia.
      unfold MAX_BATCH_SIZE. f_equal. f_equal. lia.
    + apply Nat.ltb_ge in E. replace (length terms - i) with 0 by lia. reflexivity.
Qed.

Lemma batch_loop_fst {A} (terms : list A) :
  forall fuel i,
  map fst (batch_loop fuel i terms) =
  map (fun k => i + k * MAX_BATCH_SIZE) (seq 0 (length (batch_loop fuel i terms))).
Proof.
  induction fuel as [|f IH]; intros i; cbn [batch_loop]; [reflexivity|].
  destruct (i <? length terms); [|reflexivity].
  cbn [map fst length seq]. rewrite IH. f_equal; [lia|].
  rewrite <- seq_shift, map_map. apply map_ext. intro k. lia.
Qed.

Lemma batch_loop_sizes {A} (terms : list A) :
  forall fuel i ib, In ib (batch_loop fuel i terms) -> 1 <= length (snd ib) <= MAX_BATCH_SIZE.
Proof.
  induction fuel as [|f IH]; intros i ib H; cbn [batch_loop] in H; [contradiction|].
  destruct (i <? length terms) eqn:E; [|contradiction].
  destruct H as [<-|H]; [|exact (IH _ _ H)].
  apply Nat.ltb_lt in E. cbn [snd]. rewrite length_firstn, length_skipn.
  unfold MAX_BATCH_SIZE. lia.
Qed.

(** The batches of [batchUpsertTerms] cover the terms in order, there are
    [ceil(n / 100)] of them, each holds 1 to 100 terms, and the batch
    numbers logged are 1, 2, ... in order. *)
Theorem batches_partition {A} (terms : list A) :
  concat (map snd (batches terms)) = terms /\
  length (batches terms) = (length terms + 99) / 100 /\
  (forall ib, In ib (batches terms) -> 1 <= length (snd ib) <= MAX_BATCH_SIZE) /\
  map (fun ib => fst ib / MAX_BATCH_SIZE + 1) (batches terms) = seq 1 (length (batches terms)).
Proof.
  assert (Hfuel : length terms - 0 <= length terms * MAX_BATCH_SIZE) by (unfold MAX_BATCH_SIZE; lia).
  unfold batches.
  split; [rewrite batch_loop_concat by exact Hfuel; reflexivity|].
  split; [rewrite batch_loop_length by exact Hfuel; rewrite Nat.sub_0_r; reflexivity|].
  split; [intros ib H; exact (batch_loop_sizes _ _ _ _ H)|].
  replace (map (fun ib => fst ib / MAX_BATCH_SIZE + 1) (batch_loop (length terms) 0 terms))
    with (map (fun i => i / MAX_BATCH_SIZE + 1) (map fst (batch_loop (length terms) 0 terms)))
    by (rewrite map_map; reflexivity).
  rewrite batch_loop_fst, map_map, <- seq_shift.
  apply map_ext. intro k. rewrite Nat.add_0_l, Nat.div_mul by (unfold MAX_BATCH_SIZE; lia). lia.
Qed.

Lemma sql_iter_query_ok (db_query : list SqlEvent -> SqlEvent -> option JsError)
  {A} (f : A -> SqlEvent) :
  forall xs log log', sql_iter (fun x => sql_query db_query (f x)) xs log = (log', inr tt) ->
  log' = rev (map f xs) ++ log.
Proof.
  induction xs as [|x xs IH]; intros log log' H; simpl in H.
  - injection H as <-. reflexivity.
  - unfold sql_bind, sql_query in H.
    destruct (db_query log (f x)); [discriminate|].
    rewrite (IH _ _ H). simpl. rewrite <- app_assoc. reflexivity.
Qed.

Lemma sql_iter_batches_ok (db_query : list SqlEvent -> SqlEvent -> option JsError)
  (datasetId : string) :
  forall bs log log', sql_iter (upsert_batch db_query datasetId) bs log = (log', inr tt) ->
  log' = rev (flat_map (batch_events datasetId) bs) ++ log.
Proof.
  induction bs as [|b bs IH]; intros log log' H; cbn [sql_iter] in H.
  - injection H as <-. reflexivity.
  - unfold sql_bind at 1 in H.
    destruct (upsert_batch db_query datasetId b log) as [log2 [e|[]]] eqn:Eb; [discriminate|].
    unfold upsert_batch, sql_bind in Eb.
    destruct (sql_iter (fun t => sql_query db_query (QInsert (upsert_params datasetId t))) (snd b) log)
      as [log1 [e|[]]] eqn:E; [discriminate|].
    apply (sql_iter_query_ok db_query (fun t => QInsert (upsert_params datasetId t))) in E.
    unfold sql_log in Eb. injection Eb as <-. apply IH in H. subst log' log1.
    cbn [flat_map]. rewrite rev_app_distr, <- app_assoc. f_equal.
    unfold batch_events. rewrite rev_app_distr, <- app_assoc. reflexivity.
Qed.

Lemma batchUpsertTerms_success_log (db_query : list SqlEvent -> SqlEvent -> option JsError)
  (connect_outcome : option JsError) (terms : list GlossaryTerm) (datasetId : string)
  (log log' : list SqlEvent)
  (Hok : batchUpsertTerms db_query connect_outcome terms datasetId log = (log', inr tt)) :
  connect_outcome = None /\
  log' = rev (QBegin :: flat_map (batch_events datasetId) (batches terms) ++ [QCommit]) ++ log.
Proof.
  unfold batchUpsertTerms in Hok. destruct connect_outcome as [e|]; [discriminate|].
  split; [reflexivity|].
  unfold sql_bind at 1, sql_query at 1 in Hok.
  destruct (db_query log QBegin) as [e|]; [destruct (sql_query db_query QRollback (QBegin :: log)) as [? [|]]; discriminate|].
  unfold sql_bind at 1 in Hok.
  destruct (sql_iter (upsert_batch db_query datasetId) (batches terms) (QBegin :: log))
    as [log1 [e|[]]] eqn:E.
  - destruct (sql_query db_query QRollback log1) as [? [|]]; discriminate.
  - apply sql_iter_batches_ok in E.
    unfold sql_query in Hok. destruct (db_query log1 QCommit) as [e|].
    + destruct (db_query (QCommit :: log1) QRollback); discriminate.
    + injection Hok as <-. rewrite E. simpl. rewrite rev_app_distr. simpl.
      repeat rewrite <- app_assoc. reflexivity.
Qed.

(** A [batchUpsertTerms] that resolves has connected and sent [BEGIN],
    then for each batch the upserts of its terms in order followed by the
    log line of the batch, then [COMMIT], and nothing else. *)
Theorem batchUpsertTerms_success (db_query : list SqlEvent -> SqlEvent -> option JsError)
  (connect_outcome : option JsError) (terms : list GlossaryTerm) (datasetId : string)
  (log log' : list SqlEvent)
  (Hok : batchUpsertTerms db_query connect_outcome terms datasetId log = (log', inr tt)) :
  connect_outcome = None /\
  log' = rev (QBegin :: flat_map (batch_events datasetId) (batches terms) ++ [QCommit]) ++ log.
Proof. exact (batchUpsertTerms_success_log db_query connect_outcome terms datasetId log log' Hok). Qed.

(** A [batchUpsertTerms] that rejects either could not connect, and then
    sent nothing, or sent [ROLLBACK] as its last query. *)
Theorem batchUpsertTerms_failure (db_query : list SqlEvent -> SqlEvent -> option JsError)
  (connect_outcome : option JsError) (terms : list GlossaryTerm) (datasetId : string)
  (log log' : list SqlEvent) (e : JsError)
  (Hfail : batchUpsertTerms db_query connect_outcome terms datasetId log = (log', inl e)) :
  (connect_outcome = Some e /\ log' = log) \/
  (connect_outcome = None /\ exists sent, log' = QRollback :: sent ++ log).
Proof.
  unfold batchUpsertTerms in Hfail. destruct connect_outcome as [e0|].
  - left. injection Hfail as <- <-. split; reflexivity.
  - right. split; [reflexivity|].
    assert (Hgrow : forall A (m : Sql A) l, (forall l', exists sent, fst (m l') = sent ++ l') ->
                      exists sent, fst (m l) = sent ++ l) by (intros; auto).
    assert (Hq : forall q l, exists sent, fst (sql_query db_query q l) = sent ++ l)
      by (intros q l; exists [q]; reflexivity).
    assert (Hb : forall A B (m : Sql A) (k : A -> Sql B),
              (forall l, exists sent, fst (m l) = sent ++ l) ->
              (forall x l, exists sent, fst (k x l) = sent ++ l) ->
              forall l, exists sent, fst (sql_bind m k l) = sent ++ l).
    { intros A B m k Hm Hk l. unfold sql_bind.
      destruct (Hm l) as [s1 E1]. destruct (m l) as [l1 [x|x]]; simpl in E1 |- *.
      - exists s1. exact E1.
      - destruct (Hk x l1) as [s2 E2]. exists (s2 ++ s1). rewrite E2, E1, app_assoc. reflexivity. }
    assert (Hi : forall A (f : A -> Sql unit), (forall x l, exists sent, fst (f x l) = sent ++ l) ->
              forall xs l, exists sent, fst (sql_iter f xs l) = sent ++ l).
    { intros A f Hf xs. induction xs as [|x xs IH]; intro l; simpl.
      - exists []. reflexivity.
      - apply Hb; [exact (Hf x)|intros _ l'; exact (IH l')]. }
    assert (Hbody : exists sent, fst (sql_bind (sql_query db_query QBegin) (fun _ =>
              sql_bind (sql_iter (upsert_batch db_query datasetId) (batches terms)) (fun _ =>
              sql_query db_query QCommit)) log) = sent ++ log).
    { apply Hb; [exact (Hq QBegin)|]. intros _ l. apply Hb.
      - apply Hi. intros ib l'. unfold upsert_batch. apply Hb.
        + apply Hi. intros t l''. apply Hq.
        + intros _ l''. exists [LogBatch (fst ib / MAX_BATCH_SIZE + 1)]. reflexivity.
      - intros _ l'. apply Hq. }
    destruct Hbody as [sent Es].
    destruct (sql_bind (sql_query db_query QBegin) (fun _ =>
              sql_bind (sql_iter (upsert_batch db_query datasetId) (batches terms)) (fun _ =>
              sql_query db_query QCommit)) log) as [log1 [e1|x]]; [|discriminate].
    simpl in Es. subst log1.
    unfold sql_query in Hfail. destruct (db_query (sent ++ log) QRollback);
      injection Hfail as <- _; exists sent; reflexivity.
Qed.

(** The parameters sent for a term: the name is trimmed, the confidence is
    within [0, 1], a zero confidence is sent as 0.6 and one in (0, 1] as
    is, and the category is [NULL] exactly when it is missing or empty. *)
Theorem upsert_params_values (datasetId : string) (t : GlossaryTerm) :
  let p := upsert_params datasetId t in
  trim (up_term p) = up_term p /\ up_dataset_id p = datasetId /\
  (0 <= up_confidence p <= 1)%Q /\
  ((gt_confidence t == 0)%Q -> (up_confidence p == 6 # 10)%Q) /\
  ((0 < gt_confidence t <= 1)%Q -> (up_confidence p == gt_confidence t)%Q) /\
  (up_category p = None <-> gt_category t = None \/ gt_category t = Some ""%string).
Proof.
  cbv zeta. unfold upsert_params. cbn [up_term up_dataset_id up_confidence up_category].
  split; [apply trim_idem|]. split; [reflexivity|].
  unfold num_or.
  split; [exact (proj2 (proj2 (proj2 (clamp01_cases _))))|].
  split.
  { intro H. assert (E : Qeq_bool (gt_confidence t) 0 = true) by (apply Qeq_bool_iff; exact H).
    rewrite E. apply (proj1 (proj2 (proj2 (clamp01_cases _)))). lra. }
  split.
  { intros [H0 H1]. destruct (Qeq_bool (gt_confidence t) 0) eqn:E.
    - apply Qeq_bool_iff in E. lra.
    - apply (proj1 (proj2 (proj2 (clamp01_cases _)))). lra. }
  unfold str_or_null. destruct (gt_category t) as [c|].
  - destruct (String.eqb c "") eqn:E.
    + apply String.eqb_eq in E. subst c. split; [intros _; right; reflexivity|reflexivity].
    + split; [discriminate|]. intros [H|H]; [discriminate|].
      injection H as ->. discriminate.
  - split; [intros _; left; reflexivity|reflexivity].
Qed.

(** ** [extractFromFile] *)

(** [extractFromFile] calls the model only once the file has been
    processed: if [processFile] fails, its error is returned and the model is
    never called; otherwise the model is called at least once and at most
    [MAX_RETRIES] times. *)
Theorem extractFromFile_model_calls (date_parses : string -> bool)
  (js_Number : string -> option jsnum) (csv_parse : string -> Buffer -> JsError + list Row)
  (json_parse : Buffer -> JsError + JsonTop) (xlsx_rows : Buffer -> JsError + list Row)
  (pdf_text : Buffer -> JsError + string) (utf8 : Buffer -> string)
  (buildEnhancedPrompt : list ColumnPreview -> string -> string -> option string -> string -> string)
  (gemini : string -> nat -> JsError + option (list GlossaryTerm))
  (fileBuffer : Buffer) (filename mimetype : string) (size : N) (datasetId : string)
  (businessContext : option string) (extractionMode : string) :
  let run := extractFromFile date_parses js_Number csv_parse json_parse xlsx_rows pdf_text utf8
               buildEnhancedPrompt gemini fileBuffer filename mimetype size datasetId
               businessContext extractionMode in
  match processFile date_parses js_Number csv_parse json_parse xlsx_rows pdf_text utf8 fileBuffer
          {| fm_filename := filename; fm_mimetype := mimetype; fm_size := size;
             fm_datasetId := datasetId |} with
  | inl e => run = ([], inl e)
  | inr _ => 1 <= length (filter is_call (fst run)) <= MAX_RETRIES
  end.
Proof.
  cbv zeta. unfold extractFromFile.
  destruct (processFile date_parses js_Number csv_parse json_parse xlsx_rows pdf_text utf8 fileBuffer
          {| fm_filename := filename; fm_mimetype := mimetype; fm_size := size;
             fm_datasetId := datasetId |}) as [e|pf]; [reflexivity|].
  set (prompt := buildEnhancedPrompt (pf_columnPreview pf) (pf_unstructuredText pf) datasetId
                   businessContext extractionMode).
  unfold extractTermsWithRetry.
  destruct (retry_from_counts _ (gemini prompt) MAX_RETRIES 1 None) as [Hc Hb];
    [unfold MAX_RETRIES; lia|reflexivity|].
  destruct (retry_from _ (gemini prompt) 1 MAX_RETRIES None) as [evs r].
  simpl in Hc, Hb |- *. lia.
Qed.

(** A successful [extractFromFile] returns the warnings of [processFile],
    the column previews exactly when there are some, and terms that are
    deduplicated: sorted by non-increasing confidence, one per normalized
    name, with trimmed names. *)
Theorem extractFromFile_success (date_parses : string -> bool)
  (js_Number : string -> option jsnum) (csv_parse : string -> Buffer -> JsError + list Row)
  (json_parse : Buffer -> JsError + JsonTop) (xlsx_rows : Buffer -> JsError + list Row)
  (pdf_text : Buffer -> JsError + string) (utf8 : Buffer -> string)
  (buildEnhancedPrompt : list ColumnPreview -> string -> string -> option string -> string -> string)
  (gemini : string -> nat -> JsError + option (list GlossaryTerm))
  (fileBuffer : Buffer) (filename mimetype : string) (size : N) (datasetId : string)
  (businessContext : option string) (extractionMode : string)
  (evs : list RetryEvent) (res : ExtractionResult)
  (Hok : extractFromFile date_parses js_Number csv_parse json_parse xlsx_rows pdf_text utf8
           buildEnhancedPrompt gemini fileBuffer filename mimetype size datasetId
           businessContext extractionMode = (evs, inr res)) :
  exists pf,
    processFile date_parses js_Number csv_parse json_parse xlsx_rows pdf_text utf8 fileBuffer
      {| fm_filename := filename; fm_mimetype := mimetype; fm_size := size;
         fm_datasetId := datasetId |} = inr pf /\
    er_warnings res = pf_warnings pf /\
    ((pf_columnPreview pf = [] /\ er_columnPreview res = None) \/
     (pf_columnPreview pf <> [] /\ er_columnPreview res = Some (pf_columnPreview pf))) /\
    desc_sorted (er_terms res) /\
    NoDup (map (fun r => normalize (gt_term r)) (er_terms res)) /\
    (forall r, In r (er_terms res) -> trim (gt_term r) = gt_term r).
Proof.
  unfold extractFromFile in Hok.
  destruct (processFile date_parses js_Number csv_parse json_parse xlsx_rows pdf_text utf8 fileBuffer
          {| fm_filename := filename; fm_mimetype := mimetype; fm_size := size;
             fm_datasetId := datasetId |}) as [e|pf]; [discriminate|].
  exists pf. split; [reflexivity|].
  destruct (extractTermsWithRetry _ _) as [evs' [e|parsed]]; [discriminate|].
  injection Hok as _ <-. cbn [er_warnings er_columnPreview er_terms].
  set (ts := match parsed with Some ts => ts | None => [] end).
  split; [reflexivity|].
  split.
  { destruct (pf_columnPreview pf) as [|c cs]; [left; split; reflexivity|].
    right. split; [discriminate|reflexivity]. }
  split; [unfold deduplicateTerms; apply sort_by_conf_sorted|].
  split; [apply deduplicateTerms_NoDup|].
  intros r Hr. exact (proj1 (deduplicateTerms_entry ts r Hr)).
Qed.

(** ** [readMultipartData] *)

Lemma mp_step_settled (s : MpState) (ev : BusboyEvent) (o : JsError + MultipartData) :
  mp_settled s = Some o -> mp_settled (mp_step s ev) = Some o.
Proof.
  intro H. unfold mp_step.
  destruct ev as [fn mt|c|e|name value| |e|]; cbn [mp_chunks];
    repeat match goal with
           | |- context [if mp_fileReceived s then _ else _] => destruct (mp_fileReceived s)
           | |- context [if (MAX_FILE_SIZE <? ?x)%N then _ else _] => destruct (MAX_FILE_SIZE <? x)%N
           end;
    try unfold mp_settle; cbn; rewrite ?H; cbn; first [reflexivity|exact H].
Qed.

Lemma no_file_or_close_snoc (l : list BusboyEvent) (x : BusboyEvent) :
  no_file_or_close l -> match x with BFile _ _ | BClose => False | _ => True end ->
  no_file_or_close (l ++ [x]).
Proof.
  intros Hl Hx e He. apply in_app_iff in He as [He|[<-|[]]]; [exact (Hl e He)|exact Hx].
Qed.

Lemma chunks_size_concat (cs : list Buffer) : chunks_size cs = length (concat cs).
Proof.
  unfold chunks_size.
  assert (H : forall a, fold_left (fun total c => total + length c) cs a = a + length (concat cs)).
  { induction cs as [|c cs IH]; intro a; simpl; [lia|].
    rewrite IH, length_app. lia. }
  rewrite H. reflexivity.
Qed.

Lemma data_chunks_snoc (l : list BusboyEvent) (x : BusboyEvent) :
  data_chunks (l ++ [x]) = data_chunks l ++ data_chunks [x].
Proof. unfold data_chunks. rewrite flat_map_app. reflexivity. Qed.

Lemma mp_unsettled (l : list BusboyEvent) :
  mp_settled (fold_left mp_step l mp_init) = None ->
  let s := fold_left mp_step l mp_init in
  (mp_fileReceived s = false /\ no_file_or_close l /\ mp_chunks s = []) \/
  (mp_fileReceived s = true /\
   exists b1 b2, l = b1 ++ BFile (mp_filename s) (mp_mimetype s) :: b2 /\
     no_file_or_close b1 /\ no_file_or_close b2 /\ mp_chunks s = data_chunks b2 /\
     (N.of_nat (chunks_size (mp_chunks s)) <= MAX_FILE_SIZE)%N).
Proof.
  induction l as [|x l IH] using rev_ind; intro Hn.
  - left. split; [reflexivity|]. split; [intros e []|reflexivity].
  - cbv zeta in *. rewrite fold_left_app in Hn |- *. cbn [fold_left] in Hn |- *.
    set (s := fold_left mp_step l mp_init) in *.
    destruct (mp_settled s) as [o|] eqn:Es.
    { rewrite (mp_step_settled s x o Es) in Hn. discriminate. }
    specialize (IH eq_refl).
    destruct x as [fn mt|c|e|name value| |e|]; cbn [mp_step mp_chunks] in Hn |- *.
    + destruct (mp_fileReceived s) eqn:Ef.
      * unfold mp_settle in Hn. rewrite Es in Hn. discriminate.
      * destruct IH as [(_ & Hnf & Hc)|(Hf & _)]; [|congruence].
        right. cbn. split; [reflexivity|]. exists l, []. split; [reflexivity|].
        split; [exact Hnf|]. split; [intros e []|]. rewrite Hc. split; [reflexivity|].
        unfold MAX_FILE_SIZE. cbn. lia.
    + destruct (mp_fileReceived s) eqn:Ef.
      * destruct (MAX_FILE_SIZE <? N.of_nat (chunks_size (mp_chunks s ++ [c])))%N eqn:Eb;
          [unfold mp_settle in Hn; cbn in Hn; rewrite Es in Hn; discriminate|].
        destruct IH as [(Hf & _)|(_ & b1 & b2 & Hl & H1 & H2 & Hc & _)]; [congruence|].
        right. cbn. split; [reflexivity|]. exists b1, (b2 ++ [BData c]).
        split; [rewrite Hl, <- app_assoc; reflexivity|].
        split; [exact H1|]. split; [apply no_file_or_close_snoc; [exact H2|exact I]|].
        split; [rewrite data_chunks_snoc, Hc; reflexivity|].
        apply N.ltb_ge. exact Eb.
      * destruct IH as [(Hf & Hnf & Hc)|(Hf & _)]; [|congruence].
        left. split; [exact Ef|]. split; [apply no_file_or_close_snoc; [exact Hnf|exact I]|exact Hc].
    + destruct (mp_fileReceived s) eqn:Ef.
      * unfold mp_settle in Hn. rewrite Es in Hn. discriminate.
      * destruct IH as [(Hf & Hnf & Hc)|(Hf & _)]; [|congruence].
        left. split; [exact Ef|]. split; [apply no_file_or_close_snoc; [exact Hnf|exact I]|exact Hc].
    + destruct IH as [(Hf & Hnf & Hc)|(Hf & b1 & b2 & Hl & H1 & H2 & Hc & Hsz)].
      * left. cbn. split; [exact Hf|]. split; [apply no_file_or_close_snoc; [exact Hnf|exact I]|exact Hc].
      * right. cbn. split; [exact Hf|]. exists b1, (b2 ++ [BField name value]).
        split; [rewrite Hl, <- app_assoc; reflexivity|].
        split; [exact H1|]. split; [apply no_file_or_close_snoc; [exact H2|exact I]|].
        split; [rewrite data_chunks_snoc, Hc, app_nil_r; reflexivity|exact Hsz].
    + destruct (mp_fileReceived s); unfold mp_settle in Hn; rewrite Es in Hn; discriminate.
    + unfold mp_settle in Hn. rewrite Es in Hn. discriminate.
    + unfold mp_settle in Hn. rewrite Es in Hn. discriminate.
Qed.

(** When the promise of [readMultipartData] resolves, it was settled by
    the first [close] event; exactly one [file] event came before it, whose
    name and MIME type are returned; the buffer is the concatenation of the
    chunks received between that file event and the close, and it holds at
    most [MAX_FILE_SIZE] bytes. *)
Theorem readMultipartData_resolved (events : list BusboyEvent) (md : MultipartData)
  (Hres : readMultipartData events = Some (inr md)) :
  exists b1 b2 rest,
    events = b1 ++ BFile (md_filename md) (md_mimetype md) :: b2 ++ BClose :: rest /\
    no_file_or_close b1 /\ no_file_or_close b2 /\
    md_fileBuffer md = concat (data_chunks b2) /\
    (N.of_nat (length (md_fileBuffer md)) <= MAX_FILE_SIZE)%N.
Proof.
  unfold readMultipartData in Hres.
  induction events as [|x l IH] using rev_ind; [discriminate|].
  rewrite fold_left_app in Hres. cbn [fold_left] in Hres.
  destruct (mp_settled (fold_left mp_step l mp_init)) as [o|] eqn:Es.
  - rewrite (mp_step_settled _ x o Es) in Hres.
    destruct (IH Hres) as (b1 & b2 & rest & Hl & H1 & H2 & Hb & Hsz).
    exists b1, b2, (rest ++ [x]). split; [|split; [exact H1|split; [exact H2|split; [exact Hb|exact Hsz]]]].
    rewrite Hl. repeat (rewrite <- app_assoc; cbn [app]). reflexivity.
  - pose proof (mp_unsettled l Es) as Hinv. cbv zeta in Hinv.
    set (s := fold_left mp_step l mp_init) in *. clearbody s.
    destruct x as [fn mt|c|e|name value| |e|]; cbn [mp_step mp_chunks] in Hres;
      repeat match type of Hres with
             | context [if mp_fileReceived s then _ else _] => destruct (mp_fileReceived s) eqn:Ef
             | context [if (MAX_FILE_SIZE <? ?y)%N then _ else _] => destruct (MAX_FILE_SIZE <? y)%N
             end;
      try unfold mp_settle in Hres; cbn in Hres; rewrite ?Es in Hres; cbn in Hres; try discriminate.
    injection Hres as <-. cbn [md_filename md_mimetype md_fileBuffer].
    destruct Hinv as [(Hf & _)|(_ & b1 & b2 & Hl & H1 & H2 & Hc & Hsz)]; [congruence|].
    exists b1, b2, []. split; [rewrite Hl, <- app_assoc; reflexivity|].
    split; [exact H1|]. split; [exact H2|]. split; [rewrite Hc; reflexivity|].
    rewrite <- chunks_size_concat. exact Hsz.
Qed.

(** ** The business context of a file name *)

Lemma lower_c_idem (c : ascii) : lower_c (lower_c c) = lower_c c.
Proof.
  destruct c as [b0 b1 b2 b3 b4 b5 b6 b7].
  destruct b0, b1, b2, b3, b4, b5, b6, b7; reflexivity.
Qed.

Lemma toLowerCase_idem (s : string) : toLowerCase (toLowerCase s) = toLowerCase s.
Proof.
  unfold toLowerCase. rewrite list_ascii_of_string_of_list_ascii, map_map.
  f_equal. apply map_ext. exact lower_c_idem.
Qed.

Lemma find_all_false {A} (f : A -> bool) (l : list A) :
  (forall x, In x l -> f x = false) -> find f l = None.
Proof.
  induction l as [|x l IH]; intro H; [reflexivity|].
  simpl. rewrite (H x (or_introl eq_refl)). apply IH. intros y Hy. apply H. right. exact Hy.
Qed.

(** [inferBusinessContext] ignores the case of the file name, and it
    falls back to [General Business Data] exactly when no keyword of any
    group occurs in the lower-cased name. *)
Theorem inferBusinessContext_props (filename : string) :
  inferBusinessContext (toLowerCase filename) = inferBusinessContext filename /\
  (inferBusinessContext filename = "General Business Data"%string <->
   forall kc keyword, In kc business_contexts -> In keyword (fst kc) ->
                      includes (toLowerCase filename) keyword = false).
Proof.
  split; [unfold inferBusinessContext; rewrite toLowerCase_idem; reflexivity|].
  unfold inferBusinessContext.
  set (p := fun kc : list string * string =>
              existsb (fun keyword => includes (toLowerCase filename) keyword) (fst kc)).
  split.
  - intros H kc keyword Hkc Hkw.
    destruct (find p business_contexts) as [[kws c]|] eqn:E.
    + apply find_some in E as [Hin _].
      exfalso. subst c.
      unfold business_contexts in Hin.
      repeat (destruct Hin as [Hin|Hin]; [injection Hin as _ Hc; discriminate Hc|]); exact Hin.
    + pose proof (find_none p business_contexts E kc Hkc) as Hp.
      unfold p in Hp. destruct (includes (toLowerCase filename) keyword) eqn:Ek; [|reflexivity].
      assert (Ht : existsb (fun keyword => includes (toLowerCase filename) keyword) (fst kc) = true)
        by (apply existsb_exists; exists keyword; split; [exact Hkw|exact Ek]).
      rewrite Ht in Hp. discriminate.
  - intro H. rewrite (find_all_false p business_contexts); [reflexivity|].
    intros kc Hkc. unfold p.
    destruct (existsb (fun keyword => includes (toLowerCase filename) keyword) (fst kc)) eqn:Ee;
      [|reflexivity].
    apply existsb_exists in Ee as (kw & Hkw & Ek). rewrite (H kc kw Hkc Hkw) in Ek. discriminate.
Qed.

(** ** The HTTP handler *)

(** Every error response of [uploadAndExtractGlossary] has status 400
    when the error message mentions [validation] and 500 otherwise; errors
    raised before the fields are validated carry no file metadata. *)
Theorem uploadAndExtractGlossary_error_status (date_parses : string -> bool)
  (js_Number : string -> option jsnum) (csv_parse : string -> Buffer -> JsError + list Row)
  (json_parse : Buffer -> JsError + JsonTop) (xlsx_rows : Buffer -> JsError + list Row)
  (pdf_text : Buffer -> JsError + string) (utf8 : Buffer -> string)
  (buildEnhancedPrompt : list ColumnPreview -> string -> string -> option string -> string -> string)
  (gemini : string -> nat -> JsError + option (list GlossaryTerm))
  (validate : list (string * string) -> JsError + UploadFields)
  (api_key_set database_url_set : bool)
  (db_query : list SqlEvent -> SqlEvent -> option JsError) (db_connect : list SqlEvent -> option JsError)
  (multipart : JsError + MultipartData) (status : nat) (msg : string)
  (meta : option FileMetadata)
  (Herr : hr_response (uploadAndExtractGlossary date_parses js_Number csv_parse json_parse
            xlsx_rows pdf_text utf8 buildEnhancedPrompt gemini validate api_key_set
            database_url_set db_query db_connect multipart)
          = RError status msg meta) :
  ((status = 400 /\ includes msg "validation" = true) \/
   (status = 500 /\ includes msg "validation" = false)) /\
  (meta = None <-> (exists e, multipart = inl e) \/
                   (exists md e, multipart = inr md /\ validate (md_fields md) = inl e)).
Proof.
  assert (Hst : forall m e, error_response m e = RError status msg meta ->
            ((status = 400 /\ includes msg "validation" = true) \/
             (status = 500 /\ includes msg "validation" = false)) /\ meta = m).
  { intros m e H. unfold error_response in H. injection H as Hs Hm Hmeta. subst msg meta.
    split; [|reflexivity].
    destruct (includes (err_message e) "validation"); [left|right]; split; auto. }
  unfold uploadAndExtractGlossary in Herr.
  destruct multipart as [e|md].
  { destruct (Hst _ _ Herr) as [H1 ->]. split; [exact H1|].
    split; [intros _; left; exists e; reflexivity|reflexivity]. }
  destruct (validate (md_fields md)) as [e|vf] eqn:Ev.
  { destruct (Hst _ _ Herr) as [H1 ->]. split; [exact H1|].
    split; [intros _; right; exists md, e; split; [reflexivity|exact Ev]|reflexivity]. }
  assert (Hsome : forall m, meta = Some m ->
            (meta = None <-> (exists e, inr md = @inl JsError MultipartData e) \/
                             (exists md' e, @inr JsError MultipartData md = inr md' /\ validate (md_fields md') = inl e))).
  { intros m ->. split; [discriminate|].
    intros [[e He]|(md' & e & He & Hv)]; [discriminate|].
    injection He as <-. rewrite Ev in Hv. discriminate. }
  destruct api_key_set; cbn [negb] in Herr;
    [|cbn [hr_response] in Herr; destruct (Hst _ _ Herr) as [H1 ->]; split; [exact H1|apply (Hsome _ eq_refl)]].
  destruct database_url_set; cbn [negb] in Herr;
    [|cbn [hr_response] in Herr; destruct (Hst _ _ Herr) as [H1 ->]; split; [exact H1|apply (Hsome _ eq_refl)]].
  destruct (ensureSchema db_query (db_connect []) []) as [log0 [e|u0]];
    [cbn [hr_response] in Herr; destruct (Hst _ _ Herr) as [H1 ->]; split; [exact H1|apply (Hsome _ eq_refl)]|].
  match type of Herr with
  | context [processFile ?x1 ?x2 ?x3 ?x4 ?x5 ?x6 ?x7 ?x8 ?x9] =>
      destruct (processFile x1 x2 x3 x4 x5 x6 x7 x8 x9) as [e|pf]
  end;
    [cbn [hr_response] in Herr; destruct (Hst _ _ Herr) as [H1 ->]; split; [exact H1|apply (Hsome _ eq_refl)]|].
  match type of Herr with
  | context [extractTermsWithRetry ?P ?c] => destruct (extractTermsWithRetry P c) as [evs [e|parsed]]
  end;
    [cbn [hr_response] in Herr; destruct (Hst _ _ Herr) as [H1 ->]; split; [exact H1|apply (Hsome _ eq_refl)]|].
  match type of Herr with
  | context [if ?b then batchUpsertTerms ?q ?co ?ts ?d ?l else _] =>
      destruct (if b then batchUpsertTerms q co ts d l else (l, inr tt)) as [log [e|u]]
  end;
    [cbn [hr_response] in Herr; destruct (Hst _ _ Herr) as [H1 ->]; split; [exact H1|apply (Hsome _ eq_refl)]|].
  discriminate.
Qed.

(** A successful response of [uploadAndExtractGlossary] reports as many
    extracted terms as it returns; the terms are deduplicated (sorted by
    non-increasing confidence, one per normalized name); the schema DDL of
    [ensureSchema] was sent and succeeded, and the only other queries are,
    when there are terms, one committed transaction writing them; the
    reported size is that of the uploaded buffer; and [warnings] is left
    out rather than empty. *)
Theorem uploadAndExtractGlossary_success (date_parses : string -> bool)
  (js_Number : string -> option jsnum) (csv_parse : string -> Buffer -> JsError + list Row)
  (json_parse : Buffer -> JsError + JsonTop) (xlsx_rows : Buffer -> JsError + list Row)
  (pdf_text : Buffer -> JsError + string) (utf8 : Buffer -> string)
  (buildEnhancedPrompt : list ColumnPreview -> string -> string -> option string -> string -> string)
  (gemini : string -> nat -> JsError + option (list GlossaryTerm))
  (validate : list (string * string) -> JsError + UploadFields)
  (api_key_set database_url_set : bool)
  (db_query : list SqlEvent -> SqlEvent -> option JsError) (db_connect : list SqlEvent -> option JsError)
  (multipart : JsError + MultipartData) (res : ProcessingResult)
  (Hok : hr_response (uploadAndExtractGlossary date_parses js_Number csv_parse json_parse
           xlsx_rows pdf_text utf8 buildEnhancedPrompt gemini validate api_key_set
           database_url_set db_query db_connect multipart)
         = RJson res) :
  let run := uploadAndExtractGlossary date_parses js_Number csv_parse json_parse
               xlsx_rows pdf_text utf8 buildEnhancedPrompt gemini validate api_key_set
               database_url_set db_query db_connect multipart in
  pr_termsExtracted res = length (pr_terms res) /\
  desc_sorted (pr_terms res) /\
  NoDup (map (fun r => normalize (gt_term r)) (pr_terms res)) /\
  db_connect [] = None /\ db_query [] QSchema = None /\
  (pr_terms res = [] -> hr_database run = [QSchema]) /\
  (pr_terms res <> [] ->
     hr_database run =
       rev (QBegin :: flat_map (batch_events (pr_datasetId res)) (batches (pr_terms res)) ++
            [QCommit]) ++ [QSchema]) /\
  (exists md, multipart = inr md /\
              fm_size (pr_fileMetadata res) = N.of_nat (length (md_fileBuffer md))) /\
  pr_warnings res <> Some [].
Proof.
  cbv zeta. unfold uploadAndExtractGlossary in Hok |- *.
  destruct multipart as [e|md]; [discriminate|].
  destruct (validate (md_fields md)) as [e|vf]; [discriminate|].
  destruct api_key_set; cbn [negb] in Hok |- *; [|discriminate].
  destruct database_url_set; cbn [negb] in Hok |- *; [|discriminate].
  destruct (ensureSchema db_query (db_connect []) []) as [log0 [e|u0]] eqn:Es; [discriminate|].
  destruct (ensureSchema_ok _ _ _ _ _ Es) as (Hc & Hq & ->).
  match type of Hok with
  | context [processFile ?x1 ?x2 ?x3 ?x4 ?x5 ?x6 ?x7 ?x8 ?x9] =>
      destruct (processFile x1 x2 x3 x4 x5 x6 x7 x8 x9) as [e|pf]
  end; [discriminate|].
  match type of Hok with
  | context [extractTermsWithRetry ?P ?c] => destruct (extractTermsWithRetry P c) as [evs [e|parsed]]
  end; [discriminate|].
  set (ts := deduplicateTerms (match parsed with Some ts => ts | None => [] end)) in *.
  destruct (0 <? length ts) eqn:En.
  - destruct (batchUpsertTerms db_query (db_connect [QSchema]) ts (uf_datasetId vf) [QSchema])
      as [log [e|u]] eqn:Eb; [discriminate|].
    destruct u. injection Hok as <-. cbn.
    apply Nat.ltb_lt in En.
    split; [reflexivity|]. split; [unfold ts, deduplicateTerms; apply sort_by_conf_sorted|].
    split; [apply deduplicateTerms_NoDup|].
    split; [exact Hc|]. split; [exact Hq|].
    split; [intro H; rewrite H in En; simpl in En; lia|].
    split.
    { intros _. destruct (batchUpsertTerms_success_log _ _ _ _ _ _ Eb) as [_ ->].
      reflexivity. }
    split; [exists md; split; reflexivity|].
    destruct (pf_warnings pf); discriminate.
  - injection Hok as <-. cbn.
    apply Nat.ltb_ge in En.
    split; [reflexivity|]. split; [unfold ts, deduplicateTerms; apply sort_by_conf_sorted|].
    split; [apply deduplicateTerms_NoDup|].
    split; [exact Hc|]. split; [exact Hq|].
    split; [reflexivity|].
    split; [intro H; destruct ts; [contradiction|simpl in En; lia]|].
    split; [exists md; split; reflexivity|].
    destruct (pf_warnings pf); discriminate.
Qed.

(** ** Instances of the properties above on concrete inputs *)

Lemma detectDataType_short_not_date_witness :
  (forall v, In v ["12/3/4"; "1/2/03"]%string -> String.length (trim v) <= 6) /\
  detectDataType (fun _ => true) ["12/3/4"; "1/2/03"]%string <> DDate.
Proof.
  assert (H : forall v, In v ["12/3/4"; "1/2/03"]%string -> String.length (trim v) <= 6).
  { intros v [<-|[<-|[]]]; vm_compute; lia. }
  split; [exact H|].
  exact (detectDataType_short_not_date (fun _ => true) ["12/3/4"; "1/2/03"]%string H).
Defined.

Lemma profileColumns_column_bounds_witness :
  let c := profile_column no_date (fun _ => None)
             [[("amount", CStr "100")]; [("amount", CNull)]; [("amount", CStr "100")]]%string
             2 "amount" in
  In c (profileColumns no_date (fun _ => None)
          [[("amount", CStr "100")]; [("amount", CNull)]; [("amount", CStr "100")]]%string 2) /\
  cp_nullCount c + cp_uniqueCount c <= Nat.min 3 MAX_ROWS_TO_ANALYZE /\
  length (cp_samples c) = Nat.min 2 (cp_uniqueCount c) /\
  NoDup (cp_samples c) /\
  (forall s, In s (cp_samples c) -> trim s <> ""%string).
Proof.
  cbv zeta.
  assert (Hin : In (profile_column no_date (fun _ => None)
             [[("amount", CStr "100")]; [("amount", CNull)]; [("amount", CStr "100")]]%string
             2 "amount")
          (profileColumns no_date (fun _ => None)
             [[("amount", CStr "100")]; [("amount", CNull)]; [("amount", CStr "100")]]%string 2))
    by (left; reflexivity).
  split; [exact Hin|].
  exact (profileColumns_column_bounds no_date (fun _ => None)
           [[("amount", CStr "100")]; [("amount", CNull)]; [("amount", CStr "100")]]%string
           2 _ Hin).
Defined.

Lemma processFile_failure_cases_witness :
  exists e,
    processFile no_date (fun _ => None) w_csv_parse (fun _ => inr JScalar) (fun _ => inr [])
      (fun _ => inr ""%string) (fun _ => ""%string) []
      {| fm_filename := "huge.txt"; fm_mimetype := "text/plain"; fm_size := 60000000;
         fm_datasetId := "d" |} = inl e /\
    ((MAX_FILE_SIZE < 60000000)%N \/
     ((ends_with (toLowerCase "huge.txt") ".pdf" || includes "text/plain" "pdf") = true /\
      exists e', @inr JsError string ""%string = inl e')).
Proof.
  eexists. split; [reflexivity|].
  exact (processFile_failure_cases no_date (fun _ => None) w_csv_parse (fun _ => inr JScalar)
           (fun _ => inr []) (fun _ => inr ""%string) (fun _ => ""%string) []
           {| fm_filename := "huge.txt"; fm_mimetype := "text/plain"; fm_size := 60000000;
              fm_datasetId := "d" |} _ eq_refl).
Defined.

Lemma processFile_text_bounded_witness :
  exists pf,
    processFile no_date (fun _ => None) w_csv_parse (fun _ => inr JScalar) (fun _ => inr [])
      (fun _ => inr ""%string) (fun _ => ""%string) [] (csv_meta "sales.csv" "text/csv") = inr pf /\
    String.length (pf_unstructuredText pf) <= MAX_TEXT_LENGTH + 3 /\
    (pf_columnPreview pf <> [] -> pf_unstructuredText pf = ""%string).
Proof.
  eexists. split; [reflexivity|].
  exact (processFile_text_bounded no_date (fun _ => None) w_csv_parse (fun _ => inr JScalar)
           (fun _ => inr []) (fun _ => inr ""%string) (fun _ => ""%string) []
           (csv_meta "sales.csv" "text/csv") _ eq_refl).
Defined.

Lemma extractTermsWithRetry_first_success_witness :
  1 <= 2 <= MAX_RETRIES /\
  extractTermsWithRetry unit (fun n => if n =? 2 then inr tt else inl (mkError "timeout")) =
  ([ECall 1; ESleep (RETRY_DELAY * 2 ^ 0); ECall 2], inr tt).
Proof.
  assert (Hk : 1 <= 2 <= MAX_RETRIES) by (unfold MAX_RETRIES; lia).
  split; [exact Hk|].
  apply (extractTermsWithRetry_first_success unit
           (fun n => if n =? 2 then inr tt else inl (mkError "timeout")) 2 tt Hk).
  - intros j Hj. replace j with 1 by lia. eexists. reflexivity.
  - reflexivity.
Defined.

Lemma processFileInBackground_outcome_witness :
  set_has "f1" [] = false /\
  exists rest,
    (effects (fst (processFileInBackground (inr tt) (fun _ => inr tt) (fun _ => inr [])
        (fun _ => None) (fun _ _ => inr (0, 0)) (inr tt) (inr 0) "f1" "path"
        {| processingQueue := []; effects := [] |})) =
       EvStatus "processed"%string :: EvSaveRules :: EvSaveTerms :: EvExtract :: rest /\
     snd (processFileInBackground (inr tt) (fun _ => inr tt) (fun _ => inr [])
        (fun _ => None) (fun _ _ => inr (0, 0)) (inr tt) (inr 0) "f1" "path"
        {| processingQueue := []; effects := [] |}) = inr tt) \/
    (effects (fst (processFileInBackground (inr tt) (fun _ => inr tt) (fun _ => inr [])
        (fun _ => None) (fun _ _ => inr (0, 0)) (inr tt) (inr 0) "f1" "path"
        {| processingQueue := []; effects := [] |})) = EvStatus "failed"%string :: rest /\
     snd (processFileInBackground (inr tt) (fun _ => inr tt) (fun _ => inr [])
        (fun _ => None) (fun _ _ => inr (0, 0)) (inr tt) (inr 0) "f1" "path"
        {| processingQueue := []; effects := [] |}) = inr tt).
Proof.
  assert (Hfree : set_has "f1" (processingQueue {| processingQueue := []; effects := [] |}) = false)
    by reflexivity.
  split; [exact Hfree|].
  exact (processFileInBackground_outcome (inr tt) (fun _ => inr tt) (fun _ => inr [])
           (fun _ => None) (fun _ _ => inr (0, 0)) (inr tt) (inr 0) "f1" "path"
           {| processingQueue := []; effects := [] |} Hfree).
Defined.

Lemma batchUpsertTerms_success_witness :
  exists log',
    batchUpsertTerms (fun _ _ => None) None [mk_term "Amount" 1] "d" [] = (log', inr tt) /\
    None = @None JsError /\
    log' = rev (QBegin :: flat_map (batch_events "d") (batches [mk_term "Amount" 1]) ++ [QCommit]) ++ [].
Proof.
  eexists.
  assert (Hok : batchUpsertTerms (fun _ _ => None) None [mk_term "Amount" 1] "d" [] =
                (rev (QBegin :: flat_map (batch_events "d") (batches [mk_term "Amount" 1]) ++
                      [QCommit]) ++ [], inr tt)) by reflexivity.
  split; [exact Hok|].
  exact (batchUpsertTerms_success (fun _ _ => None) None [mk_term "Amount" 1] "d" [] _ Hok).
Defined.

Lemma batchUpsertTerms_failure_witness :
  exists log' e,
    batchUpsertTerms w_commit_fails None [mk_term "Amount" 1] "d" [] = (log', inl e) /\
    ((@None JsError = Some e /\ log' = []) \/
     (@None JsError = None /\ exists sent, log' = QRollback :: sent ++ [])).
Proof.
  eexists. eexists.
  assert (Hf : batchUpsertTerms w_commit_fails None [mk_term "Amount" 1] "d" [] =
               (fst (batchUpsertTerms w_commit_fails None [mk_term "Amount" 1] "d" []),
                inl (mkError "deadlock detected"))) by reflexivity.
  split; [exact Hf|].
  exact (batchUpsertTerms_failure w_commit_fails None [mk_term "Amount" 1] "d" [] _ _ Hf).
Defined.

Lemma extractFromFile_success_witness :
  exists evs res,
    extractFromFile no_date (fun _ => None) w_csv_parse (fun _ => inr JScalar) (fun _ => inr [])
      (fun _ => inr ""%string) (fun _ => ""%string) w_prompt w_gemini [] "sales.csv" "text/csv" 10
      "d" None "comprehensive" = (evs, inr res) /\
    exists pf,
      processFile no_date (fun _ => None) w_csv_parse (fun _ => inr JScalar) (fun _ => inr [])
        (fun _ => inr ""%string) (fun _ => ""%string) []
        {| fm_filename := "sales.csv"; fm_mimetype := "text/csv"; fm_size := 10;
           fm_datasetId := "d" |} = inr pf /\
      er_warnings res = pf_warnings pf /\
      ((pf_columnPreview pf = [] /\ er_columnPreview res = None) \/
       (pf_columnPreview pf <> [] /\ er_columnPreview res = Some (pf_columnPreview pf))) /\
      desc_sorted (er_terms res) /\
      NoDup (map (fun r => normalize (gt_term r)) (er_terms res)) /\
      (forall r, In r (er_terms res) -> trim (gt_term r) = gt_term r).
Proof.
  destruct (extractFromFile no_date (fun _ => None) w_csv_parse (fun _ => inr JScalar)
              (fun _ => inr []) (fun _ => inr ""%string) (fun _ => ""%string) w_prompt w_gemini []
              "sales.csv" "text/csv" 10 "d" None "comprehensive") as [evs r] eqn:E.
  destruct r as [e|res].
  - vm_compute in E. discriminate E.
  - exists evs, res. split; [reflexivity|].
    exact (extractFromFile_success no_date (fun _ => None) w_csv_parse (fun _ => inr JScalar)
             (fun _ => inr []) (fun _ => inr ""%string) (fun _ => ""%string) w_prompt w_gemini []
             "sales.csv" "text/csv" 10 "d" None "comprehensive" evs res E).
Defined.

Lemma readMultipartData_resolved_witness :
  exists md,
    readMultipartData w_upload_events = Some (inr md) /\
    exists b1 b2 rest,
      w_upload_events = b1 ++ BFile (md_filename md) (md_mimetype md) :: b2 ++ BClose :: rest /\
      no_file_or_close b1 /\ no_file_or_close b2 /\
      md_fileBuffer md = concat (data_chunks b2) /\
      (N.of_nat (length (md_fileBuffer md)) <= MAX_FILE_SIZE)%N.
Proof.
  eexists.
  assert (H : readMultipartData w_upload_events =
              Some (inr {| md_fields := [("datasetId", "d")]%string;
                           md_fileBuffer := [Byte.x41; Byte.x42; Byte.x43];
                           md_filename := "sales.csv"; md_mimetype := "text/csv" |})) by reflexivity.
  split; [exact H|].
  exact (readMultipartData_resolved w_upload_events _ H).
Defined.

Lemma uploadAndExtractGlossary_error_status_witness :
  exists status msg meta,
    hr_response (uploadAndExtractGlossary no_date (fun _ => None) w_csv_parse (fun _ => inr JScalar)
      (fun _ => inr []) (fun _ => inr ""%string) (fun _ => ""%string) w_prompt w_gemini
      (fun _ => inl (mkError "validation failed: datasetId is required")) true true
      (fun _ _ => None) (fun _ => None) (inr {| md_fields := []; md_fileBuffer := []; md_filename := "a.csv";
                                      md_mimetype := "text/csv" |}))
    = RError status msg meta /\
    ((status = 400 /\ includes msg "validation" = true) \/
     (status = 500 /\ includes msg "validation" = false)) /\
    (meta = None <->
       (exists e, @inr JsError MultipartData {| md_fields := []; md_fileBuffer := [];
                     md_filename := "a.csv"; md_mimetype := "text/csv" |} = inl e) \/
       (exists md e, @inr JsError MultipartData {| md_fields := []; md_fileBuffer := [];
                     md_filename := "a.csv"; md_mimetype := "text/csv" |} = inr md /\
                     @inl JsError UploadFields (mkError "validation failed: datasetId is required")
                       = inl e)).
Proof.
  do 3 eexists.
  assert (H : hr_response (uploadAndExtractGlossary no_date (fun _ => None) w_csv_parse
      (fun _ => inr JScalar) (fun _ => inr []) (fun _ => inr ""%string) (fun _ => ""%string)
      w_prompt w_gemini (fun _ => inl (mkError "validation failed: datasetId is required"))
      true true (fun _ _ => None) (fun _ => None)
      (inr {| md_fields := []; md_fileBuffer := []; md_filename := "a.csv"; md_mimetype := "text/csv" |}))
    = RError 400 "validation failed: datasetId is required" None) by reflexivity.
  split; [exact H|].
  exact (uploadAndExtractGlossary_error_status no_date (fun _ => None) w_csv_parse
           (fun _ => inr JScalar) (fun _ => inr []) (fun _ => inr ""%string) (fun _ => ""%string)
           w_prompt w_gemini (fun _ => inl (mkError "validation failed: datasetId is required"))
           true true (fun _ _ => None) (fun _ => None) _ _ _ _ H).
Defined.

Lemma uploadAndExtractGlossary_success_witness :
  exists res,
    hr_response (uploadAndExtractGlossary no_date (fun _ => None) w_csv_parse (fun _ => inr JScalar)
      (fun _ => inr []) (fun _ => inr ""%string) (fun _ => ""%string) w_prompt w_gemini w_validate
      true true (fun _ _ => None) (fun _ => None) (inr {| md_fields := []; md_fileBuffer := [Byte.x41];
                                                   md_filename := "sales.csv";
                                                   md_mimetype := "text/csv" |}))
    = RJson res /\ pr_termsExtracted res = 1.
Proof.
  destruct (hr_response (uploadAndExtractGlossary no_date (fun _ => None) w_csv_parse
      (fun _ => inr JScalar) (fun _ => inr []) (fun _ => inr ""%string) (fun _ => ""%string)
      w_prompt w_gemini w_validate true true (fun _ _ => None) (fun _ => None)
      (inr {| md_fields := []; md_fileBuffer := [Byte.x41]; md_filename := "sales.csv";
              md_mimetype := "text/csv" |}))) as [res|status msg meta] eqn:E;
    [|vm_compute in E; discriminate E].
  exists res. split; [reflexivity|].
  destruct (uploadAndExtractGlossary_success no_date (fun _ => None) w_csv_parse
      (fun _ => inr JScalar) (fun _ => inr []) (fun _ => inr ""%string) (fun _ => ""%string)
      w_prompt w_gemini w_validate true true (fun _ _ => None) (fun _ => None)
      (inr {| md_fields := []; md_fileBuffer := [Byte.x41]; md_filename := "sales.csv";
              md_mimetype := "text/csv" |}) res E) as [Hn _].
  rewrite Hn. vm_compute in E. injection E as <-. reflexivity.
Defined.
